(** * The multi-session HTTP transport manager of n8n-mcp

    A shallow embedding of the class [SingleSessionHTTPServer]: the session
    registry ([transports], [servers], [sessionMetadata],
    [sessionContexts]), the request router [handleRequest], the context
    switch coordinator ([switchSessionContext], [performContextSwitch]) and
    the lifecycle sweeper ([cleanupExpiredSessions], [removeSession]);
    then the checks made at start-up ([validateEnvironment],
    [loadAuthToken]), [sanitizeErrorForClient], the POST and DELETE
    endpoints of [/mcp] with the close listener of a request, and
    [getSessionInfo].

    Conventions of the embedding.
    - The four registry fields are JavaScript objects used as dictionaries;
      they are finite maps keyed by the session id, which hold the own
      properties of the objects.  Where the source tests or dereferences
      [obj[sessionId]] for an id that comes from a request (the router, the
      DELETE endpoint, the close listener, the test for orphaned contexts
      of the sweeper), the value is [read obj sessionId], which also shows
      what [Object.prototype] holds under the twelve names that every
      object inherits.  Three things that JavaScript does with these names
      are not followed.  An assignment [obj['__proto__'] = v] puts [v] in
      the place of the prototype and adds no property; here it stores an
      entry.  [removeSession], called for one of the twelve names under
      which no transport is registered, throws at [close()] and deletes
      nothing; here it deletes what the other three maps hold under the
      name.  What [updateSessionAccess] and [performContextSwitch] write on
      an inherited value is not recorded.  The statements about runs that
      depend on any of this are made for events that are [ordinary], that
      is, name none of the twelve where a session id is expected.
    - Methods are computations in a state-and-exception monad over the
      fields of the class.  A JavaScript exception leaves the mutations
      made before it in place, as in the source.
    - [Date.now()], [uuidv4()] and the behaviour of the SDK transport
      (whether it initialises the session, whether its [close()] rejects,
      whether it finds fault with the message of a request and calls
      [onerror]) are inputs supplied by the environment.  What the SDK does
      inside [close()] and [handleRequest] is not looked into; the
      callbacks the server hands to the transport ([onsessioninitialized],
      [onclose], [onerror]) appear where the SDK is known to call them:
      [onsessioninitialized] while the new transport handles an initialize
      request, [onerror] while the transport of a session handles a later
      request, and [onclose] and [onerror] as events of their own.
    - A run is a sequence of events, each handled to its end before the
      next one.  [handleRequest] is also split at
      [await server.connect(transport)], which lies between the test of
      the session limit and the registration of the new session, for the
      statements about initialize requests that overlap;
      [switchSessionContext] is split at its [await]s, for the statements
      about calls that overlap, and [removeSession] at its [await], for the
      sweeper, which does not wait for it.
    - [logger] output and the calls made to [transport.close()] are kept
      in an append-only list of effects, which is not part of the
      registry.
    - A string is a sequence of characters with codes below 256.
    - Functions that the server imports ([AuthManager.timingSafeCompare],
      [validateInstanceContext], the hash function, [URL]) are variables of
      the sections that use them. *)

From Stdlib Require Import Ascii.
From stdpp Require Import gmap strings list fin_maps.

Open Scope Z_scope.

(** ** Data model *)

(** Session management constants. *)
Definition MAX_SESSIONS : nat := 100.
Definition SESSION_CLEANUP_INTERVAL : Z := 5 * 60 * 1000.
Definition sessionTimeout : Z := 30 * 60 * 1000.

(** The request metadata attached by the POST endpoint:
    [{ userAgent: req.headers['user-agent'], ip: req.ip }]. *)
Record RequestMetadata := mkRequestMetadata {
  userAgent : option string;
  ip : option string
}.

(** Modelled from the spec: the declaration of the type [InstanceContext],
    which the server imports from [./types/instance-context].  The fields
    are the ones the spec lists and the server reads and writes (endpoint
    URL, credential, tenant id, session id, request metadata), in the order
    in which the POST endpoint builds the object; [None] is JavaScript's
    [undefined]. *)
Record InstanceContext := mkInstanceContext {
  n8nApiUrl : option string;
  n8nApiKey : option string;
  instanceId : option string;
  ctxSessionId : option string;
  metadata : option RequestMetadata
}.

Global Instance RequestMetadata_eq_dec : EqDecision RequestMetadata.
Proof. solve_decision. Defined.
Global Instance InstanceContext_eq_dec : EqDecision InstanceContext.
Proof. solve_decision. Defined.

(** A [StreamableHTTPServerTransport] as the registry sees it: the session
    id its [sessionIdGenerator] returned, and whether its [close()] is going
    to reject. *)
Record Transport := mkTransport {
  transport_sessionId : string;
  close_rejects : bool
}.

(** An [N8NDocumentationMCPServer]: the protocol handler of one session.
    [instanceContext] is the field that a context switch overwrites. *)
Record McpServer := mkMcpServer {
  instanceContext : option InstanceContext;
  connected : bool
}.

Record SessionMeta := mkSessionMeta {
  lastAccess : Z;
  createdAt : Z
}.

(** What the server does to the outside: a line written through [logger],
    with the string-valued fields of the object logged with it, and a call
    of [close()] on the transport of a session. *)
Inductive Effect :=
| LoggerInfo (message : string) (fields : list (string * string))
| LoggerWarn (message : string) (fields : list (string * string))
| LoggerDebug (message : string) (fields : list (string * string))
| LoggerError (message : string) (fields : list (string * string))
| TransportClose (sessionId : string).

(** The mutable fields of [SingleSessionHTTPServer]. *)
Record HttpServer := mkHttpServer {
  transports : gmap string Transport;
  servers : gmap string McpServer;
  sessionMetadata : gmap string SessionMeta;
  sessionContexts : gmap string (option InstanceContext);
  contextSwitchLocks : gset string;
  effects : list Effect
}.

Definition initial : HttpServer :=
  mkHttpServer ∅ ∅ ∅ ∅ ∅ [].

(** The registry proper: the four parallel maps keyed by session id. *)
Definition registry (this : HttpServer) :=
  (transports this, servers this, sessionMetadata this, sessionContexts this).

Definition with_transports (f : gmap string Transport → gmap string Transport)
    (this : HttpServer) : HttpServer :=
  mkHttpServer (f (transports this)) (servers this) (sessionMetadata this)
    (sessionContexts this) (contextSwitchLocks this) (effects this).

Definition with_servers (f : gmap string McpServer → gmap string McpServer)
    (this : HttpServer) : HttpServer :=
  mkHttpServer (transports this) (f (servers this)) (sessionMetadata this)
    (sessionContexts this) (contextSwitchLocks this) (effects this).

Definition with_sessionMetadata
    (f : gmap string SessionMeta → gmap string SessionMeta)
    (this : HttpServer) : HttpServer :=
  mkHttpServer (transports this) (servers this) (f (sessionMetadata this))
    (sessionContexts this) (contextSwitchLocks this) (effects this).

Definition with_sessionContexts
    (f : gmap string (option InstanceContext) → gmap string (option InstanceContext))
    (this : HttpServer) : HttpServer :=
  mkHttpServer (transports this) (servers this) (sessionMetadata this)
    (f (sessionContexts this)) (contextSwitchLocks this) (effects this).

Definition with_contextSwitchLocks (f : gset string → gset string)
    (this : HttpServer) : HttpServer :=
  mkHttpServer (transports this) (servers this) (sessionMetadata this)
    (sessionContexts this) (f (contextSwitchLocks this)) (effects this).

Definition with_effect (e : Effect) (this : HttpServer) : HttpServer :=
  mkHttpServer (transports this) (servers this) (sessionMetadata this)
    (sessionContexts this) (contextSwitchLocks this) (effects this ++ [e]).

(** ** The monad of methods: state and exceptions *)

Inductive Outcome (A : Type) :=
| Returned (a : A)
| Thrown (error : string).
Arguments Returned {A} a.
Arguments Thrown {A} error.

Definition M (A : Type) : Type := HttpServer → Outcome A * HttpServer.

Definition ret {A} (a : A) : M A := λ this, (Returned a, this).

Definition bind {A B} (c : M A) (k : A → M B) : M B :=
  λ this,
    match c this with
    | (Returned a, this') => k a this'
    | (Thrown e, this') => (Thrown e, this')
    end.

Definition throw {A} (e : string) : M A := λ this, (Thrown e, this).

(** [try { body } catch (error) { handler }] *)
Definition try_catch {A} (body : M A) (handler : string → M A) : M A :=
  λ this,
    match body this with
    | (Returned a, this') => (Returned a, this')
    | (Thrown e, this') => handler e this'
    end.

Definition gets {A} (f : HttpServer → A) : M A := λ this, (Returned (f this), this).
Definition modify (f : HttpServer → HttpServer) : M unit :=
  λ this, (Returned tt, f this).

Declare Scope js_scope.
Delimit Scope js_scope with js.
Notation "x ← y ; z" := (bind y (λ x, z))
  (at level 20, y at level 100, z at level 200, only parsing) : js_scope.
Notation "x ;; z" := (bind x (λ _, z))
  (at level 100, z at level 200, only parsing, right associativity) : js_scope.
Open Scope js_scope.

(** [if (cond) { body }] with no else branch. *)
Definition when (cond : bool) (body : M unit) : M unit :=
  if cond then body else ret tt.

(** [for (const x of xs) { body(x) }] *)
Fixpoint for_of {A} (xs : list A) (body : A → M unit) : M unit :=
  match xs with
  | [] => ret tt
  | x :: xs' => body x ;; for_of xs' body
  end.

Definition logger_info (message : string) (fields : list (string * string))
    : M unit :=
  modify (with_effect (LoggerInfo message fields)).
Definition logger_warn (message : string) (fields : list (string * string))
    : M unit :=
  modify (with_effect (LoggerWarn message fields)).
Definition logger_debug (message : string) (fields : list (string * string))
    : M unit :=
  modify (with_effect (LoggerDebug message fields)).
Definition logger_error (message : string) (fields : list (string * string))
    : M unit :=
  modify (with_effect (LoggerError message fields)).

(** [await transport.close()]: the call is recorded; it rejects when the
    transport is one whose close fails. *)
Definition transport_close (sessionId : string) (t : Transport) : M unit :=
  modify (with_effect (TransportClose sessionId));;
  if close_rejects t then throw "transport close failed" else ret tt.

(** [Object.keys(obj)] *)
Definition Object_keys {V} (obj : gmap string V) : list string :=
  (map_to_list obj).*1.

(** ** Reading a dictionary

    The dictionaries of the registry are created as [{}]: besides their own
    entries they show, under these twelve names, what [Object.prototype]
    holds, eleven functions and, under [__proto__], the prototype itself.
    None of the twelve is enumerable, so that [Object.keys] and [for ... in]
    see the entries only. *)
Definition Object_prototype : list string :=
  ["constructor"; "__defineGetter__"; "__defineSetter__"; "hasOwnProperty";
   "__lookupGetter__"; "__lookupSetter__"; "isPrototypeOf";
   "propertyIsEnumerable"; "toString"; "valueOf"; "__proto__";
   "toLocaleString"].

Definition inherited (key : string) : bool :=
  bool_decide (key ∈ Object_prototype).

(** What [obj[key]] evaluates to: the entry under [key], or else the value
    inherited under that name, which is an object and so passes for true in
    a test, or else [undefined]. *)
Inductive Property (V : Type) :=
| Own (value : V)
| Inherited
| Undefined.
Arguments Own {V} value.
Arguments Inherited {V}.
Arguments Undefined {V}.

Definition read {V} (obj : gmap string V) (key : string) : Property V :=
  match obj !! key with
  | Some value => Own value
  | None => if inherited key then Inherited else Undefined
  end.

(** ** Session registry *)

(** [removeSession(sessionId, reason)] *)
Definition removeSession (sessionId reason : string) : M unit :=
  try_catch
    (t ← gets (λ this, transports this !! sessionId);
     match t with
     | Some transport =>
         transport_close sessionId transport;;
         modify (with_transports (delete sessionId))
     | None => ret tt
     end;;
     modify (with_servers (delete sessionId));;
     modify (with_sessionMetadata (delete sessionId));;
     modify (with_sessionContexts (delete sessionId));;
     logger_info "Session removed"
       [("sessionId", sessionId); ("reason", reason)])
    (λ error,
       logger_warn "Error removing session"
         [("sessionId", sessionId); ("reason", reason); ("error", error)]).

(** [removeSession], from the call to its [await], for a caller that does
    not wait for it.  With a transport registered, [close()] is called and
    the function is suspended at the [await], which the result reports;
    with none, the function runs to its end. *)
Definition removeSession_begin (sessionId reason : string)
    : M (option Transport) :=
  try_catch
    (t ← gets (λ this, transports this !! sessionId);
     match t with
     | Some transport =>
         modify (with_effect (TransportClose sessionId));;
         ret (Some transport)
     | None =>
         modify (with_servers (delete sessionId));;
         modify (with_sessionMetadata (delete sessionId));;
         modify (with_sessionContexts (delete sessionId));;
         logger_info "Session removed"
           [("sessionId", sessionId); ("reason", reason)];;
         ret None
     end)
    (λ error,
       logger_warn "Error removing session"
         [("sessionId", sessionId); ("reason", reason); ("error", error)];;
       ret None).

(** [removeSession], from [await this.transports[sessionId].close()] to its
    end, once the promise of [close()] is settled. *)
Definition removeSession_resume (sessionId reason : string)
    (transport : Transport) : M unit :=
  try_catch
    ((if close_rejects transport then throw "transport close failed"
      else ret tt);;
     modify (with_transports (delete sessionId));;
     modify (with_servers (delete sessionId));;
     modify (with_sessionMetadata (delete sessionId));;
     modify (with_sessionContexts (delete sessionId));;
     logger_info "Session removed"
       [("sessionId", sessionId); ("reason", reason)])
    (λ error,
       logger_warn "Error removing session"
         [("sessionId", sessionId); ("reason", reason); ("error", error)]).

(** [getActiveSessionCount()] *)
Definition getActiveSessionCount (this : HttpServer) : nat :=
  length (Object_keys (transports this)).

(** [canCreateSession()] *)
Definition canCreateSession (this : HttpServer) : bool :=
  bool_decide (getActiveSessionCount this < MAX_SESSIONS)%nat.

(** [isValidSessionId(sessionId)]: any non-empty string. *)
Definition isValidSessionId (sessionId : string) : bool :=
  bool_decide (0 < String.length sessionId)%nat.

(** [updateSessionAccess(sessionId)], at time [now]. *)
Definition updateSessionAccess (now : Z) (sessionId : string) : M unit :=
  md ← gets (λ this, sessionMetadata this !! sessionId);
  match md with
  | Some metadata =>
      modify (with_sessionMetadata
                (<[sessionId := mkSessionMeta now (createdAt metadata)]>))
  | None => ret tt
  end.

(** ** [JSON.stringify] on instance contexts

    The serialisation of ECMAScript's [JSON.stringify], restricted to the
    values an instance context holds: strings, objects, and [undefined]
    properties, which are left out. *)
Module JSON.

Definition dquote : ascii := Ascii.ascii_of_nat 34.
Definition backslash : ascii := Ascii.ascii_of_nat 92.

Definition hex_digit (n : N) : ascii :=
  Ascii.ascii_of_N (if (n <? 10)%N then 48 + n else 87 + n).

(** One code unit of [QuoteJSONString]. *)
Definition escape_char (c : ascii) : string :=
  let n := Ascii.N_of_ascii c in
  if (n =? 34)%N then String backslash (String dquote "")
  else if (n =? 92)%N then String backslash (String backslash "")
  else if (n =? 8)%N then String backslash "b"
  else if (n =? 12)%N then String backslash "f"
  else if (n =? 10)%N then String backslash "n"
  else if (n =? 13)%N then String backslash "r"
  else if (n =? 9)%N then String backslash "t"
  else if (n <? 32)%N then
    String backslash (String "u" (String "0" (String "0"
      (String (hex_digit (n / 16)) (String (hex_digit (n mod 16)) "")))))
  else String c "".

Fixpoint escape (s : string) : string :=
  match s with
  | "" => ""
  | String c s' => escape_char c +:+ escape s'
  end.

Definition quote (s : string) : string :=
  String dquote (escape s +:+ String dquote "").

(** A property: its key and its serialised value, if it has one. *)
Definition entry : Type := string * option string.

(** The members of an object, separated by commas, up to the closing
    brace; [sep] tells whether a member has been written already. *)
Fixpoint members (sep : bool) (es : list entry) : string :=
  match es with
  | [] => "}"
  | (k, Some v) :: es' =>
      (if sep then "," else "") +:+ quote k +:+ ":" +:+ v +:+ members true es'
  | (_, None) :: es' => members sep es'
  end.

Definition object (es : list entry) : string := String "{" (members false es).

Definition metadata_entries (m : RequestMetadata) : list entry :=
  [("userAgent", quote <$> userAgent m); ("ip", quote <$> ip m)].

Definition context_entries (c : InstanceContext) : list entry :=
  [("n8nApiUrl", quote <$> n8nApiUrl c);
   ("n8nApiKey", quote <$> n8nApiKey c);
   ("instanceId", quote <$> instanceId c);
   ("sessionId", quote <$> ctxSessionId c);
   ("metadata", (object ∘ metadata_entries) <$> metadata c)].

(** [JSON.stringify(context)]; [JSON.stringify(undefined)] is
    [undefined]. *)
Definition stringify (context : option InstanceContext) : option string :=
  (object ∘ context_entries) <$> context.

(** The inverse of [hex_digit] and of [escape_char], used to show that
    quoting loses nothing. *)
Definition hex_value (c : ascii) : N :=
  let n := Ascii.N_of_ascii c in
  if (n <? 58)%N then n - 48 else n - 87.

Definition unescape_char (s : string) : option (ascii * string) :=
  match s with
  | "" => None
  | String c r =>
      if decide (c = dquote) then None
      else if decide (c = backslash) then
        match r with
        | String e r' =>
            if decide (e = dquote) then Some (dquote, r')
            else if decide (e = backslash) then Some (backslash, r')
            else if decide (e = "b"%char) then Some (Ascii.ascii_of_nat 8, r')
            else if decide (e = "f"%char) then Some (Ascii.ascii_of_nat 12, r')
            else if decide (e = "n"%char) then Some (Ascii.ascii_of_nat 10, r')
            else if decide (e = "r"%char) then Some (Ascii.ascii_of_nat 13, r')
            else if decide (e = "t"%char) then Some (Ascii.ascii_of_nat 9, r')
            else match r' with
                 | String _ (String _ (String h (String l r''))) =>
                     Some (Ascii.ascii_of_N (16 * hex_value h + hex_value l), r'')
                 | _ => None
                 end
        | "" => None
        end
      else Some (c, r)
  end.

End JSON.

(** ** Context switch coordinator *)

(** [performContextSwitch(sessionId, newContext)].  The function is
    [async] but holds no [await]: it runs to completion within the turn
    that calls it. *)
Definition performContextSwitch (sessionId : string)
    (newContext : InstanceContext) : M unit :=
  existingContext ← gets (λ this, mjoin (sessionContexts this !! sessionId));
  when (bool_decide
          (JSON.stringify existingContext ≠ JSON.stringify (Some newContext)))
    (logger_info
       "Multi-tenant shared mode: Updating instance context for session"
       [("sessionId", sessionId)];;
     modify (with_sessionContexts (<[sessionId := Some newContext]>));;
     server ← gets (λ this, servers this !! sessionId);
     match server with
     | Some srv =>
         modify (with_servers
                   (<[sessionId := mkMcpServer (Some newContext) (connected srv)]>))
     | None => ret tt
     end).

(** The two [await]s at which [switchSessionContext] can be suspended. *)
Inductive AwaitPoint :=
| AwaitExistingLock   (* [await existingLock] *)
| AwaitSwitchPromise. (* [await switchPromise] *)

(** [switchSessionContext(sessionId, newContext)], from the call to its
    first [await]. *)
Definition switchSessionContext_begin (sessionId : string)
    (newContext : InstanceContext) : M AwaitPoint :=
  existingLock ← gets (λ this, bool_decide (sessionId ∈ contextSwitchLocks this));
  if existingLock then ret AwaitExistingLock
  else
    performContextSwitch sessionId newContext;;
    modify (with_contextSwitchLocks (λ locks, {[sessionId]} ∪ locks));;
    ret AwaitSwitchPromise.

(** [switchSessionContext], from the [await] it was suspended at to its
    end: a plain [return] after [await existingLock], the [finally] block
    after [await switchPromise]. *)
Definition switchSessionContext_resume (sessionId : string)
    (p : AwaitPoint) : M unit :=
  match p with
  | AwaitExistingLock => ret tt
  | AwaitSwitchPromise =>
      modify (with_contextSwitchLocks (λ locks, locks ∖ {[sessionId]}))
  end.

(** A call that nothing interleaves with. *)
Definition switchSessionContext (sessionId : string)
    (newContext : InstanceContext) : M unit :=
  p ← switchSessionContext_begin sessionId newContext;
  switchSessionContext_resume sessionId p.

(** ** Lifecycle sweeper *)

(** [now - metadata.lastAccess.getTime() > this.sessionTimeout] *)
Definition expired (now : Z) (metadata : SessionMeta) : bool :=
  bool_decide (now - lastAccess metadata > sessionTimeout).

(** The body of the loop over [this.sessionContexts]: a context is deleted
    when [this.sessionMetadata[sessionId]] is [undefined]. *)
Definition cleanOrphanedContext (sessionId : string) : M unit :=
  md ← gets (λ this, read (sessionMetadata this) sessionId);
  match md with
  | Undefined =>
      modify (with_sessionContexts (delete sessionId));;
      logger_debug "Cleaned orphaned session context"
        [("sessionId", sessionId)]
  | _ => ret tt
  end.

(** [for (const sessionId of ids) { this.removeSession(sessionId, reason) }]:
    the removals are started and not waited for.  The result lists the
    removals that are suspended at their [await], each with the transport
    whose [close()] it awaits. *)
Fixpoint start_removals (reason : string) (ids : list string)
    : M (list (string * Transport)) :=
  match ids with
  | [] => ret []
  | sessionId :: ids' =>
      p ← removeSession_begin sessionId reason;
      pending ← start_removals reason ids';
      ret (match p with
           | Some transport => (sessionId, transport) :: pending
           | None => pending
           end)
  end.

(** The suspended removals run to their end, in the order in which they
    were started. *)
Definition settle_removals (reason : string)
    (pending : list (string * Transport)) : M unit :=
  for_of pending (λ st, removeSession_resume st.1 reason st.2).

(** [cleanupExpiredSessions()], at time [now], from the call to its return.
    The result lists the removals that are still suspended then. *)
Definition cleanupExpiredSessions (now : Z) : M (list (string * Transport)) :=
  metadata ← gets sessionMetadata;
  let expiredSessions := (filter (λ kv, expired now kv.2) (map_to_list metadata)).*1 in
  contexts ← gets sessionContexts;
  for_of (Object_keys contexts) cleanOrphanedContext;;
  pending ← start_removals "expired" expiredSessions;
  when (bool_decide (0 < length expiredSessions)%nat)
    (logger_info "Cleaned up expired sessions" []);;
  ret pending.

(** One sweep: the timer callback runs [cleanupExpiredSessions()], and the
    removals it started are settled before anything else is handled. *)
Definition sweep (now : Z) : M unit :=
  pending ← cleanupExpiredSessions now;
  settle_removals "expired" pending.

Record SessionMetrics := mkSessionMetrics {
  totalSessions : nat;
  activeSessions : nat;
  expiredSessions : nat;
  lastCleanup : Z
}.

(** [getSessionMetrics()], at time [now]. *)
Definition getSessionMetrics (now : Z) (this : HttpServer) : SessionMetrics :=
  let expiredCount :=
    foldr (λ kv count, if expired now kv.2 then S count else count) 0%nat
      (map_to_list (sessionMetadata this)) in
  mkSessionMetrics
    (length (Object_keys (sessionMetadata this)))
    (getActiveSessionCount this)
    expiredCount
    now.

(** [shutdown()]: the registry part. *)
Definition shutdown : M unit :=
  sessionIds ← gets (λ this, Object_keys (transports this));
  for_of sessionIds (λ sessionId,
    try_catch (removeSession sessionId "server_shutdown")
      (λ error,
         logger_warn "Error closing transport for session"
           [("sessionId", sessionId); ("error", error)])).

(** ** Values of JavaScript *)

(** A string is truthy when it is defined and not empty. *)
Definition truthy (s : option string) : bool :=
  match s with
  | Some (String _ _) => true
  | _ => false
  end.

(** [a || b] *)
Definition js_or (a : option string) (b : string) : string :=
  match a with
  | Some (String c s) => String c s
  | _ => b
  end.

(** [s.includes(searchString)] *)
Fixpoint includes (s searchString : string) : bool :=
  String.prefix searchString s ||
  match s with
  | String _ s' => includes s' searchString
  | EmptyString => false
  end.

(** ** Errors sent to the client *)

(** What a [catch] clause receives: an instance of [Error], with its [name]
    and [message], or any other value. *)
Inductive Caught :=
| ErrorObject (name message : string)
| OtherValue.

Record SanitizedError := mkSanitizedError {
  message : string;
  code : string
}.

(** [sanitizeErrorForClient(error)], with [process.env.NODE_ENV]. *)
Definition sanitizeErrorForClient (NODE_ENV : option string) (error : Caught)
    : SanitizedError :=
  let isProduction := bool_decide (NODE_ENV = Some "production") in
  match error with
  | ErrorObject error_name error_message =>
      if isProduction then
        if includes error_message "Unauthorized"
           || includes error_message "authentication"
        then mkSanitizedError "Authentication failed" "AUTH_ERROR"
        else if includes error_message "Session"
                || includes error_message "session"
        then mkSanitizedError "Session error" "SESSION_ERROR"
        else if includes error_message "Invalid"
                || includes error_message "validation"
        then mkSanitizedError "Validation error" "VALIDATION_ERROR"
        else mkSanitizedError "Internal server error" "INTERNAL_ERROR"
      else
        mkSanitizedError (String.substring 0 200 error_message)
          (js_or (Some error_name) "ERROR")
  | OtherValue => mkSanitizedError "An error occurred" "UNKNOWN_ERROR"
  end.

(** ** Request router *)

Record Request := mkRequest {
  mcp_session_id : option string;  (* [req.headers['mcp-session-id']] *)
  isInitializeRequest : bool       (* [req.body ? isInitializeRequest(req.body) : false] *)
}.

(** What the surroundings contribute to one request. *)
Record Ambient := mkAmbient {
  date_now : Z;                    (* [Date.now()], [new Date()] *)
  uuidv4 : string;                 (* the value of [uuidv4()] *)
  transport_initializes : bool;    (* the SDK transport accepts the
                                      initialize message and calls
                                      [onsessioninitialized] *)
  transport_close_rejects : bool;  (* [close()] of the transport created
                                      for this request will reject *)
  transport_errors : bool          (* the transport of the session finds
                                      fault with the message of the
                                      request and calls [onerror] *)
}.

(** [process.env] *)
Record ProcessEnv := mkProcessEnv {
  ENABLE_MULTI_TENANT : option string;
  MULTI_TENANT_SESSION_STRATEGY : option string;
  NODE_ENV' : option string        (* [process.env.NODE_ENV] *)
}.

Inductive Response :=
| JsonRpcError (status : nat) (code : Z) (message : string)
| NoContent
| TransportHandled (sessionId : option string).

(** The [onclose] callback that the router puts on a new transport, for a
    transport whose [sessionId] is [sid].  The removal is not waited for;
    it is followed to its end here. *)
Definition onclose (sid : string) : M unit :=
  when (truthy (Some sid))
    (logger_info "handleRequest: Transport closed, cleaning up"
       [("sessionId", sid)];;
     removeSession sid "transport_closed").

(** The [onerror] callback, likewise. *)
Definition onerror (sid : string) : M unit :=
  logger_error "Transport error" [("sessionId", sid)];;
  when (truthy (Some sid)) (removeSession sid "transport_error").

(** The [catch] clause of [handleRequest].  What is caught there is the
    [TypeError] of a call on a value that is not a transport; no response
    has been started then, and the answer is status 500 with the message
    that [sanitizeErrorForClient] makes of the error. *)
Definition handleRequest_catch (penv : ProcessEnv) (error : string)
    : M Response :=
  logger_error "handleRequest: MCP request error:"
    [("error", error); ("errorName", "TypeError")];;
  ret (JsonRpcError 500 (-32603)
         (message (sanitizeErrorForClient (NODE_ENV' penv)
                     (ErrorObject "TypeError" error)))).

(** How far [handleRequest] has got when it first yields to the event
    loop.  A request that initializes a session and has passed the test of
    the session limit is suspended at [await server.connect(transport)],
    with the transport and the handler it has created; the transport is
    registered later, by [onsessioninitialized].  Any other request is
    followed to its answer in one stretch. *)
Inductive Stage :=
| Answered (response : Response)
| Connecting (transport : Transport) (server : McpServer).

Section Router.

(** [createHash('sha256').update(s).digest('hex')] *)
Variable sha256_hex : string → string.

Definition configHash (instanceContext : InstanceContext) : string :=
  String.substring 0 8
    (sha256_hex
       (JSON.object [("url", JSON.quote <$> n8nApiUrl instanceContext);
                     ("instanceId", JSON.quote <$> instanceId instanceContext)])).

(** [`instance-${instanceContext.instanceId}-${configHash}-${uuidv4()}`] *)
Definition instanceSessionId (instanceContext : InstanceContext)
    (uuid : string) : string :=
  "instance-" +:+ js_or (instanceId instanceContext) "undefined" +:+ "-"
    +:+ configHash instanceContext +:+ "-" +:+ uuid.

(** The session id an initialize request is going to get. *)
Definition sessionIdToUse (penv : ProcessEnv) (io : Ambient)
    (sessionId : option string) (instanceContext : option InstanceContext)
    : string :=
  let isMultiTenantEnabled :=
    bool_decide (ENABLE_MULTI_TENANT penv = Some "true") in
  let sessionStrategy := js_or (MULTI_TENANT_SESSION_STRATEGY penv) "instance" in
  match instanceContext with
  | Some context =>
      if isMultiTenantEnabled && bool_decide (sessionStrategy = "instance")
         && truthy (instanceId context)
      then instanceSessionId context (uuidv4 io)
      else js_or sessionId (uuidv4 io)
  | None => js_or sessionId (uuidv4 io)
  end.

(** The [onsessioninitialized] callback given to the new transport. *)
Definition onsessioninitialized (now : Z) (transport : Transport)
    (server : McpServer) (instanceContext : option InstanceContext)
    (initializedSessionId : string) : M unit :=
  logger_info "handleRequest: Session initialized, storing transport and server"
    [("sessionId", initializedSessionId)];;
  modify (with_transports (<[initializedSessionId := transport]>));;
  modify (with_servers (<[initializedSessionId := server]>));;
  modify (with_sessionMetadata (<[initializedSessionId := mkSessionMeta now now]>));;
  modify (with_sessionContexts (<[initializedSessionId := instanceContext]>)).

(** [handleRequest(req, res, instanceContext)], from the call to
    [await server.connect(transport)] for a request that initializes a
    session, and to its end for any other request. *)
Definition handleRequest_begin (penv : ProcessEnv) (io : Ambient)
    (req : Request) (instanceContext : option InstanceContext) : M Stage :=
  try_catch
    (let sessionId := mcp_session_id req in
     let isInitialize := isInitializeRequest req in
     if isInitialize then
       can ← gets canCreateSession;
       if negb can then
         logger_warn "handleRequest: Session limit reached" [];;
         ret (Answered
                (JsonRpcError 429 (-32000)
                   "Session limit reached (100). Please wait for existing sessions to expire."))
       else
         let sid := sessionIdToUse penv io sessionId instanceContext in
         let server := mkMcpServer instanceContext true in
         let transport := mkTransport sid (transport_close_rejects io) in
         (* [await server.connect(transport)] *)
         ret (Connecting transport server)
     else
       (* [this.transports[sessionId]] *)
       found ← gets (λ this,
                  match sessionId with
                  | Some sid => read (transports this) sid
                  | None => Undefined
                  end);
       match sessionId, found with
       | Some (String c s), (Own _ | Inherited) =>
           let sid := String c s in
           if negb (isValidSessionId sid) then
             logger_warn "handleRequest: Invalid session ID format"
               [("sessionId", sid)];;
             ret (Answered (JsonRpcError 400 (-32602) "Invalid session ID format"))
           else
             let isMultiTenantEnabled :=
               bool_decide (ENABLE_MULTI_TENANT penv = Some "true") in
             let sessionStrategy :=
               js_or (MULTI_TENANT_SESSION_STRATEGY penv) "instance" in
             match instanceContext with
             | Some context =>
                 when (isMultiTenantEnabled
                       && bool_decide (sessionStrategy = "shared"))
                   (switchSessionContext sid context)
             | None => ret tt
             end;;
             updateSessionAccess (date_now io) sid;;
             (* [await transport.handleRequest(req, res, req.body)] *)
             match found with
             | Own transport =>
                 when (transport_errors io)
                   (onerror (transport_sessionId transport));;
                 ret (Answered
                        (TransportHandled (Some (transport_sessionId transport))))
             | _ => throw "transport.handleRequest is not a function"
             end
       | _, _ =>
           logger_warn
             "handleRequest: Invalid request - no session ID and not initialize"
             [];;
           let errorMessage :=
             match sessionId with
             | Some (String c s) =>
                 if negb (isValidSessionId (String c s))
                 then "Bad Request: Invalid session ID format"
                 else "Bad Request: Session not found or expired"
             | _ =>
                 "Bad Request: No valid session ID provided and not an initialize request"
             end in
           ret (Answered (JsonRpcError 400 (-32000) errorMessage))
       end)
    (λ error, response ← handleRequest_catch penv error; ret (Answered response)).

(** [handleRequest] of a request that initializes a session, from
    [await server.connect(transport)] to its end: the new transport
    handles the request. *)
Definition handleRequest_resume (penv : ProcessEnv) (io : Ambient)
    (transport : Transport) (server : McpServer)
    (instanceContext : option InstanceContext) : M Response :=
  try_catch
    ((* [await transport.handleRequest(req, res, req.body)] *)
     if transport_initializes io then
       onsessioninitialized (date_now io) transport server instanceContext
         (transport_sessionId transport);;
       ret (TransportHandled (Some (transport_sessionId transport)))
     else ret (TransportHandled None))
    (handleRequest_catch penv).

(** A request that nothing interleaves with. *)
Definition handleRequest (penv : ProcessEnv) (io : Ambient) (req : Request)
    (instanceContext : option InstanceContext) : M Response :=
  stage ← handleRequest_begin penv io req instanceContext;
  match stage with
  | Answered response => ret response
  | Connecting transport server =>
      handleRequest_resume penv io transport server instanceContext
  end.

(** [app.delete('/mcp', ...)] *)
Definition deleteMcp (mcpSessionId : option string) : M Response :=
  match mcpSessionId with
  | Some (String c s) =>
      let sid := String c s in
      if negb (isValidSessionId sid) then
        ret (JsonRpcError 400 (-32602) "Invalid session ID format")
      else
        (* [this.transports[mcpSessionId]] *)
        found ← gets (λ this, read (transports this) sid);
        match found with
        | Undefined => ret (JsonRpcError 404 (-32001) "Session not found")
        | _ =>
            try_catch
              (removeSession sid "manual_termination";; ret NoContent)
              (λ error, ret (JsonRpcError 500 (-32603) "Error terminating session"))
        end
  | _ => ret (JsonRpcError 400 (-32602) "Mcp-Session-Id header is required")
  end.

(** ** Runs of the server *)

Inductive Event :=
| Post (io : Ambient) (req : Request) (instanceContext : option InstanceContext)
| Delete (mcpSessionId : option string)
| Sweep (now : Z)
| TransportClosed (sid : string)   (* [transport.onclose] *)
| TransportError (sid : string)    (* [transport.onerror] *)
| Shutdown.

Definition handle (penv : ProcessEnv) (ev : Event) : M unit :=
  match ev with
  | Post io req instanceContext =>
      handleRequest penv io req instanceContext;; ret tt
  | Delete mcpSessionId => deleteMcp mcpSessionId;; ret tt
  | Sweep now => sweep now
  | TransportClosed sid => onclose sid
  | TransportError sid => onerror sid
  | Shutdown => shutdown
  end.

(** The state a computation leaves behind. *)
Definition exec {A} (c : M A) (this : HttpServer) : HttpServer := (c this).2.

Definition run (penv : ProcessEnv) (events : list Event)
    (this : HttpServer) : HttpServer :=
  foldl (λ this ev, exec (handle penv ev) this) this events.

(** Whether an event makes the transport of a new session call
    [onsessioninitialized]. *)
Definition creates_session (ev : Event) (this : HttpServer) : bool :=
  match ev with
  | Post io req _ =>
      isInitializeRequest req && canCreateSession this && transport_initializes io
  | _ => false
  end.

(** The number of sessions created in the course of a run. *)
Fixpoint sessions_created (penv : ProcessEnv) (events : list Event)
    (this : HttpServer) : nat :=
  match events with
  | [] => 0
  | ev :: events' =>
      (if creates_session ev this then 1 else 0)
      + sessions_created penv events' (exec (handle penv ev) this)
  end%nat.

(** The time of the last sweep of a run, if there was one. *)
Definition last_sweep (events : list Event) : option Z :=
  last (omap (λ ev, match ev with Sweep now => Some now | _ => None end) events).

(** ** Requests that overlap

    Requests in flight, each advancing from the call to its first [await]
    and from there to its end; the event loop runs one such stretch at a
    time, in any order. *)
Inductive RequestCall :=
| Arrived (io : Ambient) (req : Request)
    (instanceContext : option InstanceContext)
| Connects (io : Ambient) (transport : Transport) (server : McpServer)
    (instanceContext : option InstanceContext)
| Responded (response : Response).

Definition advance_request (penv : ProcessEnv) (call : RequestCall)
    : M RequestCall :=
  match call with
  | Arrived io req instanceContext =>
      stage ← handleRequest_begin penv io req instanceContext;
      ret (match stage with
           | Answered response => Responded response
           | Connecting transport server =>
               Connects io transport server instanceContext
           end)
  | Connects io transport server instanceContext =>
      response ← handleRequest_resume penv io transport server instanceContext;
      ret (Responded response)
  | Responded response => ret (Responded response)
  end.

Record Overlapping := mkOverlapping {
  calls : list RequestCall;
  state_of_server : HttpServer
}.

(** One turn of the event loop: the request number [i] runs its next
    stretch. *)
Definition turn_request (penv : ProcessEnv) (i : nat) (c : Overlapping)
    : Overlapping :=
  match calls c !! i with
  | Some call =>
      match advance_request penv call (state_of_server c) with
      | (Returned call', this') => mkOverlapping (<[i := call']> (calls c)) this'
      | (Thrown _, this') => mkOverlapping (calls c) this'
      end
  | None => c
  end.

Definition overlap (penv : ProcessEnv) (schedule : list nat) (c : Overlapping)
    : Overlapping :=
  foldl (λ c i, turn_request penv i c) c schedule.

End Router.

(** ** Concurrent context switches

    Two calls of [switchSessionContext] for one session, each advancing from
    [await] to [await]; the event loop runs one such stretch at a time, in
    any order. *)
Inductive SwitchCall :=
| NotStarted (newContext : InstanceContext)
| Suspended (p : AwaitPoint)
| Completed.

Definition advance (sessionId : string) (call : SwitchCall) : M SwitchCall :=
  match call with
  | NotStarted newContext =>
      p ← switchSessionContext_begin sessionId newContext;
      ret (Suspended p)
  | Suspended p =>
      switchSessionContext_resume sessionId p;;
      ret Completed
  | Completed => ret Completed
  end.

Record Concurrent := mkConcurrent {
  first_call : SwitchCall;
  second_call : SwitchCall;
  server_state : HttpServer
}.

(** One turn of the event loop: [true] resumes the first call, [false]
    the second. *)
Definition turn (sessionId : string) (which : bool) (c : Concurrent) : Concurrent :=
  if which then
    match advance sessionId (first_call c) (server_state c) with
    | (Returned call', this') => mkConcurrent call' (second_call c) this'
    | (Thrown _, this') => mkConcurrent Completed (second_call c) this'
    end
  else
    match advance sessionId (second_call c) (server_state c) with
    | (Returned call', this') => mkConcurrent (first_call c) call' this'
    | (Thrown _, this') => mkConcurrent (first_call c) Completed this'
    end.

Definition interleave (sessionId : string) (schedule : list bool)
    (c : Concurrent) : Concurrent :=
  foldl (λ c which, turn sessionId which c) c schedule.

(** * Start-up, authentication and the endpoints *)

(** ** Strings

    The string methods of JavaScript that the server calls.  A character
    is a code unit below 256, which is what the value of an HTTP header is
    made of. *)

(** White space and line terminators, as [String.prototype.trim] sees
    them: TAB, LF, VT, FF, CR, SP and NBSP. *)
Definition isWhiteSpace (c : ascii) : bool :=
  let n := Ascii.N_of_ascii c in
  ((9 <=? n) && (n <=? 13) || (n =? 32) || (n =? 160))%N.

(** [s.trimStart()] *)
Fixpoint trimStart (s : string) : string :=
  match s with
  | String c s' => if isWhiteSpace c then trimStart s' else s
  | EmptyString => EmptyString
  end.

(** [s.trimEnd()] *)
Fixpoint trimEnd (s : string) : string :=
  match s with
  | String c s' =>
      match trimEnd s' with
      | EmptyString => if isWhiteSpace c then EmptyString else String c EmptyString
      | rest => String c rest
      end
  | EmptyString => EmptyString
  end.

(** [s.trim()] *)
Definition trim (s : string) : string := trimEnd (trimStart s).

(** [s.startsWith(searchString)] *)
Definition startsWith (s searchString : string) : bool :=
  String.prefix searchString s.

(** [s.slice(start)], for a [start] that is not negative. *)
Fixpoint slice (start : nat) (s : string) : string :=
  match start, s with
  | S start', String _ s' => slice start' s'
  | _, _ => s
  end.

(** ** Start-up: the authentication token *)

(** The variables of [process.env] that are read when the server is
    constructed. *)
Record StartupEnv := mkStartupEnv {
  AUTH_TOKEN : option string;
  AUTH_TOKEN_FILE : option string;
  NODE_ENV : option string
}.

(** The lines that [loadAuthToken] and [validateEnvironment] write through
    [logger], by the call that writes them.  What they print on the
    console besides is left out. *)
Inductive StartupNotice :=
| UsingEnvToken                      (* info: Using AUTH_TOKEN from environment variable *)
| LoadedTokenFile (path : string)    (* info: Loaded AUTH_TOKEN from file: path *)
| TokenFileUnreadable (path : string)(* error: Failed to read AUTH_TOKEN_FILE: path *)
| TokenMissing                       (* error: No authentication token found ... *)
| TokenShort                         (* warn: AUTH_TOKEN should be at least 32 characters *)
| DefaultTokenInProduction           (* error: CRITICAL SECURITY ERROR ... *)
| DefaultTokenInUse.                 (* warn: SECURITY WARNING, twice *)

Definition default_token : string :=
  "REPLACE_THIS_AUTH_TOKEN_32_CHARS_MIN_abcdefgh".

Definition token_missing_message : string :=
  "No authentication token found or token is empty. Set AUTH_TOKEN environment variable or AUTH_TOKEN_FILE pointing to a file containing the token.".

Definition default_token_message : string :=
  "CRITICAL SECURITY ERROR: Cannot start in production with default AUTH_TOKEN. Generate secure token: openssl rand -base64 32".

(** [loadAuthToken()].  [readFileSync path] is the content of the file, or
    [None] when reading it throws. *)
Definition loadAuthToken (env : StartupEnv)
    (readFileSync : string → option string)
    : option string * list StartupNotice :=
  match AUTH_TOKEN env with
  | Some (String c s) => (Some (String c s), [UsingEnvToken])
  | _ =>
      match AUTH_TOKEN_FILE env with
      | Some (String c s) =>
          match readFileSync (String c s) with
          | Some content => (Some (trim content), [LoadedTokenFile (String c s)])
          | None => (None, [TokenFileUnreadable (String c s)])
          end
      | _ => (None, [])
      end
  end.

(** [validateEnvironment()]: the value left in [this.authToken], or the
    error thrown, and the lines logged. *)
Definition validateEnvironment (env : StartupEnv)
    (readFileSync : string → option string)
    : Outcome string * list StartupNotice :=
  let (loaded, log) := loadAuthToken env readFileSync in
  match loaded with
  | Some token =>
      if bool_decide (trim token = "") then
        (Thrown token_missing_message, log ++ [TokenMissing])
      else
        let authToken := trim token in
        let log :=
          log ++ (if bool_decide (String.length authToken < 32)%nat
                  then [TokenShort] else []) in
        let isDefaultToken := bool_decide (authToken = default_token) in
        let isProduction := bool_decide (NODE_ENV env = Some "production") in
        if isDefaultToken then
          if isProduction then
            (Thrown default_token_message, log ++ [DefaultTokenInProduction])
          else (Returned authToken, log ++ [DefaultTokenInUse])
        else (Returned authToken, log)
  | None => (Thrown token_missing_message, log ++ [TokenMissing])
  end.

(** ** The endpoints *)

(** A request as the POST endpoint reads it: the headers it looks at,
    [req.ip], and what [handleRequest] reads. *)
Record HttpRequest := mkHttpRequest {
  authorization : option string;   (* [req.headers.authorization] *)
  x_n8n_url : option string;       (* [req.headers['x-n8n-url']] *)
  x_n8n_key : option string;       (* [req.headers['x-n8n-key']] *)
  x_instance_id : option string;   (* [req.headers['x-instance-id']] *)
  x_session_id : option string;    (* [req.headers['x-session-id']] *)
  user_agent : option string;      (* [req.headers['user-agent']] *)
  req_ip : option string;          (* [req.ip] *)
  request : Request
}.

Record MultiTenantHeaders := mkMultiTenantHeaders {
  header_n8n_url : option string;
  header_n8n_key : option string;
  header_instance_id : option string;
  header_session_id : option string
}.

(** [extractMultiTenantHeaders(req)] *)
Definition extractMultiTenantHeaders (req : HttpRequest) : MultiTenantHeaders :=
  mkMultiTenantHeaders (x_n8n_url req) (x_n8n_key req) (x_instance_id req)
    (x_session_id req).

(** [a || undefined] *)
Definition or_undefined (a : option string) : option string :=
  if truthy a then a else None.

(** A property of a logged object whose value is a string, if it is
    defined. *)
Definition string_field (key : string) (value : option string)
    : list (string * string) :=
  match value with
  | Some v => [(key, v)]
  | None => []
  end.

(** The property of the logged object that shows the first eight
    characters of an id. *)
Definition id_field (key : string) (id : option string)
    : list (string * string) :=
  match or_undefined id with
  | Some v => [(key, String.substring 0 8 v +:+ "...")]
  | None => []
  end.

Section PostEndpoint.

Variable sha256_hex : string → string.

(** [AuthManager.timingSafeCompare], imported from [./utils/auth]. *)
Variable timingSafeCompare : string → string → bool.

(** [validateInstanceContext(context).valid], imported from
    [./types/instance-context]. *)
Variable validateInstanceContext : InstanceContext → bool.

(** [new URL(url).hostname], or [None] when [new URL(url)] throws. *)
Variable URL_hostname : string → option string.

(** The function that the POST endpoint calls in place to build the
    instance context from the headers. *)
Definition extractInstanceContext (req : HttpRequest)
    : M (option InstanceContext) :=
  let headers := extractMultiTenantHeaders req in
  let hasUrl := header_n8n_url headers in
  let hasKey := header_n8n_key headers in
  if negb (truthy hasUrl) && negb (truthy hasKey) then ret None
  else
    let context :=
      mkInstanceContext (or_undefined hasUrl) (or_undefined hasKey)
        (or_undefined (header_instance_id headers))
        (or_undefined (header_session_id headers))
        (if truthy (user_agent req) || truthy (req_ip req)
         then Some (mkRequestMetadata (user_agent req) (req_ip req))
         else None) in
    if negb (validateInstanceContext context) then
      logger_warn "Invalid instance context from headers" [];;
      ret None
    else ret (Some context).

(** [app.post('/mcp', ...)], once the rate limiter and the body parser have
    let the request through; [authToken] is [this.authToken].  The two
    lines with which the endpoint dumps the request and the state of the
    response into the log are left out.  The listener that the endpoint
    puts on the [close] event of the request is [closeHandler] below. *)
Definition postMcp (authToken : option string) (penv : ProcessEnv)
    (io : Ambient) (req : HttpRequest) : M Response :=
  let client :=
    string_field "ip" (req_ip req) ++ string_field "userAgent" (user_agent req) in
  match authorization req with
  | Some (String c s) =>
      let authHeader := String c s in
      if negb (startsWith authHeader "Bearer ") then
        logger_warn
          "Authentication failed: Invalid Authorization header format (expected Bearer token)"
          (client ++
           [("reason", "invalid_auth_format");
            ("headerPrefix", String.substring 0 10 authHeader +:+ "...")]);;
        ret (JsonRpcError 401 (-32001) "Unauthorized")
      else
        let token := trim (slice 7 authHeader) in
        let isValidToken :=
          match authToken with
          | Some (String c' s') => timingSafeCompare token (String c' s')
          | _ => false
          end in
        if negb isValidToken then
          logger_warn "Authentication failed: Invalid token"
            (client ++ [("reason", "invalid_token")]);;
          ret (JsonRpcError 401 (-32001) "Unauthorized")
        else
          logger_info "Authentication successful - proceeding to handleRequest" [];;
          instanceContext ← extractInstanceContext req;
          match instanceContext with
          | Some context =>
              match n8nApiUrl context with
              | Some url =>
                  match URL_hostname url with
                  | Some hostname =>
                      logger_debug "Instance context extracted from headers"
                        (id_field "instanceId" (instanceId context)
                         ++ id_field "sessionId" (ctxSessionId context)
                         ++ [("urlDomain", hostname)])
                  | None => throw "Invalid URL"
                  end
              | None =>
                  logger_debug "Instance context extracted from headers"
                    (id_field "instanceId" (instanceId context)
                     ++ id_field "sessionId" (ctxSessionId context))
              end
          | None => ret tt
          end;;
          handleRequest sha256_hex penv io (request req) instanceContext
  | _ =>
      logger_warn "Authentication failed: Missing Authorization header"
        (client ++ [("reason", "no_auth_header")]);;
      ret (JsonRpcError 401 (-32001) "Unauthorized")
  end.

End PostEndpoint.

(** The listener that the POST endpoint puts on the [close] event of the
    request, together with the cleanup it schedules with [setImmediate],
    which runs at time [now].  [headersSent] is [res.headersSent] when the
    connection closes.  The removal is not waited for; it is followed to
    its end here.  For an id under which the dictionary shows an inherited
    value, [metadata.lastAccess] is [undefined] and the call of [getTime]
    on it throws; nothing catches that error. *)
Definition closeHandler (headersSent : bool) (sessionId : option string)
    (now : Z) : M unit :=
  match sessionId with
  | Some (String c s) =>
      let sid := String c s in
      when (negb headersSent)
        (logger_info "Connection closed before response sent"
           [("sessionId", sid)];;
         (* [this.sessionMetadata[sessionId]] *)
         md ← gets (λ this, read (sessionMetadata this) sid);
         match md with
         | Own metadata =>
             let timeSinceAccess := now - lastAccess metadata in
             when (bool_decide (timeSinceAccess > 60000))
               (removeSession sid "connection_closed")
         | Inherited =>
             throw "Cannot read properties of undefined (reading 'getTime')"
         | Undefined => ret tt
         end)
  | _ => ret tt
  end.

(** [getSessionInfo()], at time [now]. *)
Module SessionInfo.

Record Sessions := mkSessions {
  total : nat;
  active : nat;
  expired : nat;
  max : nat;
  sessionIds : list string
}.

Record t := mk {
  is_active : bool;
  sessions : Sessions
}.

End SessionInfo.

Definition getSessionInfo (now : Z) (this : HttpServer) : SessionInfo.t :=
  let metrics := getSessionMetrics now this in
  SessionInfo.mk true
    (SessionInfo.mkSessions (totalSessions metrics) (activeSessions metrics)
       (expiredSessions metrics) MAX_SESSIONS (Object_keys (transports this))).

(** * Vocabulary of the properties

    States, runs and predicates that the statements below are written
    with. *)

(** ** Sessions and their removal *)

(** The state once the session [sessionId] is taken out of the four maps. *)
Definition without_session (sessionId : string) (this : HttpServer) : HttpServer :=
  mkHttpServer (delete sessionId (transports this)) (delete sessionId (servers this))
    (delete sessionId (sessionMetadata this))
    (delete sessionId (sessionContexts this))
    (contextSwitchLocks this) (effects this).

(** A session is gone when no registry map has an entry for its id. *)
Definition session_gone (sessionId : string) (this : HttpServer) : Prop :=
  transports this !! sessionId = None ∧ servers this !! sessionId = None ∧
  sessionMetadata this !! sessionId = None ∧
  sessionContexts this !! sessionId = None.

(** ** What a method keeps *)

(** [preserves P c]: running [c] from a state in [P] ends in a state in [P],
    whether [c] returns or throws. *)
Definition preserves {A} (P : HttpServer → Prop) (c : M A) : Prop :=
  ∀ this, P this → P (c this).2.

(** [ensures Q c]: whatever [c] returns is in [Q]. *)
Definition ensures {A} (Q : A → Prop) (c : M A) : Prop :=
  ∀ this a this', c this = (Returned a, this') → Q a.

(** The transports map only loses entries. *)
Definition shrinks (m0 : gmap string Transport) (this : HttpServer) : Prop :=
  transports this ⊆ m0.

(** ** The router *)

(** The message of the capacity error. *)
Definition limit_message : string :=
  "Session limit reached (100). Please wait for existing sessions to expire.".

(** The state after [onsessioninitialized] has stored a new session. *)
Definition with_session (sid : string) (now : Z) (close_fails : bool)
    (instanceContext : option InstanceContext) (this : HttpServer) : HttpServer :=
  mkHttpServer
    (<[sid := mkTransport sid close_fails]> (transports this))
    (<[sid := mkMcpServer instanceContext true]> (servers this))
    (<[sid := mkSessionMeta now now]> (sessionMetadata this))
    (<[sid := instanceContext]> (sessionContexts this))
    (contextSwitchLocks this)
    (effects this ++
       [LoggerInfo "handleRequest: Session initialized, storing transport and server"
          [("sessionId", sid)]]).

(** The message of the rejection of a request that resolves to no
    session. *)
Definition rejection_message (sessionId : option string) : string :=
  match sessionId with
  | Some (String c s) => "Bad Request: Session not found or expired"
  | _ => "Bad Request: No valid session ID provided and not an initialize request"
  end.

(** How one event can change the transports map: it loses entries, or,
    below the ceiling, it gains one transport stored under its own id. *)
Definition transports_step (m m' : gmap string Transport) : Prop :=
  m' ⊆ m ∨
  ((size m < MAX_SESSIONS)%nat ∧
   ∃ sid close_fails, m' = <[sid := mkTransport sid close_fails]> m).

(** Every stored transport sits under the session id it carries. *)
Definition keyed_by_id (m : gmap string Transport) : Prop :=
  ∀ k t, m !! k = Some t → transport_sessionId t = k.



(** ** Serialisation *)

(** A serialised property value is delimited when it can be told apart from
    whatever follows it. *)
Definition delimited (o1 o2 : option string) : Prop :=
  ∀ v1 v2 q1 q2, o1 = Some v1 → o2 = Some v2 →
    v1 +:+ q1 = v2 +:+ q2 → v1 = v2 ∧ q1 = q2.

(** ** Context switches *)

(** The state after a context switch that replaced the context of
    [sessionId]. *)
Definition switched (sessionId : string) (newContext : InstanceContext)
    (this : HttpServer) : HttpServer :=
  mkHttpServer (transports this)
    (alter (λ srv, mkMcpServer (Some newContext) (connected srv)) sessionId
       (servers this))
    (sessionMetadata this)
    (<[sessionId := Some newContext]> (sessionContexts this))
    (contextSwitchLocks this)
    (effects this ++
       [LoggerInfo "Multi-tenant shared mode: Updating instance context for session"
          [("sessionId", sessionId)]]).

(** The context stored for a session: [this.sessionContexts[sessionId]]. *)
Definition stored_context (sessionId : string) (this : HttpServer)
    : option InstanceContext :=
  mjoin (sessionContexts this !! sessionId).

(** The context the handler of a session refers to. *)
Definition handler_context (sessionId : string) (this : HttpServer)
    : option InstanceContext :=
  servers this !! sessionId ≫= instanceContext.

(** A session whose handler refers to the stored context. *)
Definition coherent (sessionId : string) (this : HttpServer) : Prop :=
  is_Some (servers this !! sessionId) ∧
  handler_context sessionId this = stored_context sessionId this.



(** A call holds the lock while it is suspended at [await switchPromise]. *)
Definition holds_lock (call : SwitchCall) : Prop :=
  call = Suspended AwaitSwitchPromise.

(** A call that has not started yet was made with [context]. *)
Definition carries (context : InstanceContext) (call : SwitchCall) : Prop :=
  ∀ x, call = NotStarted x → x = context.

Definition not_started (call : SwitchCall) : Prop := ∃ x, call = NotStarted x.

(** The invariant of two calls [x] and [y], made with the contexts [A] and
    [B], running against the state [this]. *)
Definition switch_inv (sessionId : string) (A B : InstanceContext)
    (stored0 : option InstanceContext) (x y : SwitchCall) (this : HttpServer)
    : Prop :=
  coherent sessionId this ∧
  carries A x ∧ carries B y ∧
  (sessionId ∈ contextSwitchLocks this ↔ holds_lock x ∨ holds_lock y) ∧
  ¬ (holds_lock x ∧ holds_lock y) ∧
  ((not_started x ∧ not_started y ∧ stored_context sessionId this = stored0)
   ∨ stored_context sessionId this = Some A
   ∨ stored_context sessionId this = Some B).

(** In per-instance multi-tenant mode a request with a tenant id gets the
    composite id. *)
Definition per_instance (penv : ProcessEnv) : Prop :=
  ENABLE_MULTI_TENANT penv = Some "true" ∧
  js_or (MULTI_TENANT_SESSION_STRATEGY penv) "instance" = "instance".

(** ** Concrete states and runs *)

(** A registry with the one session ["s1"], last used at time 0, whose
    transport rejects [close()] or not. *)
Definition one_session (close_fails : bool) : HttpServer :=
  mkHttpServer {["s1" := mkTransport "s1" close_fails]}
    {["s1" := mkMcpServer None true]}
    {["s1" := mkSessionMeta 0 0]}
    {["s1" := None]} ∅ [].

(** The instance context of the tenant [id]. *)
Definition tenant (id : string) : InstanceContext :=
  mkInstanceContext (Some "https://n8n.example.com") (Some "key") (Some id) None
    (Some (mkRequestMetadata (Some "agent") (Some "127.0.0.1"))).

(** A registry with the one session ["s1"], created with [context]. *)
Definition shared_session (context : InstanceContext) : HttpServer :=
  mkHttpServer {["s1" := mkTransport "s1" false]}
    {["s1" := mkMcpServer (Some context) true]}
    {["s1" := mkSessionMeta 0 0]}
    {["s1" := Some context]} ∅ [].

(** The same, while a context switch of ["s1"] is in flight. *)
Definition switch_in_flight : HttpServer :=
  with_contextSwitchLocks (λ locks, {["s1"]} ∪ locks)
    (shared_session (tenant "a")).

(** A digest function for the concrete runs: every input gets this one
    digest. *)
Definition constant_digest (s : string) : string :=
  "9f86d081884c7d659a2feaa0c55ad015a3bf4f1b2b0b822cd15d6c15b0f00a08".

(** The two deployment modes used in the concrete runs. *)
Definition single_tenant : ProcessEnv := mkProcessEnv None None None.

Definition multi_tenant_per_instance : ProcessEnv :=
  mkProcessEnv (Some "true") (Some "instance") None.

(** An initialize request without a session id header, accepted by the
    transport at time [now], when [uuidv4()] yields [uuid]. *)
Definition create (now : Z) (uuid : string)
    (instanceContext : option InstanceContext) : Event :=
  Post (mkAmbient now uuid true false false) (mkRequest None true) instanceContext.

(** [n] creates with pairwise different ids. *)
Definition creates (n : nat) : list Event :=
  (λ i, create 0 (String (Ascii.ascii_of_nat (32 + i)) "") None) <$> seq 0 n.

(** The registry at the ceiling. *)
Definition full : HttpServer :=
  run constant_digest single_tenant (creates 100) initial.

(** Two sessions are created, one of them is terminated, the sweeper runs
    at time 10, and the metrics are read at time 20. *)
Definition metrics_run : list Event :=
  [create 0 "u1" None; create 0 "u2" None; Delete (Some "u1"); Sweep 10].

(** ** The sweep *)

(** No transport of the registry rejects [close()]. *)
Definition closes_ok (this : HttpServer) : Prop :=
  ∀ sid t, transports this !! sid = Some t → close_rejects t = false.

(** The entries of [sid] are the same in two states. *)
Definition same_session (sid : string) (this this' : HttpServer) : Prop :=
  transports this' !! sid = transports this !! sid ∧
  servers this' !! sid = servers this !! sid ∧
  sessionMetadata this' !! sid = sessionMetadata this !! sid ∧
  sessionContexts this' !! sid = sessionContexts this !! sid.

(** The loop over the orphaned contexts touches no session that has
    metadata. *)
Definition orphans_only (this0 this : HttpServer) : Prop :=
  transports this = transports this0 ∧ servers this = servers this0 ∧
  sessionMetadata this = sessionMetadata this0 ∧
  ∀ sid, is_Some (sessionMetadata this0 !! sid) →
         sessionContexts this !! sid = sessionContexts this0 !! sid.

(** ** The registry as a whole *)

(** What every run keeps of the registry: handlers, metadata and transports
    have the same keys; every session has a stored context, to which its
    handler refers; and a context stored without a session sits under a
    name of [Object.prototype]. *)
Definition sound (this : HttpServer) : Prop :=
  dom (servers this) =@{gset string} dom (transports this) ∧
  dom (sessionMetadata this) =@{gset string} dom (transports this) ∧
  dom (transports this) ⊆@{gset string} dom (sessionContexts this) ∧
  (∀ sid, is_Some (sessionContexts this !! sid) → transports this !! sid = None →
          inherited sid = true) ∧
  (∀ sid, is_Some (transports this !! sid) →
          handler_context sid this = stored_context sid this).

(** Every stored context belongs to a registered session. *)
Definition registered_only (this : HttpServer) : Prop :=
  dom (sessionContexts this) ⊆@{gset string} dom (transports this).

(** The ids for which the router calls [switchSessionContext]: those under
    which [this.transports] shows something. *)
Definition names_session_or_prototype (sid : string) (this : HttpServer) : Prop :=
  is_Some (transports this !! sid) ∨ inherited sid = true.

(** The same, when no request names a property of [Object.prototype]. *)
Definition names_session (sid : string) (this : HttpServer) : Prop :=
  is_Some (transports this !! sid).

(** An event that names no property of [Object.prototype] where a session
    id is expected. *)
Definition ordinary (ev : Event) : Prop :=
  match ev with
  | Post io req _ =>
      (∀ sid, mcp_session_id req = Some sid → inherited sid = false) ∧
      inherited (uuidv4 io) = false
  | Delete mcpSessionId => ∀ sid, mcpSessionId = Some sid → inherited sid = false
  | TransportClosed sid | TransportError sid => inherited sid = false
  | Sweep _ | Shutdown => True
  end.

(** [admits] holds of every id that names a property of [Object.prototype]
    and no session, if the event is a request that names such an id. *)
Definition lets_through (admits : string → HttpServer → Prop) (ev : Event)
    (this : HttpServer) : Prop :=
  match ev with
  | Post _ req _ =>
      ∀ c s, mcp_session_id req = Some (String c s) →
             transports this !! String c s = None →
             inherited (String c s) = true → admits (String c s) this
  | _ => True
  end.

(** The sessions whose context switch is in flight are [locks]. *)
Definition locks_are (locks : gset string) (this : HttpServer) : Prop :=
  contextSwitchLocks this = locks.

(** Every stored context sits under an id under which
    [this.sessionMetadata] shows something. *)
Definition no_orphans (this : HttpServer) : Prop :=
  ∀ sid, is_Some (sessionContexts this !! sid) →
         read (sessionMetadata this) sid ≠ Undefined.

(** The metadata map only loses entries. *)
Definition metadata_shrinks (m0 : gmap string SessionMeta) (this : HttpServer)
    : Prop :=
  sessionMetadata this ⊆ m0.

(** What has been logged and closed so far is still on record. *)
Definition logs_kept (this this' : HttpServer) : Prop :=
  ∀ e, e ∈ effects this → e ∈ effects this'.

(** The multi-tenant mode in which the sessions are shared between the
    tenants:
    [isMultiTenantEnabled && sessionStrategy === 'shared']. *)
Definition shared_mode (penv : ProcessEnv) : bool :=
  bool_decide (ENABLE_MULTI_TENANT penv = Some "true")
  && bool_decide (js_or (MULTI_TENANT_SESSION_STRATEGY penv) "instance" = "shared").

(** The state in which [cleanupExpiredSessions] returns, given the state
    after the removals of [n] expired sessions have been started. *)
Definition sweep_log (n : nat) (this : HttpServer) : HttpServer :=
  if bool_decide (0 < n)%nat
  then with_effect (LoggerInfo "Cleaned up expired sessions" []) this
  else this.

(** ** Authentication and errors *)

(** The answer of the POST endpoint to a request that it does not let
    through. *)
Definition unauthorized : Response := JsonRpcError 401 (-32001) "Unauthorized".

(** The request presents the server's token: its [Authorization] header is
    [Bearer], a space, and a text that, trimmed, compares equal to the
    token, which is not empty. *)
Definition authenticated (compare : string → string → bool)
    (authToken header : option string) : Prop :=
  ∃ rest token,
    header = Some ("Bearer " +:+ rest) ∧
    authToken = Some token ∧ token ≠ "" ∧
    compare (trim rest) token = true.

(** A string with no white space at either end. *)
Definition trimmed (s : string) : Prop := trimStart s = s ∧ trimEnd s = s.

(** A field that is left undefined or holds a string that is not empty. *)
Definition absent_or_filled (field : option string) : Prop :=
  field = None ∨ truthy field = true.

(** The answers that tell nothing about the error. *)
Definition generic_errors : list SanitizedError :=
  [mkSanitizedError "Authentication failed" "AUTH_ERROR";
   mkSanitizedError "Session error" "SESSION_ERROR";
   mkSanitizedError "Validation error" "VALIDATION_ERROR";
   mkSanitizedError "Internal server error" "INTERNAL_ERROR";
   mkSanitizedError "An error occurred" "UNKNOWN_ERROR"].

(** ** More concrete states and requests *)

(** The mode in which the tenants share the sessions. *)
Definition shared_env : ProcessEnv :=
  mkProcessEnv (Some "true") (Some "shared") None.

(** A request on the session ["s1"] that does not initialize a session, and
    the surroundings of a request made at time 7. *)
Definition continue_s1 : Request := mkRequest (Some "s1") false.
Definition at_seven : Ambient := mkAmbient 7 "u" true false false.

(** A production environment whose [AUTH_TOKEN] has white space around the
    token, and a file system in which no file can be read. *)
Definition padded_token_env : StartupEnv :=
  mkStartupEnv (Some "  secret-token  ") None (Some "production").

Definition no_files (path : string) : option string := None.

(** A second context of the tenant ["a"], with another credential. *)
Definition tenant_a_other_key : InstanceContext :=
  mkInstanceContext (Some "https://n8n.example.com") (Some "other key")
    (Some "a") None None.

(** * Properties *)

(** ** Removal *)

Lemma removeSession_unfold sessionId reason this :
  removeSession sessionId reason this =
    match transports this !! sessionId with
    | Some t =>
        if close_rejects t then
          (Returned tt,
           with_effect
             (LoggerWarn "Error removing session"
                [("sessionId", sessionId); ("reason", reason);
                 ("error", "transport close failed")])
             (with_effect (TransportClose sessionId) this))
        else
          (Returned tt,
           with_effect
             (LoggerInfo "Session removed"
                [("sessionId", sessionId); ("reason", reason)])
             (without_session sessionId
                (with_effect (TransportClose sessionId) this)))
    | None =>
        (Returned tt,
         with_effect
           (LoggerInfo "Session removed"
              [("sessionId", sessionId); ("reason", reason)])
           (without_session sessionId this))
    end.
Proof.
  unfold removeSession, try_catch, bind, gets. simpl.
  destruct (transports this !! sessionId) as [t|] eqn:Ht; simpl.
  - unfold transport_close, bind, modify. simpl.
    destruct (close_rejects t); reflexivity.
  - unfold without_session. rewrite (delete_id _ _ Ht). reflexivity.
Qed.

Lemma removeSession_returns sessionId reason this :
  (removeSession sessionId reason this).1 = Returned tt.
Proof.
  rewrite removeSession_unfold.
  destruct (transports this !! sessionId) as [t|]; [destruct (close_rejects t)|];
    reflexivity.
Qed.

Lemma registry_with_effect e this : registry (with_effect e this) = registry this.
Proof. reflexivity. Qed.


Lemma without_session_gone sessionId this :
  session_gone sessionId (without_session sessionId this).
Proof. unfold session_gone; simpl. by rewrite !lookup_delete_eq. Qed.



(** C5, removal when the close fails.  On a registry holding the session
    ["s1"] whose transport rejects [close()], [removeSession] returns
    normally and logs the failure, but the session is still in every map:
    the deletions sit in the [try] block after the [await] that threw. *)
Theorem removeSession_close_failure_keeps_session :
  removeSession "s1" "expired" (one_session true)
  = (Returned tt,
     with_effect
       (LoggerWarn "Error removing session"
          [("sessionId", "s1"); ("reason", "expired");
           ("error", "transport close failed")])
       (with_effect (TransportClose "s1") (one_session true))) ∧
  let this' := (removeSession "s1" "expired" (one_session true)).2 in
  registry this' = registry (one_session true) ∧
  is_Some (transports this' !! "s1") ∧ is_Some (servers this' !! "s1") ∧
  is_Some (sessionMetadata this' !! "s1") ∧
  is_Some (sessionContexts this' !! "s1").
Proof.
  rewrite removeSession_unfold.
  assert (transports (one_session true) !! "s1" = Some (mkTransport "s1" true))
    as -> by reflexivity.
  simpl. repeat split; by eexists.
Qed.

(** Whenever the close of the owned transport rejects, nothing is deleted. *)
Lemma removeSession_close_rejects sessionId reason this t :
  transports this !! sessionId = Some t → close_rejects t = true →
  registry (removeSession sessionId reason this).2 = registry this.
Proof. intros Ht Hc. rewrite removeSession_unfold, Ht, Hc. reflexivity. Qed.

(** When it does not reject, or there is no transport, the session is taken
    out of the four maps. *)
Lemma removeSession_registry sessionId reason this :
  (∀ t, transports this !! sessionId = Some t → close_rejects t = false) →
  registry (removeSession sessionId reason this).2
  = registry (without_session sessionId this).
Proof.
  intros Hclose. rewrite removeSession_unfold.
  destruct (transports this !! sessionId) as [t|] eqn:Ht; [|done].
  by rewrite (Hclose t eq_refl).
Qed.

(** ** Properties kept by every method *)

Lemma preserves_ret {A} P (a : A) : preserves P (ret a).
Proof. by intros this. Qed.

Lemma preserves_throw {A} P e : preserves P (@throw A e).
Proof. by intros this. Qed.

Lemma preserves_gets {A} P (f : HttpServer → A) : preserves P (gets f).
Proof. by intros this. Qed.

Lemma preserves_modify P f :
  (∀ this, P this → P (f this)) → preserves P (modify f).
Proof. intros Hf this. apply Hf. Qed.

Lemma preserves_bind {A B} P (c : M A) (k : A → M B) :
  preserves P c → (∀ a, preserves P (k a)) → preserves P (bind c k).
Proof.
  intros Hc Hk this HP. unfold bind. specialize (Hc this HP).
  destruct (c this) as [[a|e] this']; simpl in *; [by apply Hk|done].
Qed.

Lemma preserves_try_catch {A} P (body : M A) handler :
  preserves P body → (∀ e, preserves P (handler e)) →
  preserves P (try_catch body handler).
Proof.
  intros Hb Hh this HP. unfold try_catch. specialize (Hb this HP).
  destruct (body this) as [[a|e] this']; simpl in *; [done|by apply Hh].
Qed.

Lemma preserves_when P cond body :
  preserves P body → preserves P (when cond body).
Proof. intros Hb. destruct cond; [done|apply preserves_ret]. Qed.

Lemma preserves_for_of {A} P (xs : list A) body :
  (∀ x, preserves P (body x)) → preserves P (for_of xs body).
Proof.
  intros Hb. induction xs as [|x xs IH]; simpl.
  - apply preserves_ret.
  - apply preserves_bind; [apply Hb|by intros _].
Qed.

Lemma preserves_logger_info P message fields :
  (∀ e this, P this → P (with_effect e this)) →
  preserves P (logger_info message fields).
Proof. intros H. apply preserves_modify, H. Qed.

Lemma preserves_logger_warn P message fields :
  (∀ e this, P this → P (with_effect e this)) →
  preserves P (logger_warn message fields).
Proof. intros H. apply preserves_modify, H. Qed.

Lemma preserves_logger_debug P message fields :
  (∀ e this, P this → P (with_effect e this)) →
  preserves P (logger_debug message fields).
Proof. intros H. apply preserves_modify, H. Qed.

Lemma preserves_logger_error P message fields :
  (∀ e this, P this → P (with_effect e this)) →
  preserves P (logger_error message fields).
Proof. intros H. apply preserves_modify, H. Qed.

(** Decomposes a [preserves] goal along the structure of the method. *)
Ltac preserves_step :=
  cbv beta;
  lazymatch goal with
  | |- preserves _ (match ?x with _ => _ end) => destruct x
  | |- preserves _ ((match ?x with _ => _ end) _) => destruct x
  | |- preserves _ (ret _) => apply preserves_ret
  | |- preserves _ (throw _) => apply preserves_throw
  | |- preserves _ (gets _) => apply preserves_gets
  | |- preserves _ (bind _ _) => apply preserves_bind; [|intros ?]
  | |- preserves _ (try_catch _ _) => apply preserves_try_catch; [|intros ?]
  | |- preserves _ (when _ _) => apply preserves_when
  | |- preserves _ (for_of _ _) => apply preserves_for_of; intros ?
  | |- preserves _ (logger_info _ _) => apply preserves_logger_info
  | |- preserves _ (logger_warn _ _) => apply preserves_logger_warn
  | |- preserves _ (logger_debug _ _) => apply preserves_logger_debug
  | |- preserves _ (logger_error _ _) => apply preserves_logger_error
  | |- preserves _ (modify _) => apply preserves_modify
  end.

Lemma ensures_ret {A} (Q : A → Prop) a : Q a → ensures Q (ret a).
Proof. intros H this a' this' [= <- _]. done. Qed.

Lemma ensures_throw {A} (Q : A → Prop) e : ensures Q (throw e).
Proof. intros this a this' [=]. Qed.

Lemma ensures_bind {A B} (Q : B → Prop) (c : M A) (k : A → M B) :
  (∀ a, ensures Q (k a)) → ensures Q (bind c k).
Proof.
  intros Hk this b this'. unfold bind.
  destruct (c this) as [[a|e] this1]; [apply Hk|intros [=]].
Qed.

Lemma ensures_try_catch {A} (Q : A → Prop) (body : M A) handler :
  ensures Q body → (∀ e, ensures Q (handler e)) →
  ensures Q (try_catch body handler).
Proof.
  intros Hb Hh this a this'. unfold try_catch.
  destruct (body this) as [[a1|e] this1] eqn:E.
  - intros [= <- <-]. by eapply Hb.
  - apply Hh.
Qed.

(** Decomposes an [ensures] goal along the structure of the method. *)
Ltac ensures_step :=
  cbv beta;
  lazymatch goal with
  | |- ensures _ (match ?x with _ => _ end) => destruct x
  | |- ensures _ (ret _) => apply ensures_ret
  | |- ensures _ (throw _) => apply ensures_throw
  | |- ensures _ (bind _ _) => apply ensures_bind; intros ?
  | |- ensures _ (try_catch _ _) => apply ensures_try_catch; [|intros ?]
  end.

Lemma shrinks_refl this : shrinks (transports this) this.
Proof. by unfold shrinks. Qed.

Lemma shrinks_delete m0 k this :
  shrinks m0 this → shrinks m0 (with_transports (delete k) this).
Proof.
  unfold shrinks. simpl. intros H. etrans; [apply delete_subseteq|done].
Qed.

Ltac shrinks_solve :=
  repeat preserves_step;
  try (intros; first [ by apply shrinks_delete | assumption ]).

Lemma removeSession_shrinks m0 sessionId reason :
  preserves (shrinks m0) (removeSession sessionId reason).
Proof. unfold removeSession, transport_close. shrinks_solve. Qed.

Lemma removeSession_begin_shrinks m0 sessionId reason :
  preserves (shrinks m0) (removeSession_begin sessionId reason).
Proof. unfold removeSession_begin. shrinks_solve. Qed.

Lemma removeSession_resume_shrinks m0 sessionId reason transport :
  preserves (shrinks m0) (removeSession_resume sessionId reason transport).
Proof. unfold removeSession_resume. shrinks_solve. Qed.

Lemma start_removals_shrinks m0 reason ids :
  preserves (shrinks m0) (start_removals reason ids).
Proof.
  induction ids as [|sessionId ids IH]; simpl; [apply preserves_ret|].
  apply preserves_bind; [apply removeSession_begin_shrinks|intros p].
  apply preserves_bind; [exact IH|intros pending; apply preserves_ret].
Qed.

Lemma settle_removals_shrinks m0 reason pending :
  preserves (shrinks m0) (settle_removals reason pending).
Proof.
  unfold settle_removals. apply preserves_for_of. intros st.
  apply removeSession_resume_shrinks.
Qed.

Lemma cleanupExpiredSessions_shrinks m0 now :
  preserves (shrinks m0) (cleanupExpiredSessions now).
Proof.
  unfold cleanupExpiredSessions, cleanOrphanedContext.
  repeat preserves_step;
    try (intros; first [ by apply shrinks_delete | assumption ]).
  apply start_removals_shrinks.
Qed.

Lemma sweep_shrinks m0 now : preserves (shrinks m0) (sweep now).
Proof.
  unfold sweep. apply preserves_bind; [apply cleanupExpiredSessions_shrinks|].
  intros pending. apply settle_removals_shrinks.
Qed.

Lemma shutdown_shrinks m0 : preserves (shrinks m0) shutdown.
Proof.
  unfold shutdown. repeat preserves_step; try (intros; assumption).
  apply removeSession_shrinks.
Qed.

Lemma switchSessionContext_shrinks m0 sessionId newContext :
  preserves (shrinks m0) (switchSessionContext sessionId newContext).
Proof.
  unfold switchSessionContext, switchSessionContext_begin,
    switchSessionContext_resume, performContextSwitch.
  shrinks_solve.
Qed.

Lemma updateSessionAccess_shrinks m0 now sessionId :
  preserves (shrinks m0) (updateSessionAccess now sessionId).
Proof. unfold updateSessionAccess. shrinks_solve. Qed.

Lemma onclose_shrinks m0 sid : preserves (shrinks m0) (onclose sid).
Proof.
  unfold onclose. repeat preserves_step; try (intros; assumption).
  apply removeSession_shrinks.
Qed.

Lemma onerror_shrinks m0 sid : preserves (shrinks m0) (onerror sid).
Proof.
  unfold onerror. repeat preserves_step; try (intros; assumption).
  apply removeSession_shrinks.
Qed.

Lemma getActiveSessionCount_size this :
  getActiveSessionCount this = size (transports this).
Proof.
  unfold getActiveSessionCount, Object_keys.
  by rewrite length_fmap, length_map_to_list.
Qed.

(** ** The request router *)

Section RouterProperties.

Variable sha256_hex : string → string.

Local Abbreviation handleRequest := (handleRequest sha256_hex).
Local Abbreviation handleRequest_begin := (handleRequest_begin sha256_hex).
Local Abbreviation sessionIdToUse := (sessionIdToUse sha256_hex).
Local Abbreviation handle := (handle sha256_hex).
Local Abbreviation run := (run sha256_hex).

(** An initialize request at the ceiling. *)
Lemma handleRequest_limit penv io req instanceContext this :
  isInitializeRequest req = true → canCreateSession this = false →
  handleRequest penv io req instanceContext this
  = (Returned (JsonRpcError 429 (-32000) limit_message),
     with_effect (LoggerWarn "handleRequest: Session limit reached" []) this).
Proof.
  intros Hi Hc.
  unfold handleRequest, handleRequest_begin, try_catch, bind, gets. simpl.
  rewrite Hi. simpl. rewrite Hc. reflexivity.
Qed.

(** An initialize request below the ceiling that the transport accepts. *)
Lemma handleRequest_create penv io req instanceContext this :
  isInitializeRequest req = true → canCreateSession this = true →
  transport_initializes io = true →
  let sid := sessionIdToUse penv io (mcp_session_id req) instanceContext in
  handleRequest penv io req instanceContext this
  = (Returned (TransportHandled (Some sid)),
     with_session sid (date_now io) (transport_close_rejects io)
       instanceContext this).
Proof.
  intros Hi Hc Ht.
  unfold handleRequest, handleRequest_begin, handleRequest_resume,
    try_catch, bind, gets.
  simpl. rewrite Hi. simpl. rewrite Hc. simpl. rewrite Ht. reflexivity.
Qed.

(** An initialize request that the transport turns down. *)
Lemma handleRequest_not_initialized penv io req instanceContext this :
  isInitializeRequest req = true → canCreateSession this = true →
  transport_initializes io = false →
  handleRequest penv io req instanceContext this
  = (Returned (TransportHandled None), this).
Proof.
  intros Hi Hc Ht.
  unfold handleRequest, handleRequest_begin, handleRequest_resume,
    try_catch, bind, gets.
  simpl. rewrite Hi. simpl. rewrite Hc. simpl. rewrite Ht. reflexivity.
Qed.

(** A request that does not initialize a session and names no session, or
    names an id under which [this.transports] shows nothing. *)
Lemma handleRequest_unresolved penv io req instanceContext this :
  isInitializeRequest req = false →
  (∀ c s, mcp_session_id req = Some (String c s) →
          read (transports this) (String c s) = Undefined) →
  handleRequest penv io req instanceContext this
  = (Returned (JsonRpcError 400 (-32000) (rejection_message (mcp_session_id req))),
     with_effect
       (LoggerWarn "handleRequest: Invalid request - no session ID and not initialize"
          [])
       this).
Proof.
  intros Hi Hk.
  unfold handleRequest, handleRequest_begin, try_catch, bind, gets.
  rewrite Hi. cbv zeta. cbn [fst snd].
  destruct (mcp_session_id req) as [[|c s]|]; cbn [fst snd].
  - by destruct (read (transports this) "").
  - rewrite (Hk _ _ eq_refl). reflexivity.
  - reflexivity.
Qed.

Lemma read_None {V} (obj : gmap string V) key :
  obj !! key = None → inherited key = false → read obj key = Undefined.
Proof. intros H1 H2. unfold read. by rewrite H1, H2. Qed.

Lemma read_Some {V} (obj : gmap string V) key value :
  obj !! key = Some value → read obj key = Own value.
Proof. intros H. unfold read. by rewrite H. Qed.

Lemma read_inherited {V} (obj : gmap string V) key :
  obj !! key = None → inherited key = true → read obj key = Inherited.
Proof. intros H1 H2. unfold read. by rewrite H1, H2. Qed.

(** A request that does not initialize a session is answered in its first
    stretch. *)
Lemma handleRequest_begin_continuation penv io req instanceContext :
  isInitializeRequest req = false →
  ensures (λ stage, ∃ response, stage = Answered response)
    (handleRequest_begin penv io req instanceContext).
Proof.
  intros Hi. unfold handleRequest_begin. rewrite Hi.
  repeat ensures_step; by eexists.
Qed.

Lemma handleRequest_continuation (P : HttpServer → Prop) penv io req
    instanceContext :
  isInitializeRequest req = false →
  preserves P (handleRequest_begin penv io req instanceContext) →
  preserves P (handleRequest penv io req instanceContext).
Proof.
  intros Hi Hb this HP. specialize (Hb this HP).
  pose proof (handleRequest_begin_continuation penv io req instanceContext Hi this)
    as H.
  unfold handleRequest, bind.
  destruct (handleRequest_begin penv io req instanceContext this)
    as [[[r|t srv]|e] this']; simpl in *; [done| |done].
  destruct (H _ _ eq_refl) as [r ?]. discriminate.
Qed.

(** A request that is not session-initializing never adds a transport. *)
Lemma handleRequest_continuation_shrinks m0 penv io req instanceContext :
  isInitializeRequest req = false →
  preserves (shrinks m0) (handleRequest penv io req instanceContext).
Proof.
  intros Hi. apply handleRequest_continuation; [done|].
  unfold handleRequest_begin, handleRequest_catch. rewrite Hi.
  repeat preserves_step; try (intros; assumption);
    first [ apply switchSessionContext_shrinks
          | apply updateSessionAccess_shrinks
          | apply onerror_shrinks ].
Qed.

(** No implicit creation.  A request that is not session-initializing and
    carries a session id that is not in the registry and does not name a
    property of [Object.prototype] is answered with status 400, and the
    registry, the locks and the number of sessions are as before. *)
Lemma continuation_unknown_session_rejected penv io req instanceContext
    this (sid : string) :
  isInitializeRequest req = false →
  mcp_session_id req = Some sid →
  transports this !! sid = None →
  inherited sid = false →
  ∃ message this',
    handleRequest penv io req instanceContext this
      = (Returned (JsonRpcError 400 (-32000) message), this') ∧
    registry this' = registry this ∧
    contextSwitchLocks this' = contextSwitchLocks this ∧
    getActiveSessionCount this' = getActiveSessionCount this.
Proof.
  intros Hi Hs Ht Hn. eexists _, _. split.
  - apply handleRequest_unresolved; [done|].
    intros c s Hs'. rewrite Hs in Hs'. injection Hs' as ->.
    by apply read_None.
  - done.
Qed.

(** ** Invariants of the registry *)

Lemma canCreateSession_true this :
  canCreateSession this = true → (size (transports this) < MAX_SESSIONS)%nat.
Proof.
  unfold canCreateSession. rewrite getActiveSessionCount_size.
  intros H. by apply bool_decide_eq_true in H.
Qed.

Lemma canCreateSession_false this :
  canCreateSession this = false → (MAX_SESSIONS ≤ size (transports this))%nat.
Proof.
  unfold canCreateSession. rewrite getActiveSessionCount_size.
  intros H. apply bool_decide_eq_false in H. lia.
Qed.

Lemma handleRequest_transports penv io req instanceContext this :
  transports_step (transports this)
    (transports (handleRequest penv io req instanceContext this).2).
Proof.
  destruct (isInitializeRequest req) eqn:Hi.
  - destruct (canCreateSession this) eqn:Hc.
    + destruct (transport_initializes io) eqn:Ht.
      * rewrite handleRequest_create by done. right.
        split; [by apply canCreateSession_true|]. by eexists _, _.
      * rewrite handleRequest_not_initialized by done. by left.
    + rewrite handleRequest_limit by done. by left.
  - left.
    apply (handleRequest_continuation_shrinks (transports this)
             penv io req instanceContext Hi this), shrinks_refl.
Qed.

Lemma deleteMcp_shrinks m0 mcpSessionId :
  preserves (shrinks m0) (deleteMcp mcpSessionId).
Proof.
  unfold deleteMcp.
  repeat preserves_step; try (intros; assumption);
    apply removeSession_shrinks.
Qed.

Lemma handle_transports penv ev this :
  transports_step (transports this) (transports (exec (handle penv ev) this)).
Proof.
  destruct ev as [io req ctx|sid|now|sid|sid|]; unfold exec; simpl.
  - pose proof (handleRequest_transports penv io req ctx this) as H.
    unfold bind. by destruct (handleRequest penv io req ctx this) as [[?|?] ?].
  - left.
    apply (preserves_bind (shrinks (transports this)) (deleteMcp sid) _
             (deleteMcp_shrinks _ sid) (λ _, preserves_ret _ tt) this).
    apply shrinks_refl.
  - left.
    apply (sweep_shrinks (transports this) now this), shrinks_refl.
  - left. apply (onclose_shrinks (transports this) sid this), shrinks_refl.
  - left. apply (onerror_shrinks (transports this) sid this), shrinks_refl.
  - left. apply (shutdown_shrinks (transports this) this), shrinks_refl.
Qed.

Lemma transports_step_size m m' :
  transports_step m m' → (size m ≤ MAX_SESSIONS)%nat →
  (size m' ≤ MAX_SESSIONS)%nat.
Proof.
  intros [Hsub|(Hlt & sid & b & ->)] Hle.
  - apply map_subseteq_size in Hsub. lia.
  - rewrite map_size_insert. destruct (m !! sid); simpl; lia.
Qed.

Lemma transports_step_keyed m m' :
  transports_step m m' → keyed_by_id m → keyed_by_id m'.
Proof.
  intros [Hsub|(Hlt & sid & b & ->)] Hk k t Hkt.
  - apply Hk. by eapply lookup_weaken.
  - destruct (decide (sid = k)) as [->|Hne].
    + rewrite lookup_insert_eq in Hkt. by injection Hkt as <-.
    + rewrite lookup_insert_ne in Hkt by done. by apply Hk.
Qed.

Lemma run_invariant (P : HttpServer → Prop) penv events :
  (∀ ev this, P this → P (exec (handle penv ev) this)) →
  ∀ this, P this → P (run penv events this).
Proof.
  intros Hstep. induction events as [|ev events IH]; intros this HP; simpl.
  - done.
  - apply IH, Hstep, HP.
Qed.

Lemma run_size penv events this :
  (size (transports this) ≤ MAX_SESSIONS)%nat →
  (size (transports (run penv events this)) ≤ MAX_SESSIONS)%nat.
Proof.
  apply (run_invariant (λ this, (size (transports this) ≤ MAX_SESSIONS)%nat)).
  intros ev this'. apply transports_step_size, handle_transports.
Qed.

Lemma run_keyed penv events this :
  keyed_by_id (transports this) →
  keyed_by_id (transports (run penv events this)).
Proof.
  apply (run_invariant (λ this, keyed_by_id (transports this))).
  intros ev this'. apply transports_step_keyed, handle_transports.
Qed.

(** The ceiling, for requests that do not overlap.  From the empty
    registry, after any sequence of requests and other events, each handled
    to its end before the next, the number of sessions is at most
    [MAX_SESSIONS]; and an initialize request that finds the registry at
    the ceiling is answered with status 429 and leaves the registry, the
    locks and the number of sessions as they are. *)
Lemma capacity_invariant penv (events : list Event) :
  (getActiveSessionCount (run penv events initial) ≤ MAX_SESSIONS)%nat ∧
  ∀ this io req instanceContext,
    isInitializeRequest req = true →
    getActiveSessionCount this = MAX_SESSIONS →
    ∃ this',
      handleRequest penv io req instanceContext this
        = (Returned (JsonRpcError 429 (-32000) limit_message), this') ∧
      registry this' = registry this ∧
      contextSwitchLocks this' = contextSwitchLocks this ∧
      getActiveSessionCount this' = MAX_SESSIONS.
Proof.
  split.
  - rewrite getActiveSessionCount_size. apply run_size.
    change (transports initial) with (∅ : gmap string Transport).
    rewrite map_size_empty. unfold MAX_SESSIONS. lia.
  - intros this io req ctx Hi Hn. eexists. split.
    + apply handleRequest_limit; [done|].
      unfold canCreateSession. apply bool_decide_eq_false. lia.
    + done.
Qed.

End RouterProperties.

(** ** [JSON.stringify] loses nothing of an instance context *)

Section JSONFacts.

Import JSON.

Lemma app_String a s t : String a s +:+ t = String a (s +:+ t).
Proof. reflexivity. Qed.

Lemma app_empty_l t : "" +:+ t = t.
Proof. reflexivity. Qed.

Lemma app_empty_r s : s +:+ "" = s.
Proof. induction s as [|a s IH]; [done|]. by rewrite app_String, IH. Qed.

Lemma app_assoc (s t u : string) : (s +:+ t) +:+ u = s +:+ (t +:+ u).
Proof. induction s as [|a s IH]; [done|]. by rewrite !app_String, IH. Qed.

Lemma String_inj_tail a s t : String a s = String a t → s = t.
Proof. by intros [=]. Qed.

Ltac norm_app :=
  repeat first
    [ rewrite app_assoc | rewrite app_String | rewrite app_empty_l ].
Ltac norm_app_in H :=
  repeat first
    [ rewrite app_assoc in H | rewrite app_String in H
    | rewrite app_empty_l in H ].

Lemma unescape_escape_char c r :
  unescape_char (escape_char c +:+ r) = Some (c, r).
Proof. destruct c as [[] [] [] [] [] [] [] []]; reflexivity. Qed.

Lemma escape_char_inj c1 c2 r1 r2 :
  escape_char c1 +:+ r1 = escape_char c2 +:+ r2 → c1 = c2 ∧ r1 = r2.
Proof.
  intros H. apply (f_equal unescape_char) in H.
  rewrite !unescape_escape_char in H. by simplify_eq.
Qed.

Lemma escape_char_not_dquote c r r' : escape_char c +:+ r ≠ String dquote r'.
Proof.
  intros H. apply (f_equal unescape_char) in H.
  by rewrite unescape_escape_char in H.
Qed.

(** A quoted string is self-delimiting: its closing quote is the first
    quote that is not escaped. *)
Lemma escape_delimited s1 : ∀ s2 r1 r2,
  escape s1 +:+ String dquote r1 = escape s2 +:+ String dquote r2 →
  s1 = s2 ∧ r1 = r2.
Proof.
  induction s1 as [|c1 s1 IH]; intros [|c2 s2] r1 r2; simpl; intros H.
  - by simplify_eq.
  - rewrite app_empty_l, app_assoc in H. symmetry in H.
    by apply escape_char_not_dquote in H.
  - rewrite app_empty_l, app_assoc in H. by apply escape_char_not_dquote in H.
  - rewrite !app_assoc in H. apply escape_char_inj in H as [-> H].
    apply IH in H as [-> ->]. done.
Qed.

Lemma quote_delimited s1 s2 r1 r2 :
  quote s1 +:+ r1 = quote s2 +:+ r2 → s1 = s2 ∧ r1 = r2.
Proof.
  unfold quote. rewrite !app_String, !app_assoc, !app_String, !app_empty_l.
  intros H. apply String_inj_tail in H. by apply escape_delimited.
Qed.

Lemma quote_inj s1 s2 : quote s1 = quote s2 → s1 = s2.
Proof.
  intros H. apply (f_equal (λ s, s +:+ "")) in H.
  by apply quote_delimited in H as [-> _].
Qed.

Lemma members_head sep (es : list entry) :
  members sep es = "}" ∨
  ∃ k v tl, k ∈ es.*1 ∧
    members sep es = (if sep then "," else "") +:+ quote k +:+ ":" +:+ v +:+ tl.
Proof.
  induction es as [|[k [v|]] es IH]; simpl.
  - by left.
  - right. exists k, v, (members true es). split; [|done].
    apply elem_of_cons. by left.
  - destruct IH as [?|(k' & v & tl & ? & ?)]; [by left|].
    right. exists k', v, tl. split; [|done]. apply elem_of_cons. by right.
Qed.

(** A member that one object writes cannot be matched by an object that
    leaves that key out: what comes next there is the closing brace or a
    different key. *)
Lemma member_not_skipped (sep : bool) (k v tl : string) (es : list entry) r1 r2 :
  k ∉ es.*1 →
  ((if sep then "," else "") +:+ quote k +:+ ":" +:+ v +:+ tl) +:+ r1
    ≠ members sep es +:+ r2.
Proof.
  intros Hk H.
  destruct (members_head sep es) as [Hes|(k' & v' & tl' & Hk' & Hes)];
    rewrite Hes in H.
  - destruct sep; discriminate H.
  - assert (quote k +:+ (":" +:+ v +:+ tl) +:+ r1
            = quote k' +:+ (":" +:+ v' +:+ tl') +:+ r2) as H'.
    { norm_app. destruct sep; norm_app_in H; [apply String_inj_tail in H|];
        exact H. }
    apply quote_delimited in H' as [-> _]. done.
Qed.

Lemma members_inj (es1 : list entry) : ∀ (es2 : list entry) sep r1 r2,
  es1.*1 = es2.*1 → NoDup es1.*1 →
  Forall2 (λ e1 e2, delimited e1.2 e2.2) es1 es2 →
  members sep es1 +:+ r1 = members sep es2 +:+ r2 →
  es1 = es2 ∧ r1 = r2.
Proof.
  induction es1 as [|[k o1] es1 IH]; intros [|[k2 o2] es2] sep r1 r2 Hk Hnd Hd H;
    try discriminate Hk; simpl in H.
  { split; [done|]. by apply String_inj_tail in H. }
  injection Hk as -> Hks. change (es1.*1 = es2.*1) in Hks.
  apply NoDup_cons in Hnd as [Hk1 Hnd]. apply Forall2_cons in Hd as [Hd Hds].
  simpl in Hd.
  destruct o1 as [v1|], o2 as [v2|].
  - assert (quote k2 +:+ (":" +:+ v1 +:+ members true es1 +:+ r1)
            = quote k2 +:+ (":" +:+ v2 +:+ members true es2 +:+ r2)) as H'.
    { norm_app. destruct sep; norm_app_in H; [apply String_inj_tail in H|];
        exact H. }
    apply quote_delimited in H' as [_ H']. norm_app_in H'.
    apply String_inj_tail in H'.
    apply (Hd v1 v2) in H' as [-> H']; [|done..].
    apply IH in H' as [-> ->]; done.
  - exfalso. eapply member_not_skipped; [|exact H]. by rewrite <-Hks.
  - exfalso. symmetry in H. eapply member_not_skipped; [|exact H]. done.
  - apply IH in H as [-> ->]; done.
Qed.

Lemma object_delimited (es1 es2 : list entry) r1 r2 :
  es1.*1 = es2.*1 → NoDup es1.*1 →
  Forall2 (λ e1 e2, delimited e1.2 e2.2) es1 es2 →
  object es1 +:+ r1 = object es2 +:+ r2 → es1 = es2 ∧ r1 = r2.
Proof.
  unfold object. rewrite !app_String. intros ??? H.
  apply String_inj_tail in H. by eapply members_inj.
Qed.

Lemma quoted_delimited (o1 o2 : option string) :
  delimited (quote <$> o1) (quote <$> o2).
Proof.
  intros v1 v2 q1 q2 H1 H2 H.
  destruct o1 as [s1|], o2 as [s2|]; try discriminate.
  apply (inj Some) in H1, H2. subst v1 v2.
  by apply quote_delimited in H as [-> ->].
Qed.

Lemma quoted_inj (o1 o2 : option string) :
  quote <$> o1 = quote <$> o2 → o1 = o2.
Proof.
  destruct o1, o2; simpl; intros H; try discriminate; [|done].
  apply (inj Some) in H. by apply quote_inj in H as ->.
Qed.

Lemma NoDup_keys (ks : list string) : bool_decide (NoDup ks) = true → NoDup ks.
Proof. apply bool_decide_eq_true. Qed.

Lemma metadata_object_delimited m1 m2 r1 r2 :
  object (metadata_entries m1) +:+ r1 = object (metadata_entries m2) +:+ r2 →
  m1 = m2 ∧ r1 = r2.
Proof.
  intros H. apply object_delimited in H as [H ->].
  - split; [|done]. destruct m1, m2. unfold metadata_entries in H. simpl in H.
    injection H as H1 H2. apply quoted_inj in H1, H2. by subst.
  - done.
  - by apply NoDup_keys.
  - unfold metadata_entries.
    repeat (constructor; [apply quoted_delimited|]). constructor.
Qed.

Lemma metadata_delimited (o1 o2 : option RequestMetadata) :
  delimited ((object ∘ metadata_entries) <$> o1)
    ((object ∘ metadata_entries) <$> o2).
Proof.
  intros v1 v2 q1 q2 H1 H2 H.
  destruct o1 as [m1|], o2 as [m2|]; try discriminate.
  apply (inj Some) in H1, H2. subst v1 v2. simpl in *.
  by apply metadata_object_delimited in H as [-> ->].
Qed.

Lemma metadata_inj (o1 o2 : option RequestMetadata) :
  (object ∘ metadata_entries) <$> o1 = (object ∘ metadata_entries) <$> o2 →
  o1 = o2.
Proof.
  destruct o1 as [m1|], o2 as [m2|]; simpl; intros H; try discriminate; [|done].
  apply (inj Some) in H. apply (f_equal (λ s, s +:+ "")) in H.
  by apply metadata_object_delimited in H as [-> _].
Qed.

(** Two instance contexts with the same serialisation are equal:
    comparing [JSON.stringify] results is comparing the contexts. *)
Lemma stringify_inj (c1 c2 : option InstanceContext) :
  stringify c1 = stringify c2 → c1 = c2.
Proof.
  destruct c1 as [c1|], c2 as [c2|]; simpl; intros H; try discriminate; [|done].
  apply (inj Some) in H. apply (f_equal (λ s, s +:+ "")) in H.
  apply object_delimited in H as [H _].
  - destruct c1, c2. unfold context_entries in H. simpl in H.
    injection H as H1 H2 H3 H4 H5.
    apply quoted_inj in H1, H2, H3, H4. apply metadata_inj in H5. by subst.
  - done.
  - by apply NoDup_keys.
  - unfold context_entries.
    repeat (constructor;
            [first [apply quoted_delimited | apply metadata_delimited]|]).
    constructor.
Qed.

Lemma stringify_differs (c1 c2 : option InstanceContext) :
  bool_decide (stringify c1 ≠ stringify c2) = bool_decide (c1 ≠ c2).
Proof.
  apply bool_decide_ext. split; intros H Heq; apply H.
  - by rewrite Heq.
  - by apply stringify_inj.
Qed.

End JSONFacts.

(** ** The context switch coordinator *)

Lemma alter_insert_lookup (m : gmap string McpServer) k f srv :
  m !! k = Some srv → <[k := f srv]> m = alter f k m.
Proof.
  intros Hk. apply map_eq. intros j. rewrite lookup_alter.
  destruct (decide (k = j)) as [->|Hne].
  - by rewrite lookup_insert_eq, Hk.
  - by rewrite lookup_insert_ne.
Qed.

Lemma alter_absent (m : gmap string McpServer) k f :
  m !! k = None → m = alter f k m.
Proof.
  intros Hk. apply map_eq. intros j. rewrite lookup_alter.
  destruct (decide (k = j)) as [->|Hne]; [by rewrite Hk|done].
Qed.

Lemma performContextSwitch_unfold sessionId newContext this :
  performContextSwitch sessionId newContext this
  = (Returned tt,
     if bool_decide (stored_context sessionId this ≠ Some newContext)
     then switched sessionId newContext this
     else this).
Proof.
  unfold performContextSwitch, bind, gets, when. cbv beta iota.
  rewrite stringify_differs. fold (stored_context sessionId this).
  destruct (bool_decide (stored_context sessionId this ≠ Some newContext));
    [|reflexivity].
  unfold logger_info, modify, bind. simpl. unfold switched.
  destruct (servers this !! sessionId) as [srv|] eqn:Hs; simpl.
  - by rewrite <-(alter_insert_lookup _ _ _ srv Hs).
  - by rewrite <-(alter_absent _ _ _ Hs).
Qed.

(** C6, the context switch.  [performContextSwitch] returns normally.  When
    the requested context equals the stored one, the state is left exactly
    as it was.  When it differs, the stored context becomes the requested
    one, the handler of the session, if there is one, refers to the
    requested one, with nothing of the old context kept, and transports,
    metadata and every other session are untouched. *)
Theorem performContextSwitch_replaces_or_keeps (sessionId : string)
    (newContext : InstanceContext) (this : HttpServer) :
  let this' := (performContextSwitch sessionId newContext this).2 in
  (performContextSwitch sessionId newContext this).1 = Returned tt ∧
  (stored_context sessionId this = Some newContext → this' = this) ∧
  (stored_context sessionId this ≠ Some newContext →
     stored_context sessionId this' = Some newContext ∧
     (is_Some (servers this !! sessionId) →
        handler_context sessionId this' = Some newContext) ∧
     sessionContexts this'
       = <[sessionId := Some newContext]> (sessionContexts this) ∧
     servers this'
       = alter (λ srv, mkMcpServer (Some newContext) (connected srv)) sessionId
           (servers this) ∧
     transports this' = transports this ∧
     sessionMetadata this' = sessionMetadata this ∧
     contextSwitchLocks this' = contextSwitchLocks this).
Proof.
  rewrite performContextSwitch_unfold. simpl. split; [done|]. split.
  - intros Heq. by rewrite bool_decide_eq_false_2 by (by intros H; apply H).
  - intros Hne. rewrite bool_decide_eq_true_2 by done.
    unfold stored_context, handler_context, switched. simpl.
    rewrite lookup_insert_eq. split; [done|]. split; [|done].
    intros [srv Hs]. rewrite lookup_alter, decide_True by done.
    by rewrite Hs.
Qed.

Lemma performContextSwitch_replaces_or_keeps_witness :
  (performContextSwitch "s1" (tenant "a") (shared_session (tenant "a"))).2
    = shared_session (tenant "a") ∧
  stored_context "s1"
    (performContextSwitch "s1" (tenant "b") (shared_session (tenant "a"))).2
    = Some (tenant "b") ∧
  handler_context "s1"
    (performContextSwitch "s1" (tenant "b") (shared_session (tenant "a"))).2
    = Some (tenant "b").
Proof.
  split.
  - apply (performContextSwitch_replaces_or_keeps "s1" (tenant "a")
             (shared_session (tenant "a"))).
    reflexivity.
  - assert (stored_context "s1" (shared_session (tenant "a")) ≠ Some (tenant "b"))
      as Hne by (vm_compute; discriminate).
    pose proof (proj2 (proj2 (performContextSwitch_replaces_or_keeps "s1"
      (tenant "b") (shared_session (tenant "a")))) Hne) as (H1 & H2 & _).
    split; [exact H1|]. apply H2. vm_compute. by eexists.
Defined.

(** C10, a switch that finds a switch in flight.  When the lock of the
    session is taken, [switchSessionContext] goes to [await existingLock]
    with the state untouched, and resuming from there returns with the state
    it is resumed in untouched: the requested context is written neither to
    [sessionContexts] nor to the handler.  Run without interleaving, the
    whole call leaves the state as it was. *)
Theorem switchSessionContext_in_flight_discards (sessionId : string)
    (newContext : InstanceContext) (this : HttpServer) :
  sessionId ∈ contextSwitchLocks this →
  switchSessionContext_begin sessionId newContext this
    = (Returned AwaitExistingLock, this) ∧
  (∀ later, switchSessionContext_resume sessionId AwaitExistingLock later
            = (Returned tt, later)) ∧
  switchSessionContext sessionId newContext this = (Returned tt, this).
Proof.
  intros Hlock.
  assert (switchSessionContext_begin sessionId newContext this
          = (Returned AwaitExistingLock, this)) as Hbegin.
  { unfold switchSessionContext_begin, bind, gets. simpl.
    by rewrite bool_decide_eq_true_2. }
  split; [done|]. split; [done|].
  unfold switchSessionContext, bind. by rewrite Hbegin.
Qed.

Lemma switchSessionContext_in_flight_discards_witness :
  "s1" ∈ contextSwitchLocks switch_in_flight ∧
  switchSessionContext "s1" (tenant "b") switch_in_flight
    = (Returned tt, switch_in_flight) ∧
  stored_context "s1" switch_in_flight = Some (tenant "a").
Proof.
  assert ("s1" ∈ contextSwitchLocks switch_in_flight) as Hlock.
  { unfold switch_in_flight. simpl. apply elem_of_union. left.
    by apply elem_of_singleton. }
  split; [exact Hlock|]. split.
  - exact (proj2 (proj2 (switchSessionContext_in_flight_discards "s1"
                           (tenant "b") switch_in_flight Hlock))).
  - reflexivity.
Defined.

(** ** Concurrent context switches *)

Lemma switchSessionContext_begin_locked sessionId newContext this :
  sessionId ∈ contextSwitchLocks this →
  switchSessionContext_begin sessionId newContext this
  = (Returned AwaitExistingLock, this).
Proof.
  intros Hlock. unfold switchSessionContext_begin, bind, gets. simpl.
  by rewrite bool_decide_eq_true_2.
Qed.

Lemma switchSessionContext_begin_free sessionId newContext this :
  sessionId ∉ contextSwitchLocks this →
  switchSessionContext_begin sessionId newContext this
  = (Returned AwaitSwitchPromise,
     with_contextSwitchLocks (λ locks, {[sessionId]} ∪ locks)
       (performContextSwitch sessionId newContext this).2).
Proof.
  intros Hlock. unfold switchSessionContext_begin, bind, gets. simpl.
  rewrite bool_decide_eq_false_2 by done.
  by rewrite performContextSwitch_unfold.
Qed.

Lemma performContextSwitch_coherent sessionId newContext this :
  coherent sessionId this →
  let this' := (performContextSwitch sessionId newContext this).2 in
  coherent sessionId this' ∧
  stored_context sessionId this' = Some newContext ∧
  contextSwitchLocks this' = contextSwitchLocks this.
Proof.
  intros [[srv Hsrv] Hco]. rewrite performContextSwitch_unfold. simpl.
  case_bool_decide as Hne.
  - unfold coherent, stored_context, handler_context, switched. simpl.
    rewrite lookup_insert_eq, lookup_alter, decide_True, Hsrv by done.
    simpl. repeat split; by eauto.
  - unfold coherent. repeat split; by eauto.
Qed.

(** What one stretch of a call does to a coherent session. *)
Lemma advance_spec sessionId call this :
  coherent sessionId this →
  ∃ call' this',
    advance sessionId call this = (Returned call', this') ∧
    coherent sessionId this' ∧
    match call with
    | NotStarted newContext =>
        ((sessionId ∈ contextSwitchLocks this ∧
          call' = Suspended AwaitExistingLock ∧ this' = this) ∨
         ((sessionId ∉ contextSwitchLocks this) ∧
          call' = Suspended AwaitSwitchPromise ∧
          stored_context sessionId this' = Some newContext ∧
          contextSwitchLocks this' = {[sessionId]} ∪ contextSwitchLocks this))
    | Suspended AwaitExistingLock => call' = Completed ∧ this' = this
    | Suspended AwaitSwitchPromise =>
        call' = Completed ∧
        stored_context sessionId this' = stored_context sessionId this ∧
        contextSwitchLocks this' = contextSwitchLocks this ∖ {[sessionId]}
    | Completed => call' = Completed ∧ this' = this
    end.
Proof.
  intros Hco. destruct call as [newContext|[]|]; simpl.
  - unfold bind. destruct (decide (sessionId ∈ contextSwitchLocks this)) as [Hl|Hl].
    + rewrite switchSessionContext_begin_locked by done.
      eexists _, _. split; [done|]. split; [done|]. by left.
    + rewrite switchSessionContext_begin_free by done.
      destruct (performContextSwitch_coherent sessionId newContext this Hco)
        as (Hco' & Hst & Hlk).
      eexists _, _. split; [done|]. split; [exact Hco'|]. right.
      split; [done|]. split; [done|]. split; [exact Hst|].
      simpl. by rewrite Hlk.
  - eexists _, _. split; [done|]. done.
  - eexists _, _. split; [done|]. done.
  - eexists _, _. split; [done|]. done.
Qed.

Lemma switch_inv_sym sessionId A B stored0 x y this :
  switch_inv sessionId A B stored0 x y this →
  switch_inv sessionId B A stored0 y x this.
Proof. unfold switch_inv. intuition. Qed.

Lemma switch_inv_advance sessionId A B stored0 x y this :
  switch_inv sessionId A B stored0 x y this →
  ∃ x' this',
    advance sessionId x this = (Returned x', this') ∧
    switch_inv sessionId A B stored0 x' y this'.
Proof.
  intros (Hco & Hx & Hy & Hlock & Hone & Hst).
  destruct (advance_spec sessionId x this Hco) as (x' & this' & Hadv & Hco' & Hcase).
  exists x', this'. split; [exact Hadv|].
  unfold switch_inv, holds_lock, carries, not_started in *.
  split; [exact Hco'|]. clear Hadv Hco Hco'.
  destruct x as [a|[]|].
  - destruct Hcase as [(Hl & -> & ->)|(Hl & -> & Hs & Hlk)].
    + firstorder congruence.
    + rewrite (Hx a eq_refl) in Hs.
      assert (sessionId ∈ contextSwitchLocks this') as Hin.
      { rewrite Hlk. apply elem_of_union. left. by apply elem_of_singleton. }
      clear Hlk. firstorder congruence.
  - destruct Hcase as [-> ->]. firstorder congruence.
  - destruct Hcase as (-> & Hs & Hlk). rewrite Hs.
    assert (sessionId ∉ contextSwitchLocks this') as Hin.
    { rewrite Hlk. intros [_ Hn]%elem_of_difference. apply Hn.
      by apply elem_of_singleton. }
    clear Hlk Hs. firstorder congruence.
  - destruct Hcase as [-> ->]. firstorder congruence.
Qed.

Lemma turn_inv sessionId A B stored0 which c :
  switch_inv sessionId A B stored0 (first_call c) (second_call c) (server_state c) →
  let c' := turn sessionId which c in
  switch_inv sessionId A B stored0 (first_call c') (second_call c') (server_state c').
Proof.
  intros Hinv. unfold turn. destruct which.
  - destruct (switch_inv_advance _ _ _ _ _ _ _ Hinv) as (x' & this' & -> & Hinv').
    exact Hinv'.
  - apply switch_inv_sym in Hinv.
    destruct (switch_inv_advance _ _ _ _ _ _ _ Hinv) as (y' & this' & -> & Hinv').
    apply switch_inv_sym. exact Hinv'.
Qed.

Lemma interleave_inv sessionId A B stored0 schedule : ∀ c,
  switch_inv sessionId A B stored0 (first_call c) (second_call c) (server_state c) →
  let c' := interleave sessionId schedule c in
  switch_inv sessionId A B stored0 (first_call c') (second_call c') (server_state c').
Proof.
  induction schedule as [|which schedule IH]; intros c Hinv; simpl.
  - exact Hinv.
  - apply IH. by apply turn_inv.
Qed.








(** ** Session identifiers *)

Section Uniqueness.

Variable sha256_hex : string → string.

Local Abbreviation handleRequest := (handleRequest sha256_hex).
Local Abbreviation sessionIdToUse := (sessionIdToUse sha256_hex).
Local Abbreviation instanceSessionId := (instanceSessionId sha256_hex).
Local Abbreviation run := (run sha256_hex).

Lemma keyed_ids (l : list (string * Transport)) :
  Forall (λ kt, transport_sessionId kt.2 = kt.1) l →
  transport_sessionId <$> l.*2 = l.*1.
Proof.
  induction 1 as [|[k t] l Hkt _ IH]; [done|].
  simpl in Hkt. rewrite !fmap_cons. simpl. by rewrite Hkt, IH.
Qed.

Lemma keyed_by_id_ids (m : gmap string Transport) :
  keyed_by_id m →
  transport_sessionId <$> (map_to_list m).*2 = Object_keys m.
Proof.
  intros Hk. apply keyed_ids, Forall_forall. intros [k t] Hin.
  apply elem_of_map_to_list in Hin. simpl. by apply Hk.
Qed.

(** Two composite ids made for the same instance context agree only when
    their random parts agree. *)
Lemma instanceSessionId_inj context uuid1 uuid2 :
  instanceSessionId context uuid1 = instanceSessionId context uuid2 →
  uuid1 = uuid2.
Proof.
  unfold instanceSessionId. intros H.
  by repeat apply (inj (String.append _)) in H.
Qed.

Lemma sessionIdToUse_per_instance penv io sessionId context :
  per_instance penv → truthy (instanceId context) = true →
  sessionIdToUse penv io sessionId (Some context)
  = instanceSessionId context (uuidv4 io).
Proof.
  intros [He Hs] Ht. unfold sessionIdToUse.
  by rewrite He, Hs, Ht, !bool_decide_eq_true_2.
Qed.

(** X20.  Two creates for the same instance context, with different random
    parts, both accepted below the ceiling: the two sessions are in the
    registry side by side. *)
Lemma instance_creates_coexist penv io1 io2 req context this :
  per_instance penv → truthy (instanceId context) = true →
  isInitializeRequest req = true →
  transport_initializes io1 = true → transport_initializes io2 = true →
  uuidv4 io1 ≠ uuidv4 io2 →
  (S (getActiveSessionCount this) < MAX_SESSIONS)%nat →
  let sid1 := instanceSessionId context (uuidv4 io1) in
  let sid2 := instanceSessionId context (uuidv4 io2) in
  let this' := run penv [Post io1 req (Some context); Post io2 req (Some context)]
                 this in
  sid1 ≠ sid2 ∧
  is_Some (transports this' !! sid1) ∧ is_Some (transports this' !! sid2).
Proof.
  intros Hp Ht Hi H1 H2 Hu Hn. simpl.
  assert (instanceSessionId context (uuidv4 io1)
          ≠ instanceSessionId context (uuidv4 io2)) as Hne.
  { intros H. by apply instanceSessionId_inj in H. }
  split; [exact Hne|].
  pose proof (sessionIdToUse_per_instance penv io1 (mcp_session_id req)
                context Hp Ht) as E1.
  pose proof (sessionIdToUse_per_instance penv io2 (mcp_session_id req)
                context Hp Ht) as E2.
  unfold exec, handle. simpl. unfold bind.
  rewrite (handleRequest_create sha256_hex penv io1 req (Some context) this);
    try done.
  2:{ unfold canCreateSession. apply bool_decide_eq_true. lia. }
  rewrite E1. cbn [fst snd ret].
  rewrite handleRequest_create; try done.
  2:{ unfold canCreateSession. apply bool_decide_eq_true.
      rewrite getActiveSessionCount_size in *. simpl.
      rewrite map_size_insert. destruct (transports this !! _); simpl; lia. }
  rewrite E2. cbn [fst snd ret]. unfold with_session. simpl.
  split.
  - rewrite lookup_insert_ne by done. rewrite lookup_insert_eq. by eexists.
  - rewrite lookup_insert_eq. by eexists.
Qed.

(** The ids under which sessions are registered are pairwise distinct, and
    every transport is registered under the id it carries. *)
Lemma registered_ids_are_keys penv (events : list Event) :
  let this := run penv events initial in
  NoDup (Object_keys (transports this)) ∧
  NoDup (transport_sessionId <$> (map_to_list (transports this)).*2) ∧
  (∀ sid1 sid2 t1 t2,
     transports this !! sid1 = Some t1 → transports this !! sid2 = Some t2 →
     sid1 ≠ sid2 → transport_sessionId t1 ≠ transport_sessionId t2).
Proof.
  simpl.
  assert (keyed_by_id (transports (run penv events initial))) as Hk.
  { apply run_keyed. intros k t Hkt.
    change (transports initial) with (∅ : gmap string Transport) in Hkt.
    by rewrite lookup_empty in Hkt. }
  split; [apply NoDup_fst_map_to_list|]. split.
  - rewrite keyed_by_id_ids by done. apply NoDup_fst_map_to_list.
  - intros sid1 sid2 t1 t2 H1 H2 Hne.
    by rewrite (Hk _ _ H1), (Hk _ _ H2).
Qed.





End Uniqueness.

(** ** Concrete runs *)

Lemma capacity_invariant_witness :
  getActiveSessionCount full = MAX_SESSIONS ∧
  ∃ this',
    handleRequest constant_digest single_tenant (mkAmbient 1 "one-more" true false false)
      (mkRequest None true) None full
    = (Returned (JsonRpcError 429 (-32000) limit_message), this') ∧
    registry this' = registry full ∧
    contextSwitchLocks this' = contextSwitchLocks full ∧
    getActiveSessionCount this' = MAX_SESSIONS.
Proof.
  assert (getActiveSessionCount full = MAX_SESSIONS) as Hfull
    by (vm_compute; reflexivity).
  split; [exact Hfull|].
  exact (proj2 (capacity_invariant constant_digest single_tenant [])
           full (mkAmbient 1 "one-more" true false false) (mkRequest None true) None
           eq_refl Hfull).
Defined.

Lemma continuation_unknown_session_rejected_witness :
  ∃ message this',
    handleRequest constant_digest single_tenant (mkAmbient 5 "u" true false false)
      (mkRequest (Some "does-not-exist") false) None (one_session false)
    = (Returned (JsonRpcError 400 (-32000) message), this') ∧
    registry this' = registry (one_session false) ∧
    contextSwitchLocks this' = contextSwitchLocks (one_session false) ∧
    getActiveSessionCount this' = getActiveSessionCount (one_session false).
Proof.
  apply (continuation_unknown_session_rejected constant_digest single_tenant
           (mkAmbient 5 "u" true false false) (mkRequest (Some "does-not-exist") false)
           None (one_session false) "does-not-exist").
  - reflexivity.
  - reflexivity.
  - vm_compute. reflexivity.
  - vm_compute. reflexivity.
Defined.

(** A single-tenant create under a caller-chosen id that is registered
    already takes the place of the registered session: the registry still
    holds that id once. *)
Lemma create_with_registered_id_replaces :
  let chosen := Post (mkAmbient 0 "u" true false false)
                  (mkRequest (Some "chosen") true) None in
  Object_keys (transports (run constant_digest single_tenant [chosen; chosen] initial))
  = ["chosen"].
Proof. vm_compute. reflexivity. Qed.



Lemma caller_chosen_id_is_not_new_values :
  let chosen := mkRequest (Some "chosen") true in
  let this := run constant_digest single_tenant
                [Post (mkAmbient 0 "u1" true false false) chosen None] initial in
  let result := handleRequest constant_digest single_tenant
                  (mkAmbient 1 "u2" true false false) chosen None this in
  result.1 = Returned (TransportHandled (Some "chosen")) ∧
  Object_keys (transports this) = ["chosen"] ∧
  Object_keys (transports result.2) = ["chosen"] ∧
  sessionMetadata this !! "chosen" = Some (mkSessionMeta 0 0) ∧
  sessionMetadata result.2 !! "chosen" = Some (mkSessionMeta 1 1) ∧
  TransportClose "chosen" ∉ effects result.2.
Proof.
  vm_compute. split_and!; try reflexivity.
  intros H. apply list_elem_of_In in H. simpl in H.
  destruct H as [H|[H|[]]]; discriminate H.
Qed.

(** C1, initialize requests that overlap.  With 99 sessions registered,
    two initialize requests arrive.  Each passes the test of the session
    limit before the other has registered its session: the first runs up to
    [await server.connect(transport)], then the second does, then each is
    handled by its new transport.  Both are accepted, neither is answered
    429, and the registry holds 101 sessions, one more than
    [MAX_SESSIONS]. *)
Theorem overlapping_creates_exceed_capacity :
  let this := run constant_digest single_tenant (creates 99) initial in
  let init := mkRequest None true in
  let arrived := [Arrived (mkAmbient 1 "one-more" true false false) init None;
                  Arrived (mkAmbient 1 "and-another" true false false) init None] in
  let c := overlap constant_digest single_tenant [0; 1; 0; 1]%nat
             (mkOverlapping arrived this) in
  getActiveSessionCount this = 99%nat ∧
  calls c = [Responded (TransportHandled (Some "one-more"));
             Responded (TransportHandled (Some "and-another"))] ∧
  getActiveSessionCount (state_of_server c) = 101%nat ∧
  (MAX_SESSIONS < getActiveSessionCount (state_of_server c))%nat.
Proof. vm_compute. split_and!; reflexivity. Qed.

(** C3, a request that names a property of [Object.prototype].  In shared
    multi-tenant mode, with nothing registered, a request that does not
    initialize a session names the session id [constructor] and carries an
    instance context.  The test [this.transports[sessionId]] finds the
    function that every object inherits under that name, and the request
    is handled as one on a registered session: the context is stored under
    [constructor] in [sessionContexts], the call of [handleRequest] on the
    inherited value throws, and the request is answered with status 500,
    not with a client error. *)
Theorem continuation_under_inherited_name_is_not_rejected :
  let req := mkRequest (Some "constructor") false in
  let result := handleRequest constant_digest shared_env at_seven req
                  (Some (tenant "a")) initial in
  transports initial !! "constructor" = None ∧
  result.1 = Returned (JsonRpcError 500 (-32603)
                         "transport.handleRequest is not a function") ∧
  sessionContexts initial !! "constructor" = None ∧
  sessionContexts result.2 !! "constructor" = Some (Some (tenant "a")) ∧
  registry result.2 ≠ registry initial.
Proof.
  vm_compute. split_and!; try reflexivity. discriminate.
Qed.

(** ** The sweeper and the metrics *)

(** C8, idle expiry.  At a time at which the session ["s1"] has been idle
    for longer than the timeout, one sweep of a registry in which the
    transport of ["s1"] rejects [close()] starts [removeSession] for it with
    the reason ["expired"], logs the sessions as cleaned up, and, once the
    removal has settled, has the expired session in every map of the
    registry still. *)
Theorem cleanupExpiredSessions_close_failure_keeps_expired :
  let now := sessionTimeout + 1 in
  let this' := (sweep now (one_session true)).2 in
  sessionMetadata (one_session true) !! "s1" = Some (mkSessionMeta 0 0) ∧
  expired now (mkSessionMeta 0 0) = true ∧
  registry this' = registry (one_session true) ∧
  effects this'
  = [TransportClose "s1";
     LoggerInfo "Cleaned up expired sessions" [];
     LoggerWarn "Error removing session"
       [("sessionId", "s1"); ("reason", "expired");
        ("error", "transport close failed")]].
Proof.
  assert ((sweep (sessionTimeout + 1) (one_session true)).2
          = mkHttpServer (transports (one_session true))
              (servers (one_session true))
              (sessionMetadata (one_session true))
              (sessionContexts (one_session true)) ∅
              [TransportClose "s1";
               LoggerInfo "Cleaned up expired sessions" [];
               LoggerWarn "Error removing session"
                 [("sessionId", "s1"); ("reason", "expired");
                  ("error", "transport close failed")]]) as E
    by (vm_compute; reflexivity).
  cbv zeta. rewrite E. simpl. split; [reflexivity|]. split; [by vm_compute|].
  split; reflexivity.
Qed.

(** When [cleanupExpiredSessions()] returns, the removal of an expired
    session that has a transport is suspended at its [await]: the session
    is in the registry still, also when its [close()] is going to resolve.
    It is gone once the removal has settled. *)
Lemma cleanupExpiredSessions_returns_before_removal :
  let now := sessionTimeout + 1 in
  let at_return := cleanupExpiredSessions now (one_session false) in
  at_return.1 = Returned [("s1", mkTransport "s1" false)] ∧
  registry at_return.2 = registry (one_session false) ∧
  session_gone "s1" (sweep now (one_session false)).2.
Proof. vm_compute. repeat split. Qed.

(** Counting in a loop is taking the length of the filtered list. *)
Lemma count_expired now (l : list (string * SessionMeta)) :
  foldr (λ kv count, if expired now kv.2 then S count else count) 0%nat l
  = length (filter (λ kv, expired now kv.2 = true) l).
Proof.
  induction l as [|kv l IH]; [done|]. simpl. rewrite IH.
  rewrite filter_cons. destruct (expired now kv.2) eqn:He.
  - by rewrite decide_True.
  - by rewrite decide_False.
Qed.

Lemma size_filter_map_to_list (P : string * SessionMeta → Prop)
    `{!∀ kv, Decision (P kv)} (m : gmap string SessionMeta) :
  size (filter P m) = length (filter P (map_to_list m)).
Proof.
  rewrite <-length_map_to_list, map_filter_alt.
  apply Permutation_length, map_to_list_to_map.
  eapply sublist_NoDup; [apply (NoDup_fst_map_to_list m)|].
  apply fmap_sublist, sublist_filter.
Qed.

(** C9, session metrics, as the code computes them.  [totalSessions] is the
    number of sessions that have a metadata entry now, [activeSessions] the
    number of transports now, [expiredSessions] the number of metadata
    entries idle for longer than the timeout at the time of the call, and
    [lastCleanup] the time of the call. *)
Theorem getSessionMetrics_reports_current_state (now : Z) (this : HttpServer) :
  getSessionMetrics now this
  = mkSessionMetrics
      (size (sessionMetadata this))
      (size (transports this))
      (size (filter (λ kv, expired now kv.2 = true) (sessionMetadata this)))
      now.
Proof.
  unfold getSessionMetrics. rewrite getActiveSessionCount_size.
  unfold Object_keys. rewrite length_fmap, length_map_to_list.
  by rewrite count_expired, size_filter_map_to_list.
Qed.

(** Against C9 as it is stated: after [metrics_run], [totalSessions] is not
    the number of sessions ever created, and [lastCleanup] is not the time
    of the last sweep. *)
Lemma getSessionMetrics_not_cumulative :
  let this := run constant_digest single_tenant metrics_run initial in
  let metrics := getSessionMetrics 20 this in
  ¬ (totalSessions metrics
       = sessions_created constant_digest single_tenant metrics_run initial ∧
     Some (lastCleanup metrics) = last_sweep metrics_run).
Proof. vm_compute. intros [H _]. discriminate H. Qed.

Lemma getSessionMetrics_not_cumulative_values :
  let this := run constant_digest single_tenant metrics_run initial in
  let metrics := getSessionMetrics 20 this in
  totalSessions metrics = 1%nat ∧
  sessions_created constant_digest single_tenant metrics_run initial = 2%nat ∧
  lastCleanup metrics = 20 ∧ last_sweep metrics_run = Some 10.
Proof. vm_compute. repeat split. Qed.

(** *** The sweep when no close rejects *)

Lemma bind_returned {A B} (c : M A) (k : A → M B) this a this1 :
  c this = (Returned a, this1) → bind c k this = k a this1.
Proof. intros H. unfold bind. by rewrite H. Qed.

Lemma for_of_returns {A} (xs : list A) body :
  (∀ x this, (body x this).1 = Returned tt) →
  ∀ this, (for_of xs body this).1 = Returned tt.
Proof.
  intros Hb. induction xs as [|x xs IH]; intros this; simpl; [done|].
  unfold bind. specialize (Hb x this).
  destruct (body x this) as [[[]|e] this1]; simpl in *; [apply IH|done].
Qed.

Lemma cleanOrphanedContext_unfold sid this :
  cleanOrphanedContext sid this
  = (Returned tt,
     match read (sessionMetadata this) sid with
     | Undefined =>
         with_effect (LoggerDebug "Cleaned orphaned session context"
                        [("sessionId", sid)])
           (with_sessionContexts (delete sid) this)
     | _ => this
     end).
Proof.
  unfold cleanOrphanedContext, bind, gets. simpl.
  by destruct (read (sessionMetadata this) sid).
Qed.

Lemma read_Undefined {V} (obj : gmap string V) key :
  read obj key = Undefined → obj !! key = None ∧ inherited key = false.
Proof.
  unfold read. destruct (obj !! key); [done|].
  by destruct (inherited key).
Qed.

Lemma cleanOrphanedContext_returns sid this :
  (cleanOrphanedContext sid this).1 = Returned tt.
Proof. by rewrite cleanOrphanedContext_unfold. Qed.

Lemma cleanOrphanedContext_orphans_only this0 sid :
  preserves (orphans_only this0) (cleanOrphanedContext sid).
Proof.
  intros this (Ht & Hs & Hm & Hc). rewrite cleanOrphanedContext_unfold. simpl.
  destruct (read (sessionMetadata this) sid) eqn:Hmd; simpl; [done|done|].
  apply read_Undefined in Hmd as [Hmd _].
  split; [done|]. split; [done|]. split; [done|].
  intros sid' Hsome. rewrite <-Hc by done.
  apply lookup_delete_ne. intros ->. rewrite Hm in Hmd.
  rewrite Hmd in Hsome. by destruct Hsome.
Qed.

Lemma closes_ok_without sid this :
  closes_ok this → closes_ok (without_session sid this).
Proof.
  intros Hok sid' t Ht. simpl in Ht.
  apply (Hok sid' t). by eapply lookup_delete_Some.
Qed.

Lemma removeSession_closes_ok sid reason this :
  closes_ok this → closes_ok (removeSession sid reason this).2.
Proof.
  intros Hok. rewrite removeSession_unfold.
  destruct (transports this !! sid) as [t|] eqn:Ht.
  - rewrite (Hok sid t Ht). simpl. by apply (closes_ok_without sid) in Hok.
  - simpl. by apply (closes_ok_without sid) in Hok.
Qed.

Lemma session_gone_registry sid this this' :
  registry this' = registry this → session_gone sid this → session_gone sid this'.
Proof. unfold registry, session_gone. intros [= -> -> -> ->]. done. Qed.

Lemma same_session_registry sid this this' :
  registry this' = registry this → same_session sid this this'.
Proof. unfold registry, same_session. intros [= -> -> -> ->]. done. Qed.

Lemma same_session_gone sid this this' :
  same_session sid this this' → session_gone sid this → session_gone sid this'.
Proof.
  unfold same_session, session_gone.
  intros (-> & -> & -> & ->). done.
Qed.

Lemma same_session_trans sid this1 this2 this3 :
  same_session sid this1 this2 → same_session sid this2 this3 →
  same_session sid this1 this3.
Proof.
  unfold same_session. intros (<- & <- & <- & <-) (<- & <- & <- & <-). done.
Qed.

Lemma without_session_other sid sid' this :
  sid ≠ sid' → same_session sid' this (without_session sid this).
Proof.
  intros Hne. unfold same_session. simpl.
  by rewrite !lookup_delete_ne.
Qed.

(** Removing the sessions of a list, none of whose closes rejects: the
    listed sessions are gone and the others are as before. *)
Lemma for_of_removeSession reason (l : list string) : ∀ this,
  closes_ok this →
  let this' := (for_of l (λ sid, removeSession sid reason) this).2 in
  ∀ sid, (sid ∈ l → session_gone sid this') ∧
         (sid ∉ l → same_session sid this this').
Proof.
  induction l as [|x l IH]; intros this Hok; simpl.
  - intros sid. split; [by intros ?%elem_of_nil|done].
  - unfold bind.
    pose proof (removeSession_returns x reason this) as Hret.
    pose proof (removeSession_registry x reason this (Hok x)) as Hreg.
    pose proof (removeSession_closes_ok x reason this Hok) as Hok1.
    destruct (removeSession x reason this) as [o this1]. simpl in *. subst o.
    intros sid. destruct (IH this1 Hok1 sid) as [Hin Hout].
    split.
    + intros [->|Hl]%elem_of_cons; [|by apply Hin].
      destruct (decide (x ∈ l)) as [Hl|Hl]; [by apply Hin|].
      eapply same_session_gone; [by apply Hout|].
      eapply session_gone_registry; [exact Hreg|]. apply without_session_gone.
    + intros [Hne Hl]%not_elem_of_cons.
      eapply same_session_trans; [|by apply Hout].
      eapply same_session_trans;
        [by apply (without_session_other x sid this)|].
      apply same_session_registry. by rewrite Hreg.
Qed.

(** Shutdown of a registry none of whose closes rejects leaves no session
    behind. *)
Lemma shutdown_drains this :
  closes_ok this →
  ∀ sid, is_Some (transports this !! sid) → session_gone sid (shutdown this).2.
Proof.
  intros Hok sid [t Ht]. unfold shutdown, bind, gets. simpl.
  assert (∀ l this0,
            for_of l (λ sessionId,
              try_catch (removeSession sessionId "server_shutdown")
                (λ error,
                   logger_warn "Error closing transport for session"
                     [("sessionId", sessionId); ("error", error)])) this0
            = for_of l (λ sessionId, removeSession sessionId "server_shutdown")
                this0) as Heq.
  { induction l as [|x l IH]; intros this0; simpl; [done|].
    unfold bind, try_catch.
    pose proof (removeSession_returns x "server_shutdown" this0) as Hret.
    destruct (removeSession x "server_shutdown" this0) as [o this1].
    simpl in Hret. subst o. apply IH. }
  rewrite Heq. apply for_of_removeSession; [done|].
  unfold Object_keys. apply list_elem_of_fmap. exists (sid, t).
  split; [done|]. by apply elem_of_map_to_list.
Qed.

Lemma removeSession_begin_unfold sessionId reason this :
  removeSession_begin sessionId reason this =
    match transports this !! sessionId with
    | Some t => (Returned (Some t), with_effect (TransportClose sessionId) this)
    | None =>
        (Returned None,
         with_effect
           (LoggerInfo "Session removed"
              [("sessionId", sessionId); ("reason", reason)])
           (without_session sessionId this))
    end.
Proof.
  unfold removeSession_begin, try_catch, bind, gets. simpl.
  destruct (transports this !! sessionId) as [t|] eqn:Ht; simpl; [done|].
  unfold without_session. rewrite (delete_id _ _ Ht). reflexivity.
Qed.

Lemma removeSession_resume_unfold sessionId reason t this :
  removeSession_resume sessionId reason t this =
    if close_rejects t then
      (Returned tt,
       with_effect
         (LoggerWarn "Error removing session"
            [("sessionId", sessionId); ("reason", reason);
             ("error", "transport close failed")])
         this)
    else
      (Returned tt,
       with_effect
         (LoggerInfo "Session removed"
            [("sessionId", sessionId); ("reason", reason)])
         (without_session sessionId this)).
Proof.
  unfold removeSession_resume, try_catch, bind. by destruct (close_rejects t).
Qed.

(** A removal that is started and then resumed with nothing in between is
    a removal that is waited for. *)
Lemma removeSession_split sessionId reason this :
  removeSession sessionId reason this
  = bind (removeSession_begin sessionId reason)
      (λ p, match p with
            | Some t => removeSession_resume sessionId reason t
            | None => ret tt
            end) this.
Proof.
  unfold bind at 1. rewrite removeSession_unfold, removeSession_begin_unfold.
  destruct (transports this !! sessionId) as [t|]; [|done].
  rewrite removeSession_resume_unfold. by destruct (close_rejects t).
Qed.

Lemma session_gone_without_other sid sid' this :
  session_gone sid this → session_gone sid (without_session sid' this).
Proof.
  unfold session_gone. simpl. rewrite !lookup_delete_None. tauto.
Qed.

Lemma same_session_refl sid this : same_session sid this this.
Proof. by unfold same_session. Qed.

(** Starting the removals of the sessions of a list: the transports map is
    as before, every listed session is gone or its removal is suspended at
    the close of its transport, and the other sessions are as before. *)
Lemma start_removals_spec reason (l : list string) : ∀ this,
  ∃ pending this',
    start_removals reason l this = (Returned pending, this') ∧
    transports this' = transports this ∧
    (∀ sid t, (sid, t) ∈ pending → sid ∈ l ∧ transports this !! sid = Some t) ∧
    (∀ sid, sid ∈ l → session_gone sid this' ∨ ∃ t, (sid, t) ∈ pending) ∧
    (∀ sid, sid ∉ l → same_session sid this this').
Proof.
  induction l as [|x l IH]; intros this; simpl.
  - exists [], this. split; [done|]. split; [done|]. split; [|split].
    + by intros sid t ?%elem_of_nil.
    + by intros sid ?%elem_of_nil.
    + intros sid _. apply same_session_refl.
  - unfold bind at 1. rewrite removeSession_begin_unfold.
    destruct (transports this !! x) as [tx|] eqn:Hx.
    + destruct (IH (with_effect (TransportClose x) this))
        as (pending & this' & Hs & Ht & Hp & Hl & Ho).
      exists ((x, tx) :: pending), this'.
      split; [by rewrite (bind_returned _ _ _ _ _ Hs)|]. split; [done|].
      split; [|split].
      * intros sid t [[= -> ->]|Hin]%elem_of_cons.
        -- split; [apply elem_of_cons; by left|done].
        -- destruct (Hp sid t Hin) as [? ?]. split; [apply elem_of_cons; by right|done].
      * intros sid [->|Hin]%elem_of_cons.
        -- right. exists tx. apply elem_of_cons. by left.
        -- destruct (Hl sid Hin) as [?|[t ?]]; [by left|].
           right. exists t. apply elem_of_cons. by right.
      * intros sid [_ Hn]%not_elem_of_cons. by apply Ho.
    + set (this1 := with_effect _ (without_session x this)).
      destruct (IH this1) as (pending & this' & Hs & Ht & Hp & Hl & Ho).
      assert (transports this1 = transports this) as Ht1.
      { unfold this1. simpl. by apply delete_id. }
      exists pending, this'.
      split; [by rewrite (bind_returned _ _ _ _ _ Hs)|]. split; [by rewrite Ht|].
      split; [|split].
      * intros sid t Hin. destruct (Hp sid t Hin) as [? Hlk].
        split; [apply elem_of_cons; by right|]. by rewrite <-Ht1.
      * intros sid [->|Hin]%elem_of_cons; [|by apply Hl].
        destruct (decide (x ∈ l)) as [Hxl|Hxl]; [by apply Hl|].
        left. eapply same_session_gone; [by apply Ho|].
        apply without_session_gone.
      * intros sid [Hne Hn]%not_elem_of_cons.
        eapply same_session_trans; [|by apply Ho].
        by apply (without_session_other x sid this).
Qed.

(** Settling suspended removals none of whose closes rejects: their
    sessions are gone, what was gone stays gone, and the other sessions are
    as before. *)
Lemma settle_removals_spec reason (pending : list (string * Transport)) :
  ∀ this,
    (∀ sid t, (sid, t) ∈ pending → close_rejects t = false) →
    let this' := (settle_removals reason pending this).2 in
    (∀ sid t, (sid, t) ∈ pending → session_gone sid this') ∧
    (∀ sid, session_gone sid this → session_gone sid this') ∧
    (∀ sid, sid ∉ pending.*1 → same_session sid this this').
Proof.
  unfold settle_removals.
  induction pending as [|[x tx] pending IH]; intros this Hok; simpl.
  - split; [by intros sid t ?%elem_of_nil|]. split; [done|].
    intros sid _. apply same_session_refl.
  - unfold bind at 1 2 3. rewrite removeSession_resume_unfold.
    rewrite (Hok x tx) by (apply elem_of_cons; by left).
    set (this1 := with_effect _ (without_session x this)).
    destruct (IH this1) as (Hp & Hg & Ho).
    { intros sid t Hin. apply (Hok sid t). apply elem_of_cons. by right. }
    split; [|split].
    + intros sid t [[= -> ->]|Hin]%elem_of_cons; [|by eapply Hp].
      apply Hg, without_session_gone.
    + intros sid Hgone. by apply Hg, session_gone_without_other.
    + intros sid [Hne Hn]%not_elem_of_cons.
      eapply same_session_trans; [|by apply Ho].
      by apply (without_session_other x sid this).
Qed.

Lemma expired_ids now (m : gmap string SessionMeta) sid :
  sid ∈ (filter (λ kv, expired now kv.2) (map_to_list m)).*1 ↔
  ∃ md, m !! sid = Some md ∧ expired now md = true.
Proof.
  rewrite list_elem_of_fmap. split.
  - intros ([k md] & -> & [He Hin]%list_elem_of_filter).
    apply elem_of_map_to_list in Hin. exists md. split; [done|].
    simpl in He. by apply Is_true_true.
  - intros (md & Hm & He). exists (sid, md). split; [done|].
    apply list_elem_of_filter. split; [by apply Is_true_true|].
    by apply elem_of_map_to_list.
Qed.

(** One sweep of a registry none of whose closes rejects: once the removals
    have settled, every session with metadata that has been idle for longer
    than the timeout is gone from every map, and every other session with
    metadata is as it was. *)
Lemma sweep_removes_expired now this :
  closes_ok this →
  let this' := (sweep now this).2 in
  ∀ sid md, sessionMetadata this !! sid = Some md →
    if expired now md then session_gone sid this'
    else same_session sid this this'.
Proof.
  intros Hok.
  set (l := (filter (λ kv, expired now kv.2)
               (map_to_list (sessionMetadata this))).*1).
  set (orphans := for_of (Object_keys (sessionContexts this)) cleanOrphanedContext).
  assert ((orphans this).1 = Returned tt) as Hret1.
  { apply for_of_returns. intros x this0. apply cleanOrphanedContext_returns. }
  assert (orphans_only this (orphans this).2) as Horph.
  { apply (preserves_for_of (orphans_only this)).
    - intros x. apply cleanOrphanedContext_orphans_only.
    - by repeat split. }
  destruct (orphans this) as [o this1] eqn:Ho. simpl in Hret1, Horph. subst o.
  destruct Horph as (Ht1 & Hs1 & Hm1 & Hc1).
  destruct (start_removals_spec "expired" l this1)
    as (pending & this2 & Hstart & Ht2 & Hp & Hl & Hout).
  assert (∀ sid t, (sid, t) ∈ pending → close_rejects t = false) as Hokp.
  { intros sid t Hin. destruct (Hp sid t Hin) as [_ Hs].
    rewrite Ht1 in Hs. by apply (Hok sid t). }
  destruct (settle_removals_spec "expired" pending
              (if bool_decide (0 < length l)%nat
               then with_effect (LoggerInfo "Cleaned up expired sessions" []) this2
               else this2) Hokp) as (Hsp & Hsg & Hso).
  assert ((sweep now this).2
          = (settle_removals "expired" pending
               (if bool_decide (0 < length l)%nat
                then with_effect (LoggerInfo "Cleaned up expired sessions" []) this2
                else this2)).2) as Hsweep.
  { unfold sweep, cleanupExpiredSessions. unfold bind at 1 2 3. simpl.
    fold l. fold orphans. rewrite (bind_returned _ _ _ _ _ Ho).
    rewrite (bind_returned _ _ _ _ _ Hstart).
    unfold bind, when. by destruct (bool_decide (0 < length l)%nat). }
  intros this' sid md Hmd. subst this'. rewrite Hsweep.
  assert (same_session sid this this1) as Hsame1.
  { unfold same_session. rewrite Ht1, Hs1, Hm1, Hc1; [done|by eexists]. }
  assert (∀ this0, registry (if bool_decide (0 < length l)%nat
                             then with_effect
                                    (LoggerInfo "Cleaned up expired sessions" [])
                                    this0
                             else this0) = registry this0) as Hlog.
  { intros this0. by destruct (bool_decide (0 < length l)%nat). }
  destruct (expired now md) eqn:He.
  - assert (sid ∈ l) as Hin by (apply expired_ids; eauto).
    destruct (Hl sid Hin) as [Hgone|[t Ht]].
    + apply Hsg. eapply session_gone_registry; [apply Hlog|done].
    + by eapply Hsp.
  - assert (sid ∉ l) as Hnin.
    { intros (md' & Hmd' & He')%expired_ids. congruence. }
    eapply same_session_trans; [exact Hsame1|].
    eapply same_session_trans; [by apply Hout|].
    eapply same_session_trans; [apply same_session_registry, Hlog|].
    apply Hso. intros ([sid' t] & -> & Hin)%list_elem_of_fmap.
    destruct (Hp sid' t Hin) as [? _]. done.
Qed.

(** * Further properties of the registry *)

(** ** What the methods do, in one step *)

Lemma switchSessionContext_unfold sid ctx this :
  switchSessionContext sid ctx this
  = (Returned tt,
     if bool_decide (sid ∈ contextSwitchLocks this) then this
     else with_contextSwitchLocks (λ locks, locks ∖ {[sid]})
            (with_contextSwitchLocks (λ locks, {[sid]} ∪ locks)
               (performContextSwitch sid ctx this).2)).
Proof.
  unfold switchSessionContext. case_bool_decide as Hl.
  - erewrite bind_returned by (by apply switchSessionContext_begin_locked). done.
  - erewrite bind_returned by (by apply switchSessionContext_begin_free). done.
Qed.

Lemma updateSessionAccess_unfold now sid this :
  updateSessionAccess now sid this
  = (Returned tt,
     match sessionMetadata this !! sid with
     | Some md => with_sessionMetadata (<[sid := mkSessionMeta now (createdAt md)]>) this
     | None => this
     end).
Proof.
  unfold updateSessionAccess, bind, gets. simpl.
  by destruct (sessionMetadata this !! sid).
Qed.

Lemma deleteMcp_unfold mcpSessionId this :
  deleteMcp mcpSessionId this =
    match mcpSessionId with
    | Some (String c s) =>
        match read (transports this) (String c s) with
        | Undefined =>
            (Returned (JsonRpcError 404 (-32001) "Session not found"), this)
        | _ =>
            (Returned NoContent,
             (removeSession (String c s) "manual_termination" this).2)
        end
    | _ =>
        (Returned (JsonRpcError 400 (-32602) "Mcp-Session-Id header is required"),
         this)
    end.
Proof.
  unfold deleteMcp. destruct mcpSessionId as [[|c s]|]; [done| |done].
  simpl. unfold bind at 1. unfold gets. simpl.
  pose proof (removeSession_returns (String c s) "manual_termination" this) as Hret.
  destruct (read (transports this) (String c s)); [| |done];
    unfold try_catch, bind;
    destruct (removeSession (String c s) "manual_termination" this) as [o this1];
    simpl in Hret; by subst o.
Qed.

Lemma shutdown_unfold this :
  shutdown this
  = for_of (Object_keys (transports this))
      (λ sid, removeSession sid "server_shutdown") this.
Proof.
  unfold shutdown. unfold bind at 1. unfold gets. cbn [fst snd].
  generalize (Object_keys (transports this)). intros l. revert this.
  induction l as [|x l IH]; intros this0; cbn [for_of]; [done|].
  unfold bind, try_catch.
  pose proof (removeSession_returns x "server_shutdown" this0) as Hret.
  destruct (removeSession x "server_shutdown" this0) as [o this1].
  simpl in Hret. subst o. apply IH.
Qed.

Lemma onclose_unfold sid this :
  onclose sid this
  = (Returned tt,
     if truthy (Some sid)
     then (removeSession sid "transport_closed"
             (with_effect
                (LoggerInfo "handleRequest: Transport closed, cleaning up"
                   [("sessionId", sid)]) this)).2
     else this).
Proof.
  unfold onclose, when. destruct (truthy (Some sid)); [|done].
  unfold bind, logger_info, modify.
  pose proof (removeSession_returns sid "transport_closed"
    (with_effect (LoggerInfo "handleRequest: Transport closed, cleaning up"
                    [("sessionId", sid)]) this)) as Hret.
  destruct (removeSession _ _ _) as [o this1]. simpl in Hret. by subst o.
Qed.

Lemma onerror_unfold sid this :
  onerror sid this
  = (Returned tt,
     let this1 := with_effect (LoggerError "Transport error" [("sessionId", sid)])
                    this in
     if truthy (Some sid)
     then (removeSession sid "transport_error" this1).2
     else this1).
Proof.
  unfold onerror, when, bind, logger_error, modify. cbn [fst snd].
  destruct (truthy (Some sid)); [|done].
  pose proof (removeSession_returns sid "transport_error"
    (with_effect (LoggerError "Transport error" [("sessionId", sid)]) this)) as Hret.
  destruct (removeSession _ _ _) as [o this1]. simpl in Hret. by subst o.
Qed.

Section RouterSteps.

Variable sha256_hex : string → string.

Local Abbreviation handleRequest := (handleRequest sha256_hex).
Local Abbreviation handleRequest_begin := (handleRequest_begin sha256_hex).

(** A request that does not initialize a session and names an id under
    which [this.transports] shows something: the transport registered under
    the id, or a value inherited from [Object.prototype], which is not a
    transport. *)
Lemma handleRequest_reuse penv io req instanceContext this c s :
  isInitializeRequest req = false →
  mcp_session_id req = Some (String c s) →
  read (transports this) (String c s) ≠ Undefined →
  let this1 :=
    exec (updateSessionAccess (date_now io) (String c s))
      (exec (match instanceContext with
             | Some context =>
                 when (shared_mode penv) (switchSessionContext (String c s) context)
             | None => ret tt
             end) this) in
  handleRequest penv io req instanceContext this
  = match read (transports this) (String c s) with
    | Own t =>
        (Returned (TransportHandled (Some (transport_sessionId t))),
         exec (when (transport_errors io) (onerror (transport_sessionId t))) this1)
    | _ =>
        (Returned
           (JsonRpcError 500 (-32603)
              (message (sanitizeErrorForClient (NODE_ENV' penv)
                          (ErrorObject "TypeError"
                             "transport.handleRequest is not a function")))),
         with_effect
           (LoggerError "handleRequest: MCP request error:"
              [("error", "transport.handleRequest is not a function");
               ("errorName", "TypeError")])
           this1)
    end.
Proof.
  intros Hi Hs Hr this1. subst this1.
  unfold handleRequest, handleRequest_begin.
  unfold bind at 1. unfold try_catch. rewrite Hi, Hs. cbv zeta.
  unfold bind at 1. unfold gets at 1. cbn [fst snd].
  assert (negb (isValidSessionId (String c s)) = false) as Hv.
  { unfold isValidSessionId. rewrite bool_decide_true; [reflexivity|]. simpl. lia. }
  unfold exec, shared_mode, when.
  destruct (read (transports this) (String c s)) as [t| |] eqn:Hread; [| |done];
    rewrite Hv;
    destruct instanceContext as [context|];
    try destruct (bool_decide (ENABLE_MULTI_TENANT penv = Some "true")
                  && bool_decide (js_or (MULTI_TENANT_SESSION_STRATEGY penv)
                                    "instance" = "shared"));
    try destruct (transport_errors io);
    unfold bind, ret, throw, handleRequest_catch, logger_error, modify;
    rewrite ?switchSessionContext_unfold; cbn [fst snd];
    rewrite ?updateSessionAccess_unfold; cbn [fst snd];
    rewrite ?onerror_unfold; cbn [fst snd]; reflexivity.
Qed.

(** A request on a registered session that does not initialize one. *)
Lemma handleRequest_known penv io req instanceContext this c s t :
  isInitializeRequest req = false →
  mcp_session_id req = Some (String c s) →
  transports this !! String c s = Some t →
  handleRequest penv io req instanceContext this
  = (Returned (TransportHandled (Some (transport_sessionId t))),
     exec (when (transport_errors io) (onerror (transport_sessionId t)))
       (exec (updateSessionAccess (date_now io) (String c s))
          (exec (match instanceContext with
                 | Some context =>
                     when (shared_mode penv)
                       (switchSessionContext (String c s) context)
                 | None => ret tt
                 end) this))).
Proof.
  intros Hi Hs Ht.
  rewrite (handleRequest_reuse penv io req instanceContext this c s Hi Hs);
    by rewrite (read_Some _ _ _ Ht).
Qed.

(** A request that does not initialize a session and names, instead of a
    session, a property of [Object.prototype]. *)
Lemma handleRequest_inherited penv io req instanceContext this c s :
  isInitializeRequest req = false →
  mcp_session_id req = Some (String c s) →
  transports this !! String c s = None →
  inherited (String c s) = true →
  handleRequest penv io req instanceContext this
  = (Returned
       (JsonRpcError 500 (-32603)
          (message (sanitizeErrorForClient (NODE_ENV' penv)
                      (ErrorObject "TypeError"
                         "transport.handleRequest is not a function")))),
     with_effect
       (LoggerError "handleRequest: MCP request error:"
          [("error", "transport.handleRequest is not a function");
           ("errorName", "TypeError")])
       (exec (updateSessionAccess (date_now io) (String c s))
          (exec (match instanceContext with
                 | Some context =>
                     when (shared_mode penv)
                       (switchSessionContext (String c s) context)
                 | None => ret tt
                 end) this))).
Proof.
  intros Hi Hs Ht Hn.
  rewrite (handleRequest_reuse penv io req instanceContext this c s Hi Hs);
    by rewrite (read_inherited _ _ Ht Hn).
Qed.

(** The three ways a request that does not initialize a session can go. *)
Lemma handleRequest_continuation_cases penv io req instanceContext this :
  isInitializeRequest req = false →
  (∃ c s t,
     mcp_session_id req = Some (String c s) ∧
     transports this !! String c s = Some t ∧
     handleRequest penv io req instanceContext this
     = (Returned (TransportHandled (Some (transport_sessionId t))),
        exec (when (transport_errors io) (onerror (transport_sessionId t)))
          (exec (updateSessionAccess (date_now io) (String c s))
             (exec (match instanceContext with
                    | Some context =>
                        when (shared_mode penv)
                          (switchSessionContext (String c s) context)
                    | None => ret tt
                    end) this)))) ∨
  (∃ message,
     handleRequest penv io req instanceContext this
     = (Returned (JsonRpcError 400 (-32000) message),
        with_effect
          (LoggerWarn
             "handleRequest: Invalid request - no session ID and not initialize" [])
          this)) ∨
  (∃ c s message,
     mcp_session_id req = Some (String c s) ∧
     transports this !! String c s = None ∧ inherited (String c s) = true ∧
     handleRequest penv io req instanceContext this
     = (Returned (JsonRpcError 500 (-32603) message),
        with_effect
          (LoggerError "handleRequest: MCP request error:"
             [("error", "transport.handleRequest is not a function");
              ("errorName", "TypeError")])
          (exec (updateSessionAccess (date_now io) (String c s))
             (exec (match instanceContext with
                    | Some context =>
                        when (shared_mode penv)
                          (switchSessionContext (String c s) context)
                    | None => ret tt
                    end) this)))).
Proof.
  intros Hi.
  destruct (mcp_session_id req) as [[|c s]|] eqn:Hs.
  - right; left. eexists. apply handleRequest_unresolved; [done|].
    intros c s. by rewrite Hs.
  - destruct (transports this !! String c s) as [t|] eqn:Ht.
    + left. exists c, s, t. split_and!; [done..|].
      by apply handleRequest_known.
    + destruct (inherited (String c s)) eqn:Hn.
      * right; right. exists c, s. eexists. split_and!; [done..|].
        by apply handleRequest_inherited.
      * right; left. eexists. apply handleRequest_unresolved; [done|].
        intros c' s' Hs'. rewrite Hs in Hs'. injection Hs' as <- <-.
        by apply read_None.
  - right; left. eexists. apply handleRequest_unresolved; [done|].
    intros c s. by rewrite Hs.
Qed.

(** The router never answers with the status of the authentication
    check. *)
Lemma handleRequest_never_unauthorized penv io req instanceContext this :
  (handleRequest penv io req instanceContext this).1 ≠ Returned unauthorized.
Proof.
  destruct (isInitializeRequest req) eqn:Hi.
  - destruct (canCreateSession this) eqn:Hc.
    + destruct (transport_initializes io) eqn:Ht.
      * by rewrite handleRequest_create.
      * by rewrite handleRequest_not_initialized.
    + by rewrite handleRequest_limit.
  - by destruct (handleRequest_continuation_cases penv io req instanceContext
                   this Hi)
      as [(c & s & t & _ & _ & ->)|[[message ->]
         |(c & s & message & _ & _ & _ & ->)]].
Qed.

End RouterSteps.

(** ** Invariants of the registry over runs *)

(** A property of the registry that the elementary changes of the registry
    keep is kept by every method, and so by every run. *)
Section RegistryInvariant.

Variable sha256_hex : string → string.

Local Abbreviation handleRequest := (handleRequest sha256_hex).
Local Abbreviation handle := (handle sha256_hex).
Local Abbreviation run := (run sha256_hex).

Variable I : HttpServer → Prop.
Variable admits : string → HttpServer → Prop.

Hypothesis I_effect : ∀ e this, I this → I (with_effect e this).
Hypothesis I_locks : ∀ f this, I this → I (with_contextSwitchLocks f this).
Hypothesis I_without : ∀ sid this, I this → I (without_session sid this).
Hypothesis I_with :
  ∀ sid now b ctx this, I this → I (with_session sid now b ctx this).
Hypothesis I_switched :
  ∀ sid ctx this, admits sid this → I this → I (switched sid ctx this).
Hypothesis I_renewed :
  ∀ sid md md' this, sessionMetadata this !! sid = Some md → I this →
    I (with_sessionMetadata (<[sid := md']>) this).
Hypothesis I_cleaned :
  ∀ sid this, read (sessionMetadata this) sid = Undefined → I this →
    I (with_sessionContexts (delete sid) this).
Hypothesis admits_session :
  ∀ sid this, is_Some (transports this !! sid) → admits sid this.

Lemma removeSession_keeps sid reason : preserves I (removeSession sid reason).
Proof.
  intros this H. rewrite removeSession_unfold.
  destruct (transports this !! sid) as [t|]; [destruct (close_rejects t)|];
    cbn [fst snd]; auto.
Qed.

Lemma removeSession_begin_keeps sid reason :
  preserves I (removeSession_begin sid reason).
Proof.
  intros this H. rewrite removeSession_begin_unfold.
  destruct (transports this !! sid); cbn [fst snd]; auto.
Qed.

Lemma removeSession_resume_keeps sid reason t :
  preserves I (removeSession_resume sid reason t).
Proof.
  intros this H. rewrite removeSession_resume_unfold.
  destruct (close_rejects t); cbn [fst snd]; auto.
Qed.

Lemma start_removals_keeps reason ids : preserves I (start_removals reason ids).
Proof.
  induction ids as [|sessionId ids IH]; simpl; [apply preserves_ret|].
  apply preserves_bind; [apply removeSession_begin_keeps|intros p].
  apply preserves_bind; [exact IH|intros pending; apply preserves_ret].
Qed.

Lemma cleanOrphanedContext_keeps sid : preserves I (cleanOrphanedContext sid).
Proof.
  intros this H. rewrite cleanOrphanedContext_unfold. cbn [fst snd].
  destruct (read (sessionMetadata this) sid) eqn:Hmd; auto.
Qed.

Lemma updateSessionAccess_keeps now sid :
  preserves I (updateSessionAccess now sid).
Proof.
  intros this H. rewrite updateSessionAccess_unfold. cbn [fst snd].
  destruct (sessionMetadata this !! sid) as [md|] eqn:Hmd; eauto.
Qed.

Lemma switchSessionContext_keeps sid ctx this :
  admits sid this → I this → I (switchSessionContext sid ctx this).2.
Proof.
  intros Hs H. rewrite switchSessionContext_unfold. cbn [fst snd].
  case_bool_decide; [done|].
  rewrite performContextSwitch_unfold. cbn [fst snd].
  do 2 apply I_locks. case_bool_decide; auto.
Qed.

Lemma sweep_keeps now : preserves I (sweep now).
Proof.
  unfold sweep, cleanupExpiredSessions, settle_removals.
  repeat preserves_step; try (intros; auto; fail);
    first [ apply cleanOrphanedContext_keeps
          | apply start_removals_keeps
          | apply removeSession_resume_keeps ].
Qed.

Lemma shutdown_keeps : preserves I shutdown.
Proof.
  unfold shutdown. repeat preserves_step; try (intros; auto; fail).
  apply removeSession_keeps.
Qed.

Lemma deleteMcp_keeps mcpSessionId : preserves I (deleteMcp mcpSessionId).
Proof.
  unfold deleteMcp. repeat preserves_step; try (intros; auto; fail);
    apply removeSession_keeps.
Qed.

Lemma onclose_keeps sid : preserves I (onclose sid).
Proof.
  unfold onclose. repeat preserves_step; try (intros; auto; fail).
  apply removeSession_keeps.
Qed.

Lemma onerror_keeps sid : preserves I (onerror sid).
Proof.
  unfold onerror. repeat preserves_step; try (intros; auto; fail).
  apply removeSession_keeps.
Qed.

Lemma handleRequest_keeps penv io req instanceContext this :
  lets_through admits (Post io req instanceContext) this → I this →
  I (handleRequest penv io req instanceContext this).2.
Proof.
  intros Hadm H.
  assert (∀ c s, admits (String c s) this →
            I (exec (updateSessionAccess (date_now io) (String c s))
                 (exec (match instanceContext with
                        | Some context =>
                            when (shared_mode penv)
                              (switchSessionContext (String c s) context)
                        | None => ret tt
                        end) this))) as Hreuse.
  { intros c s Ha. unfold exec. apply updateSessionAccess_keeps.
    destruct instanceContext as [context|]; [|done].
    unfold when. destruct (shared_mode penv); [|done].
    by apply switchSessionContext_keeps. }
  destruct (isInitializeRequest req) eqn:Hi.
  - destruct (canCreateSession this) eqn:Hc.
    + destruct (transport_initializes io) eqn:Ht.
      * rewrite handleRequest_create by done. by apply I_with.
      * by rewrite handleRequest_not_initialized.
    + rewrite handleRequest_limit by done. by apply I_effect.
  - destruct (handleRequest_continuation_cases sha256_hex penv io req
                instanceContext this Hi)
      as [(c & s & t & _ & Ht & ->)|[[message ->]
         |(c & s & message & Hs & Ht & Hn & ->)]]; cbn [fst snd].
    + unfold exec at 1. unfold when.
      destruct (transport_errors io); [|apply Hreuse, admits_session; by eexists].
      apply onerror_keeps, Hreuse, admits_session. by eexists.
    + by apply I_effect.
    + apply I_effect, Hreuse. by apply Hadm.
Qed.

Lemma handle_keeps penv ev this :
  lets_through admits ev this → I this → I (exec (handle penv ev) this).
Proof.
  destruct ev as [io req ctx|sid|now|sid|sid|]; simpl; intros Ha H; unfold exec.
  - pose proof (handleRequest_keeps penv io req ctx this Ha H) as Hk.
    unfold bind. by destruct (handleRequest penv io req ctx this) as [[r|e] this'].
  - pose proof (deleteMcp_keeps sid this H) as Hk.
    unfold bind. by destruct (deleteMcp sid this) as [[r|e] this'].
  - by apply sweep_keeps.
  - by apply onclose_keeps.
  - by apply onerror_keeps.
  - by apply shutdown_keeps.
Qed.

Lemma run_keeps penv (events : list Event) : ∀ this,
  (∀ ev this', ev ∈ events → lets_through admits ev this') →
  I this → I (run penv events this).
Proof.
  induction events as [|ev events IH]; intros this Ha H; simpl; [done|].
  apply IH.
  - intros ev' this' Hin. apply Ha. by right.
  - apply handle_keeps; [apply Ha; by left|done].
Qed.

End RegistryInvariant.

(** *** The registry is sound *)

Lemma sound_with_effect e this : sound this → sound (with_effect e this).
Proof. done. Qed.

Lemma sound_locks f this : sound this → sound (with_contextSwitchLocks f this).
Proof. done. Qed.

Lemma names_session_left sid this :
  is_Some (transports this !! sid) → names_session_or_prototype sid this.
Proof. by left. Qed.

Lemma sound_without_session sid this :
  sound this → sound (without_session sid this).
Proof.
  intros (H1 & H2 & H3 & H4 & H5). unfold sound. simpl.
  rewrite !dom_delete_L, H1, H2. split_and!; [done|done| | |].
  - intros x. rewrite !elem_of_difference. intros [Hx ?]. split; [|done].
    by apply H3.
  - intros sid' Hc Ht. destruct (decide (sid = sid')) as [->|Hne].
    + rewrite lookup_delete_eq in Hc. by destruct Hc.
    + rewrite lookup_delete_ne in Hc by done.
      rewrite lookup_delete_ne in Ht by done. by apply H4.
  - intros sid' Ht. destruct (decide (sid = sid')) as [->|Hne].
    + rewrite lookup_delete_eq in Ht. by destruct Ht.
    + rewrite lookup_delete_ne in Ht by done. specialize (H5 sid' Ht).
      unfold handler_context, stored_context in *. simpl.
      by rewrite !lookup_delete_ne.
Qed.

Lemma sound_with_session sid now b ctx this :
  sound this → sound (with_session sid now b ctx this).
Proof.
  intros (H1 & H2 & H3 & H4 & H5). unfold sound. simpl.
  rewrite !dom_insert_L, H1, H2. split_and!; [done|done| | |].
  - intros x. rewrite !elem_of_union. intros [?|Hx]; [by left|right; by apply H3].
  - intros sid' Hc Ht. destruct (decide (sid = sid')) as [->|Hne].
    + by rewrite lookup_insert_eq in Ht.
    + rewrite lookup_insert_ne in Hc by done.
      rewrite lookup_insert_ne in Ht by done. by apply H4.
  - intros sid' Ht. unfold handler_context, stored_context in *. simpl.
    destruct (decide (sid = sid')) as [->|Hne].
    + by rewrite !lookup_insert_eq.
    + rewrite lookup_insert_ne in Ht by done. rewrite !lookup_insert_ne by done.
      by apply H5.
Qed.

Lemma sound_switched sid ctx this :
  names_session_or_prototype sid this → sound this →
  sound (switched sid ctx this).
Proof.
  intros Hs (H1 & H2 & H3 & H4 & H5). unfold sound. simpl.
  rewrite dom_alter_L, dom_insert_L. split_and!; [done|done| | |].
  - intros x Hx. apply elem_of_union. right. by apply H3.
  - intros sid' Hc Ht. destruct (decide (sid = sid')) as [->|Hne].
    + destruct Hs as [[t Hs]|Hs]; [congruence|done].
    + rewrite lookup_insert_ne in Hc by done. by apply H4.
  - intros sid' Ht. unfold handler_context, stored_context in *. simpl.
    destruct (decide (sid = sid')) as [->|Hne].
    + rewrite lookup_insert_eq, lookup_alter_eq.
      apply elem_of_dom in Ht. rewrite <- H1 in Ht.
      apply elem_of_dom in Ht as [srv ->]. done.
    + rewrite lookup_insert_ne, lookup_alter_ne by done. by apply H5.
Qed.

Lemma sound_renewed sid md md' this :
  sessionMetadata this !! sid = Some md → sound this →
  sound (with_sessionMetadata (<[sid := md']>) this).
Proof.
  intros Hmd (H1 & H2 & H3 & H4 & H5). unfold sound. simpl.
  rewrite dom_insert_L. split_and!; [done| |done..].
  rewrite <- H2. apply (elem_of_dom_2 (D:=gset string)) in Hmd.
  by apply subseteq_union_1_L, singleton_subseteq_l.
Qed.

Lemma sound_cleaned sid this :
  read (sessionMetadata this) sid = Undefined → sound this →
  sound (with_sessionContexts (delete sid) this).
Proof.
  intros [Hmd Hn]%read_Undefined (H1 & H2 & H3 & H4 & H5). unfold sound. simpl.
  apply (not_elem_of_dom (D:=gset string)) in Hmd. rewrite H2 in Hmd.
  rewrite dom_delete_L. split_and!; [done|done| | |].
  - intros x Hx. apply elem_of_difference. split; [by apply H3|].
    rewrite elem_of_singleton. by intros ->.
  - intros sid' Hc Ht. destruct (decide (sid = sid')) as [->|Hne].
    + rewrite lookup_delete_eq in Hc. by destruct Hc.
    + rewrite lookup_delete_ne in Hc by done. by apply H4.
  - intros sid' Ht. specialize (H5 sid' Ht).
    unfold handler_context, stored_context in *. simpl.
    rewrite lookup_delete_ne; [done|]. intros ->.
    apply Hmd. by apply elem_of_dom.
Qed.

Lemma sound_initial : sound initial.
Proof.
  unfold sound, initial. simpl. split_and!; try done;
    intros sid [x Hx]; by rewrite lookup_empty in Hx.
Qed.

(** *** Contexts without a session *)

Lemma registered_only_without_session sid this :
  registered_only this → registered_only (without_session sid this).
Proof.
  unfold registered_only. simpl. rewrite !dom_delete_L. intros H x.
  rewrite !elem_of_difference. intros [Hx ?]. split; [by apply H|done].
Qed.

Lemma registered_only_with_session sid now b ctx this :
  registered_only this → registered_only (with_session sid now b ctx this).
Proof.
  unfold registered_only. simpl. rewrite !dom_insert_L. intros H x.
  rewrite !elem_of_union. intros [?|Hx]; [by left|right; by apply H].
Qed.

Lemma registered_only_switched sid ctx this :
  names_session sid this → registered_only this →
  registered_only (switched sid ctx this).
Proof.
  unfold registered_only, names_session. simpl. rewrite dom_insert_L.
  intros Hs H x. rewrite elem_of_union, elem_of_singleton.
  intros [->|Hx]; [by apply elem_of_dom|by apply H].
Qed.

Lemma registered_only_cleaned sid this :
  registered_only this → registered_only (with_sessionContexts (delete sid) this).
Proof.
  unfold registered_only. simpl. rewrite dom_delete_L. intros H x.
  rewrite elem_of_difference. intros [Hx _]. by apply H.
Qed.

(** *** The locks *)

Lemma switchSessionContext_locks locks sid ctx :
  preserves (locks_are locks) (switchSessionContext sid ctx).
Proof.
  intros this H. rewrite switchSessionContext_unfold. simpl.
  case_bool_decide as Hl; [done|].
  rewrite performContextSwitch_unfold. unfold locks_are in *. simpl.
  assert (contextSwitchLocks
            (if bool_decide (stored_context sid this ≠ Some ctx)
             then switched sid ctx this else this) = contextSwitchLocks this) as ->
    by by case_bool_decide.
  rewrite H in *.
  rewrite difference_union_distr_l_L, difference_diag_L, (left_id_L ∅ (∪)).
  by apply difference_disjoint_L, disjoint_singleton_r.
Qed.

Ltac locks_solve :=
  repeat preserves_step; try (intros; assumption).

Lemma removeSession_locks locks sid reason :
  preserves (locks_are locks) (removeSession sid reason).
Proof. unfold removeSession, transport_close. locks_solve. Qed.

Lemma start_removals_locks locks reason ids :
  preserves (locks_are locks) (start_removals reason ids).
Proof.
  induction ids as [|sessionId ids IH]; simpl; [apply preserves_ret|].
  apply preserves_bind; [unfold removeSession_begin; locks_solve|intros p].
  apply preserves_bind; [exact IH|intros pending; apply preserves_ret].
Qed.

Lemma sweep_locks locks now : preserves (locks_are locks) (sweep now).
Proof.
  unfold sweep, cleanupExpiredSessions, settle_removals, cleanOrphanedContext.
  repeat preserves_step; try (intros; assumption).
  - apply start_removals_locks.
  - unfold removeSession_resume. locks_solve.
Qed.

Section RunInvariants.

Variable sha256_hex : string → string.

Local Abbreviation handleRequest := (handleRequest sha256_hex).
Local Abbreviation handle := (handle sha256_hex).
Local Abbreviation run := (run sha256_hex).

Lemma handleRequest_sound penv io req instanceContext :
  preserves sound (handleRequest penv io req instanceContext).
Proof.
  intros this H.
  apply (handleRequest_keeps sha256_hex sound names_session_or_prototype
           sound_with_effect sound_locks sound_without_session
           sound_with_session sound_switched sound_renewed names_session_left);
    [|done].
  intros c s _ _ Hn. by right.
Qed.

Lemma run_sound penv (events : list Event) : sound (run penv events initial).
Proof.
  apply (run_keeps sha256_hex sound names_session_or_prototype
           sound_with_effect sound_locks sound_without_session
           sound_with_session sound_switched sound_renewed sound_cleaned
           names_session_left);
    [|apply sound_initial].
  intros [io req ctx|sid|now|sid|sid|] this' _; simpl; try done.
  intros c s _ _ Hn. by right.
Qed.


Lemma run_registered_only penv (events : list Event) :
  Forall ordinary events → registered_only (run penv events initial).
Proof.
  intros Hord.
  apply (run_keeps sha256_hex registered_only names_session
           (λ e this H, H) (λ f this H, H) registered_only_without_session
           registered_only_with_session registered_only_switched
           (λ sid md md' this _ H, H)
           (λ sid this _, registered_only_cleaned sid this)
           (λ sid this H, H));
    [|done].
  intros ev this' Hin. rewrite Forall_forall in Hord. specialize (Hord ev Hin).
  destruct ev as [io req ctx|sid|now|sid|sid|]; simpl; try done.
  intros c s Hs _ Hn. destruct Hord as [Hord _]. by rewrite (Hord _ Hs) in Hn.
Qed.

Lemma handle_locks locks penv ev : preserves (locks_are locks) (handle penv ev).
Proof.
  destruct ev as [io req ctx|sid|now|sid|sid|]; simpl.
  - unfold handleRequest, handleRequest_begin, handleRequest_resume,
      handleRequest_catch, onsessioninitialized, updateSessionAccess, onerror.
    repeat preserves_step; try (intros; assumption);
      first [ apply switchSessionContext_locks | apply removeSession_locks ].
  - unfold deleteMcp. locks_solve; apply removeSession_locks.
  - apply sweep_locks.
  - unfold onclose. locks_solve. apply removeSession_locks.
  - unfold onerror. locks_solve. apply removeSession_locks.
  - unfold shutdown. locks_solve. apply removeSession_locks.
Qed.

Lemma run_locks penv events this :
  contextSwitchLocks (run penv events this) = contextSwitchLocks this.
Proof.
  apply (run_invariant sha256_hex (locks_are (contextSwitchLocks this))); [|done].
  intros ev this'. apply handle_locks.
Qed.

(** X1, the four maps stay aligned.  From the empty registry, after any
    sequence of events, each handled to its end before the next, none of
    which names a property of [Object.prototype] where a session id is
    expected, a session id has an entry in [servers], in [sessionMetadata]
    and in [sessionContexts] exactly when it has one in [transports]: no
    such event leaves a session half registered, whether a [close()]
    rejects or not. *)
Theorem registry_maps_stay_aligned penv (events : list Event) (sid : string) :
  Forall ordinary events →
  let this := run penv events initial in
  (is_Some (servers this !! sid) ↔ is_Some (transports this !! sid)) ∧
  (is_Some (sessionMetadata this !! sid) ↔ is_Some (transports this !! sid)) ∧
  (is_Some (sessionContexts this !! sid) ↔ is_Some (transports this !! sid)).
Proof.
  intros Hord this.
  destruct (run_sound penv events) as (H1 & H2 & H3 & _).
  pose proof (run_registered_only penv events Hord) as H4.
  fold this in H1, H2, H3, H4. unfold registered_only in H4.
  rewrite <- !elem_of_dom, H1, H2. split_and!; [done..|].
  split; [apply H4|apply H3].
Qed.


(** X3, no lock outlives its switch.  A sequence of events, each handled
    to its end before the next, leaves [contextSwitchLocks] as it found it:
    every [switchSessionContext] that takes a lock has released it when it
    returns, so that from the empty registry no lock is ever left
    behind. *)
Theorem sequential_runs_hold_no_lock penv (events : list Event) (this : HttpServer) :
  contextSwitchLocks (run penv events this) = contextSwitchLocks this ∧
  contextSwitchLocks (run penv events initial) = ∅.
Proof. split; apply run_locks. Qed.

(** X4, a shared session serves the tenant of the request.  In shared
    multi-tenant mode, in any state reached from the empty registry, a
    request that does not initialize a session, names a registered session
    and carries an instance context leaves that context stored for the
    session and referred to by its handler, provided that the transport of
    the session does not call [onerror] while it handles the request. *)
Theorem shared_request_serves_its_tenant penv (events : list Event) io req
    (context : InstanceContext) c s :
  let this := run penv events initial in
  let sid := String c s in
  shared_mode penv = true →
  isInitializeRequest req = false →
  mcp_session_id req = Some sid →
  is_Some (transports this !! sid) →
  transport_errors io = false →
  let this' := (handleRequest penv io req (Some context) this).2 in
  stored_context sid this' = Some context ∧
  handler_context sid this' = Some context.
Proof.
  intros this sid Hshared Hi Hs [t Ht] Herr this'. subst this' sid.
  rewrite (handleRequest_known sha256_hex penv io req (Some context) this c s t)
    by done.
  rewrite Hshared, Herr. unfold when, exec. cbn [fst snd].
  rewrite updateSessionAccess_unfold, switchSessionContext_unfold. cbn [fst snd].
  assert (contextSwitchLocks this = ∅) as Hl by apply run_locks.
  rewrite Hl. rewrite bool_decide_eq_false_2 by apply not_elem_of_empty.
  rewrite performContextSwitch_unfold. cbn [fst snd].
  destruct (run_sound penv events) as (H1 & H2 & H3 & H4 & H5).
  fold this in H1, H2, H3, H4, H5.
  assert (is_Some (servers this !! (String c s))) as [srv Hsrv].
  { apply elem_of_dom. rewrite H1. apply elem_of_dom. by eexists. }
  set (this1 := if bool_decide (stored_context (String c s) this ≠ Some context)
                then switched (String c s) context this else this).
  assert (stored_context (String c s) this1 = Some context ∧
          handler_context (String c s) this1 = Some context) as [Hst Hh].
  { subst this1. case_bool_decide as Hne.
    - unfold stored_context, handler_context. simpl.
      rewrite lookup_insert_eq, lookup_alter_eq, Hsrv. done.
    - rewrite H5 by (by eexists). split; [|done].
      destruct (decide (stored_context (String c s) this = Some context)); [done|].
      by destruct Hne. }
  clearbody this1.
  unfold stored_context, handler_context in *.
  match goal with
  | |- context [match ?x with Some _ => _ | None => _ end] => by destruct x
  end.
Qed.

End RunInvariants.

Lemma registry_maps_stay_aligned_witness :
  let this := run constant_digest single_tenant
                [create 0 "s1" None; Delete (Some "s1")] initial in
  (is_Some (servers this !! "s1") ↔ is_Some (transports this !! "s1")) ∧
  (is_Some (sessionMetadata this !! "s1") ↔ is_Some (transports this !! "s1")) ∧
  (is_Some (sessionContexts this !! "s1") ↔ is_Some (transports this !! "s1")).
Proof.
  apply (registry_maps_stay_aligned constant_digest single_tenant
           [create 0 "s1" None; Delete (Some "s1")] "s1").
  repeat constructor.
  - intros sid [=].
  - intros sid [= <-]. reflexivity.
Defined.

(** In shared mode, a request that names [constructor], under which
    nothing is registered, leaves a context stored under that name, to
    which no handler refers. *)
Lemma context_stored_without_handler :
  let this := run constant_digest shared_env
                [Post at_seven (mkRequest (Some "constructor") false)
                   (Some (tenant "a"))] initial in
  stored_context "constructor" this = Some (tenant "a") ∧
  handler_context "constructor" this = None ∧
  transports this !! "constructor" = None.
Proof. vm_compute. done. Qed.

Lemma shared_request_serves_its_tenant_witness :
  let this := run constant_digest shared_env [create 0 "s1" (Some (tenant "a"))]
                initial in
  let this' := (handleRequest constant_digest shared_env at_seven continue_s1
                  (Some (tenant "b")) this).2 in
  stored_context "s1" this' = Some (tenant "b") ∧
  handler_context "s1" this' = Some (tenant "b").
Proof.
  apply (shared_request_serves_its_tenant constant_digest shared_env
           [create 0 "s1" (Some (tenant "a"))] at_seven continue_s1 (tenant "b")
           "s" "1").
  - reflexivity.
  - reflexivity.
  - reflexivity.
  - eexists. vm_compute. reflexivity.
  - reflexivity.
Defined.

(** ** The sweeper, whatever the closes do *)

Lemma settle_removals_other reason (pending : list (string * Transport)) sid :
  sid ∉ pending.*1 →
  ∀ this, same_session sid this (settle_removals reason pending this).2.
Proof.
  unfold settle_removals.
  induction pending as [|[x t] pending IH]; intros Hn this; simpl.
  - apply same_session_refl.
  - apply not_elem_of_cons in Hn as [Hne Hn]. simpl in Hne.
    unfold bind. rewrite removeSession_resume_unfold.
    destruct (close_rejects t); simpl.
    + eapply same_session_trans; [|by apply IH]. by apply same_session_registry.
    + eapply same_session_trans; [|by apply IH].
      eapply same_session_trans; [by apply (without_session_other x sid this)|].
      by apply same_session_registry.
Qed.

(** A removal that resumes after a close that did not reject takes its
    session out; no removal brings a session back. *)
Lemma settle_removals_each reason (pending : list (string * Transport)) :
  ∀ this,
    let this' := (settle_removals reason pending this).2 in
    (∀ sid, session_gone sid this → session_gone sid this') ∧
    (∀ sid t, (sid, t) ∈ pending → close_rejects t = false →
       session_gone sid this').
Proof.
  unfold settle_removals.
  induction pending as [|[x tx] pending IH]; intros this; cbn [for_of].
  - split; [done|]. by intros sid t ?%elem_of_nil.
  - unfold bind. cbn [fst snd]. rewrite removeSession_resume_unfold.
    destruct (close_rejects tx) eqn:Hc.
    + match goal with
      | |- context [for_of pending _ ?this1] => destruct (IH this1) as [Hg Hp]
      end.
      split.
      * intros sid Hs. apply Hg. by eapply session_gone_registry.
      * intros sid t [[= -> ->]|Hin]%elem_of_cons Hc'; [congruence|].
        by eapply Hp.
    + match goal with
      | |- context [for_of pending _ ?this1] => destruct (IH this1) as [Hg Hp]
      end.
      split.
      * intros sid Hs. apply Hg.
        eapply session_gone_registry;
          [|by apply (session_gone_without_other sid x this)].
        done.
      * intros sid t [[= -> ->]|Hin]%elem_of_cons Hc'; [|by eapply Hp].
        apply Hg.
        eapply session_gone_registry; [|apply (without_session_gone x this)].
        done.
Qed.

Lemma for_of_cleanOrphanedContext_orphans_only l this :
  orphans_only this (for_of l cleanOrphanedContext this).2.
Proof.
  apply (preserves_for_of (orphans_only this) l cleanOrphanedContext).
  - intros x. apply cleanOrphanedContext_orphans_only.
  - by unfold orphans_only.
Qed.

(** The loop over the stored contexts deletes the context of every listed
    id under which [this.sessionMetadata] shows nothing, and no other, and
    adds none. *)
Lemma for_of_cleanOrphanedContext_clears (l : list string) : ∀ this,
  let this' := (for_of l cleanOrphanedContext this).2 in
  sessionMetadata this' = sessionMetadata this ∧
  sessionContexts this' ⊆ sessionContexts this ∧
  (∀ sid, sid ∈ l → read (sessionMetadata this) sid = Undefined →
          sessionContexts this' !! sid = None) ∧
  (∀ sid, read (sessionMetadata this) sid ≠ Undefined →
          sessionContexts this' !! sid = sessionContexts this !! sid).
Proof.
  induction l as [|x l IH]; intros this; cbn [for_of].
  - split_and!; [done|done| |done]. by intros sid ?%elem_of_nil.
  - unfold bind. rewrite cleanOrphanedContext_unfold.
    set (this1 := match read (sessionMetadata this) x with
                  | Undefined => _ | _ => this end).
    assert (sessionMetadata this1 = sessionMetadata this) as Hm1.
    { subst this1. by destruct (read (sessionMetadata this) x). }
    assert (sessionContexts this1 ⊆ sessionContexts this) as Hc1.
    { subst this1. destruct (read (sessionMetadata this) x); [done|done|].
      simpl. apply delete_subseteq. }
    assert (read (sessionMetadata this) x = Undefined →
            sessionContexts this1 !! x = None) as Hx.
    { subst this1. intros ->. simpl. apply lookup_delete_eq. }
    assert (∀ sid, read (sessionMetadata this) sid ≠ Undefined →
            sessionContexts this1 !! sid = sessionContexts this !! sid) as Hk.
    { subst this1. intros sid Hsid.
      destruct (read (sessionMetadata this) x) eqn:Hrx; [done|done|].
      simpl. apply lookup_delete_ne. intros ->. by rewrite Hrx in Hsid. }
    clearbody this1.
    destruct (IH this1) as (Hm & Hc & Hl & Hkeep). cbn [fst snd].
    split_and!.
    + by rewrite Hm.
    + by etrans.
    + intros sid [->|Hin]%elem_of_cons Hmd.
      * eapply lookup_weaken_None; [by apply Hx|done].
      * apply Hl; [done|]. by rewrite Hm1.
    + intros sid Hsid. rewrite Hkeep by (by rewrite Hm1). by apply Hk.
Qed.

(** The stages of one sweep: the loop over the stored contexts, the
    removals started, the log line, and the removals settled. *)
Lemma sweep_stages now this :
  let l := (filter (λ kv, expired now kv.2)
              (map_to_list (sessionMetadata this))).*1 in
  ∃ this1 pending this2,
    orphans_only this this1 ∧
    this1 = (for_of (Object_keys (sessionContexts this)) cleanOrphanedContext this).2 ∧
    start_removals "expired" l this1 = (Returned pending, this2) ∧
    cleanupExpiredSessions now this
    = (Returned pending, sweep_log (length l) this2) ∧
    (sweep now this).2
    = (settle_removals "expired" pending (sweep_log (length l) this2)).2.
Proof.
  intros l.
  set (orphans := for_of (Object_keys (sessionContexts this)) cleanOrphanedContext).
  assert ((orphans this).1 = Returned tt) as Hret1.
  { apply for_of_returns. intros x this0. apply cleanOrphanedContext_returns. }
  destruct (orphans this) as [o this1] eqn:Ho. simpl in Hret1. subst o.
  destruct (start_removals_spec "expired" l this1)
    as (pending & this2 & Hstart & _).
  assert (cleanupExpiredSessions now this
          = (Returned pending, sweep_log (length l) this2)) as Hclean.
  { unfold cleanupExpiredSessions. unfold bind at 1 2. simpl.
    fold l. fold orphans. rewrite (bind_returned _ _ _ _ _ Ho).
    rewrite (bind_returned _ _ _ _ _ Hstart).
    unfold bind, when, sweep_log. by destruct (bool_decide (0 < length l)%nat). }
  exists this1, pending, this2. split_and!; [|done|done|done|].
  - change this1 with (Returned tt, this1).2. rewrite <- Ho.
    apply for_of_cleanOrphanedContext_orphans_only.
  - unfold sweep. by rewrite (bind_returned _ _ _ _ _ Hclean).
Qed.

Lemma registry_sweep_log n this : registry (sweep_log n this) = registry this.
Proof. unfold sweep_log. by destruct (bool_decide (0 < n)%nat). Qed.

(** A session that has not expired is not touched by the sweep, whatever
    becomes of the others. *)
Lemma sweep_keeps_fresh now this sid md :
  sessionMetadata this !! sid = Some md → expired now md = false →
  same_session sid this (sweep now this).2.
Proof.
  intros Hmd Hex.
  destruct (sweep_stages now this)
    as (this1 & pending & this2 & Horph & _ & Hstart & _ & ->).
  set (l := (filter (λ kv, expired now kv.2) (map_to_list (sessionMetadata this))).*1) in *.
  assert (sid ∉ l) as Hnl.
  { intros (md' & Hmd' & Hex')%expired_ids. congruence. }
  destruct (start_removals_spec "expired" l this1)
    as (pending' & this2' & Hstart' & _ & Hpend & _ & Hother).
  rewrite Hstart in Hstart'. injection Hstart' as <- <-.
  assert (same_session sid this this1) as H01.
  { destruct Horph as (H1 & H2 & H3 & H4). unfold same_session.
    rewrite H1, H2, H3, H4; by eauto. }
  assert (sid ∉ pending.*1) as Hnp.
  { intros ([s t] & -> & Hin)%list_elem_of_fmap. by apply Hpend in Hin as [? _]. }
  eapply same_session_trans; [exact H01|].
  eapply same_session_trans; [by apply Hother|].
  eapply same_session_trans; [|by apply settle_removals_other].
  apply same_session_registry, registry_sweep_log.
Qed.

(** X14, what one sweep removes.  Once the removals that a sweep has
    started are settled, a session with metadata that had not expired is as
    it was, whatever became of the other sessions; and a session that had
    expired is gone from all four maps, provided that the [close()] of its
    own transport, if it has one, does not reject. *)
Theorem sweep_removes_the_expired_and_keeps_the_rest (now : Z)
    (this : HttpServer) (sid : string) (md : SessionMeta) :
  sessionMetadata this !! sid = Some md →
  let this' := (sweep now this).2 in
  (expired now md = false → same_session sid this this') ∧
  (expired now md = true →
   (∀ t, transports this !! sid = Some t → close_rejects t = false) →
   session_gone sid this').
Proof.
  intros Hmd this'. split; [by apply sweep_keeps_fresh|].
  intros Hex Hclose. subst this'.
  destruct (sweep_stages now this)
    as (this1 & pending & this2 & Horph & _ & Hstart & _ & ->).
  set (l := (filter (λ kv, expired now kv.2) (map_to_list (sessionMetadata this))).*1)
    in *.
  assert (sid ∈ l) as Hin by (apply expired_ids; eauto).
  destruct (start_removals_spec "expired" l this1)
    as (pending' & this2' & Hstart' & _ & Hpend & Hl & _).
  rewrite Hstart in Hstart'. injection Hstart' as <- <-.
  destruct (settle_removals_each "expired" pending (sweep_log (length l) this2))
    as [Hkeep Hsettled].
  destruct (Hl sid Hin) as [Hgone|[t Ht]].
  - apply Hkeep. eapply session_gone_registry; [apply registry_sweep_log|done].
  - apply (Hsettled sid t Ht). apply Hclose.
    destruct (Hpend sid t Ht) as [_ Ht1].
    destruct Horph as (H1 & _). by rewrite <- H1.
Qed.

Lemma sweep_removes_the_expired_and_keeps_the_rest_witness :
  session_gone "s1" (sweep (sessionTimeout + 1) (one_session false)).2.
Proof.
  apply (sweep_removes_the_expired_and_keeps_the_rest (sessionTimeout + 1)
           (one_session false) "s1" (mkSessionMeta 0 0)).
  - vm_compute. reflexivity.
  - vm_compute. reflexivity.
  - intros t Ht. vm_compute in Ht. by injection Ht as <-.
Defined.

Lemma no_orphans_without_session sid this :
  no_orphans this → no_orphans (without_session sid this).
Proof.
  unfold no_orphans. simpl. intros H sid' Hc.
  destruct (decide (sid = sid')) as [->|Hne].
  - rewrite lookup_delete_eq in Hc. by destruct Hc.
  - rewrite lookup_delete_ne in Hc by done. specialize (H sid' Hc).
    unfold read in *. by rewrite lookup_delete_ne.
Qed.

Lemma removeSession_begin_no_orphans sid reason :
  preserves no_orphans (removeSession_begin sid reason).
Proof.
  intros this H. rewrite removeSession_begin_unfold.
  destruct (transports this !! sid); simpl; [done|].
  by apply (no_orphans_without_session sid this).
Qed.

Lemma removeSession_resume_no_orphans sid reason t :
  preserves no_orphans (removeSession_resume sid reason t).
Proof.
  intros this H. rewrite removeSession_resume_unfold.
  destruct (close_rejects t); simpl; [done|].
  by apply (no_orphans_without_session sid this).
Qed.

Lemma start_removals_no_orphans reason ids :
  preserves no_orphans (start_removals reason ids).
Proof.
  induction ids as [|sessionId ids IH]; simpl; [apply preserves_ret|].
  apply preserves_bind; [apply removeSession_begin_no_orphans|intros p].
  apply preserves_bind; [exact IH|intros pending; apply preserves_ret].
Qed.

(** After a sweep every stored context sits under an id under which
    [this.sessionMetadata] shows something: the loop over the stored
    contexts deletes the others, and a removal takes the context along with
    the metadata or leaves both. *)
Lemma sweep_no_orphans (now : Z) (this : HttpServer) :
  no_orphans (sweep now this).2.
Proof.
  destruct (sweep_stages now this)
    as (this1 & pending & this2 & _ & Hthis1 & Hstart & _ & ->).
  assert (no_orphans this1) as H1.
  { destruct (for_of_cleanOrphanedContext_clears
                (Object_keys (sessionContexts this)) this) as (Hm & Hc & Hl & _).
    rewrite <- Hthis1 in Hm, Hc, Hl.
    intros sid [ctx Hctx] Hmd.
    rewrite Hm in Hmd. rewrite Hl in Hctx; [done| |done].
    unfold Object_keys. apply list_elem_of_fmap.
    exists (sid, ctx). split; [done|]. apply elem_of_map_to_list.
    by eapply lookup_weaken. }
  assert (no_orphans this2) as H2.
  { change this2 with (Returned pending, this2).2. rewrite <- Hstart.
    by apply start_removals_no_orphans. }
  apply (preserves_for_of no_orphans pending
           (λ st, removeSession_resume st.1 "expired" st.2)).
  - intros st. apply removeSession_resume_no_orphans.
  - unfold sweep_log. by destruct (bool_decide _).
Qed.

(** A context stored under a name of [Object.prototype] that has no
    metadata is out of the reach of the sweeper. *)
Lemma sweep_keeps_inherited_context now this sid :
  inherited sid = true → sessionMetadata this !! sid = None →
  sessionContexts (sweep now this).2 !! sid = sessionContexts this !! sid.
Proof.
  intros Hn Hmd.
  destruct (sweep_stages now this)
    as (this1 & pending & this2 & _ & Hthis1 & Hstart & _ & ->).
  set (l := (filter (λ kv, expired now kv.2) (map_to_list (sessionMetadata this))).*1)
    in *.
  assert (sid ∉ l) as Hnl.
  { intros (md' & Hmd' & _)%expired_ids. congruence. }
  destruct (start_removals_spec "expired" l this1)
    as (pending' & this2' & Hstart' & _ & Hpend & _ & Hother).
  rewrite Hstart in Hstart'. injection Hstart' as <- <-.
  assert (sid ∉ pending.*1) as Hnp.
  { intros ([s t] & -> & Hin)%list_elem_of_fmap. by apply Hpend in Hin as [? _]. }
  destruct (for_of_cleanOrphanedContext_clears
              (Object_keys (sessionContexts this)) this) as (_ & _ & _ & Hkeep).
  rewrite <- Hthis1 in Hkeep.
  destruct (settle_removals_other "expired" pending sid Hnp
              (sweep_log (length l) this2)) as (_ & _ & _ & ->).
  assert (sessionContexts (sweep_log (length l) this2) = sessionContexts this2) as ->.
  { unfold sweep_log. by destruct (bool_decide _). }
  destruct (Hother sid Hnl) as (_ & _ & _ & ->).
  apply Hkeep. by rewrite (read_inherited _ _ Hmd Hn).
Qed.

(** X15, what a sweep leaves of the stored contexts.  After one sweep of
    any registry, settled, every id that has a stored context and does not
    name a property of [Object.prototype] has metadata, whether a [close()]
    rejected or not; a context stored under a name of [Object.prototype]
    without metadata is left where it is. *)
Theorem sweep_leaves_no_orphaned_context (now : Z) (this : HttpServer) :
  (∀ sid, is_Some (sessionContexts (sweep now this).2 !! sid) →
          inherited sid = false →
          is_Some (sessionMetadata (sweep now this).2 !! sid)) ∧
  (∀ sid, inherited sid = true → sessionMetadata this !! sid = None →
          sessionContexts (sweep now this).2 !! sid
          = sessionContexts this !! sid).
Proof.
  split; [|intros sid; apply sweep_keeps_inherited_context].
  intros sid Hc Hn. pose proof (sweep_no_orphans now this sid Hc) as H.
  unfold read in H. rewrite Hn in H.
  by destruct (sessionMetadata (sweep now this).2 !! sid).
Qed.

Lemma metadata_shrinks_delete m0 k this :
  metadata_shrinks m0 this → metadata_shrinks m0 (with_sessionMetadata (delete k) this).
Proof.
  unfold metadata_shrinks. simpl. intros H. etrans; [apply delete_subseteq|done].
Qed.

Ltac metadata_solve :=
  repeat preserves_step;
  try (intros; first [ by apply metadata_shrinks_delete | assumption ]).

Lemma start_removals_metadata m0 reason ids :
  preserves (metadata_shrinks m0) (start_removals reason ids).
Proof.
  induction ids as [|sessionId ids IH]; simpl; [apply preserves_ret|].
  apply preserves_bind; [unfold removeSession_begin; metadata_solve|intros p].
  apply preserves_bind; [exact IH|intros pending; apply preserves_ret].
Qed.

Lemma sweep_metadata m0 now : preserves (metadata_shrinks m0) (sweep now).
Proof.
  unfold sweep, cleanupExpiredSessions, settle_removals, cleanOrphanedContext.
  repeat preserves_step;
    try (intros; first [ by apply metadata_shrinks_delete | assumption ]).
  - apply start_removals_metadata.
  - unfold removeSession_resume. metadata_solve.
Qed.

Lemma filter_none {A} (P : A → Prop) `{!∀ x, Decision (P x)} (l : list A) :
  (∀ x, x ∈ l → ¬ P x) → filter P l = [].
Proof.
  induction l as [|a l IH]; intros Hl; [done|].
  rewrite filter_cons_False by (apply Hl; left).
  apply IH. intros x Hx. apply Hl. by right.
Qed.

(** When no close rejects, no session that is left by a sweep has
    expired. *)
Lemma sweep_leaves_nothing_expired now this sid md :
  closes_ok this →
  sessionMetadata (sweep now this).2 !! sid = Some md → expired now md = false.
Proof.
  intros Hok Hin.
  pose proof (sweep_removes_expired now this Hok) as Hsweep. cbv zeta in Hsweep.
  pose proof (sweep_metadata (sessionMetadata this) now this) as Hsub.
  unfold metadata_shrinks in Hsub. specialize (Hsub (reflexivity _)).
  pose proof (lookup_weaken _ _ _ _ Hin Hsub) as Hmd.
  specialize (Hsweep sid md Hmd).
  destruct (expired now md); [|done].
  destruct Hsweep as (_ & _ & Hgone & _). congruence.
Qed.

(** X16, the metrics after a sweep.  When no [close()] of the registry
    rejects, the metrics read right after a sweep, at the time of the
    sweep, count no expired session. *)
Theorem sweep_then_metrics_report_nothing_expired (now : Z) (this : HttpServer) :
  closes_ok this →
  expiredSessions (getSessionMetrics now (sweep now this).2) = 0%nat.
Proof.
  intros Hok. unfold getSessionMetrics. cbn [expiredSessions].
  rewrite count_expired.
  apply length_zero_iff_nil, filter_none.
  intros [sid md] Hin He. simpl in He.
  apply elem_of_map_to_list in Hin.
  by rewrite (sweep_leaves_nothing_expired now this sid md Hok Hin) in He.
Qed.

Lemma closes_ok_one_session : closes_ok (one_session false).
Proof.
  intros sid t Ht. unfold one_session in Ht. cbn [transports] in Ht.
  by apply lookup_singleton_Some in Ht as [_ <-].
Qed.

Lemma sweep_then_metrics_report_nothing_expired_witness :
  expiredSessions
    (getSessionMetrics (sessionTimeout + 1)
       (sweep (sessionTimeout + 1) (one_session false)).2) = 0%nat.
Proof.
  apply (sweep_then_metrics_report_nothing_expired (sessionTimeout + 1)
           (one_session false)).
  exact closes_ok_one_session.
Defined.

(** X17, the sweeper returns before its removals.  When
    [cleanupExpiredSessions] returns, having logged its summary if a
    session had expired, every transport is still registered; the removals
    that are still suspended at their [await] are those of the sessions that
    had expired and have a transport. *)
Theorem cleanupExpiredSessions_returns_with_removals_pending (now : Z)
    (this : HttpServer) :
  let at_return := cleanupExpiredSessions now this in
  transports at_return.2 = transports this ∧
  ∃ pending,
    at_return.1 = Returned pending ∧
    ∀ sid t, (sid, t) ∈ pending ↔
      transports this !! sid = Some t ∧
      ∃ md, sessionMetadata this !! sid = Some md ∧ expired now md = true.
Proof.
  intros at_return. subst at_return.
  destruct (sweep_stages now this)
    as (this1 & pending & this2 & Horph & _ & Hstart & -> & _).
  set (l := (filter (λ kv, expired now kv.2) (map_to_list (sessionMetadata this))).*1)
    in *.
  destruct Horph as (Ht1 & _).
  destruct (start_removals_spec "expired" l this1)
    as (pending' & this2' & Hstart' & Ht2 & Hp & Hl & _).
  rewrite Hstart in Hstart'. injection Hstart' as <- <-.
  cbn [fst snd]. split.
  { unfold sweep_log. destruct (bool_decide _); simpl; congruence. }
  exists pending. split; [done|]. intros sid t. split.
  - intros Hin. destruct (Hp sid t Hin) as [Hsid Ht]. rewrite Ht1 in Ht.
    split; [done|]. by apply expired_ids.
  - intros [Ht Hex]. apply expired_ids in Hex. fold l in Hex.
    destruct (Hl sid Hex) as [(Hgone & _)|[t' Hin]].
    + rewrite Ht2, Ht1 in Hgone. congruence.
    + destruct (Hp sid t' Hin) as [_ Ht']. rewrite Ht1 in Ht'. congruence.
Qed.

(** The loop over the stored contexts does nothing when
    [this.sessionMetadata] shows something under every listed id. *)
Lemma for_of_cleanOrphanedContext_idle (l : list string) this :
  (∀ sid, sid ∈ l → read (sessionMetadata this) sid ≠ Undefined) →
  for_of l cleanOrphanedContext this = (Returned tt, this).
Proof.
  induction l as [|x l IH]; intros Hl; cbn [for_of]; [done|].
  unfold bind. rewrite cleanOrphanedContext_unfold.
  assert (x ∈ x :: l) as Hx by left. specialize (Hl x Hx) as Hr.
  destruct (read (sessionMetadata this) x); [| |done];
    (apply IH; intros sid Hin; apply Hl; by right).
Qed.

(** X30, a second sweep finds nothing to do.  When no [close()] of the
    registry rejects, a sweep that runs right after a sweep has settled, at
    the same time, changes nothing at all: it removes no session, deletes
    no context and writes no log line. *)
Theorem sweep_again_does_nothing (now : Z) (this : HttpServer) :
  closes_ok this →
  sweep now (sweep now this).2 = (Returned tt, (sweep now this).2).
Proof.
  intros Hok. set (this1 := (sweep now this).2).
  assert (filter (λ kv, expired now kv.2) (map_to_list (sessionMetadata this1)) = [])
    as Hnone.
  { apply filter_none. intros [sid md] Hin He. simpl in He.
    apply elem_of_map_to_list in Hin. apply Is_true_true in He.
    by rewrite (sweep_leaves_nothing_expired now this sid md Hok Hin) in He. }
  assert (for_of (Object_keys (sessionContexts this1)) cleanOrphanedContext this1
          = (Returned tt, this1)) as Hidle.
  { apply for_of_cleanOrphanedContext_idle. intros sid Hin.
    apply (sweep_no_orphans now this).
    unfold Object_keys in Hin.
    apply list_elem_of_fmap in Hin as ([k ctx] & -> & Hin).
    apply elem_of_map_to_list in Hin. by eexists. }
  unfold sweep, cleanupExpiredSessions. unfold bind at 1 2 3. simpl.
  rewrite (bind_returned _ _ _ _ _ Hidle). rewrite Hnone. done.
Qed.

Lemma sweep_again_does_nothing_witness :
  sweep (sessionTimeout + 1) (sweep (sessionTimeout + 1) (one_session false)).2
  = (Returned tt, (sweep (sessionTimeout + 1) (one_session false)).2).
Proof.
  apply (sweep_again_does_nothing (sessionTimeout + 1) (one_session false)).
  exact closes_ok_one_session.
Defined.

(** ** The DELETE endpoint and the shutdown *)

(** X10, the answers of DELETE /mcp.  A DELETE request is answered in one
    of three ways: 400 with code -32602 when the [Mcp-Session-Id] header is
    missing or empty; 404 with code -32001 when [this.transports] shows
    nothing under the id, that is, when no transport is registered under it
    and it does not name a property of [Object.prototype], both without
    touching the state; and 204 otherwise: when a transport is registered,
    after [removeSession] has run, and also for an id that names a property
    of [Object.prototype] and no session.  The answers
    [Invalid session ID format] and 500 are never given. *)
Theorem deleteMcp_answers (mcpSessionId : option string) (this : HttpServer) :
  let result := deleteMcp mcpSessionId this in
  (truthy mcpSessionId = false ∧
   result = (Returned (JsonRpcError 400 (-32602) "Mcp-Session-Id header is required"),
             this)) ∨
  (∃ sid, mcpSessionId = Some sid ∧ sid ≠ "" ∧
     transports this !! sid = None ∧ inherited sid = false ∧
     result = (Returned (JsonRpcError 404 (-32001) "Session not found"), this)) ∨
  (∃ sid, mcpSessionId = Some sid ∧ sid ≠ "" ∧ is_Some (transports this !! sid) ∧
     result = (Returned NoContent,
               (removeSession sid "manual_termination" this).2)) ∨
  (∃ sid, mcpSessionId = Some sid ∧ sid ≠ "" ∧
     transports this !! sid = None ∧ inherited sid = true ∧
     result.1 = Returned NoContent).
Proof.
  intros result. subst result. rewrite deleteMcp_unfold.
  destruct mcpSessionId as [[|c s]|]; [by left| |by left].
  unfold read.
  destruct (transports this !! String c s) as [t|] eqn:Ht.
  - right. right. left. exists (String c s). by rewrite Ht.
  - destruct (inherited (String c s)) eqn:Hi.
    + right. right. right. by exists (String c s).
    + right. left. by exists (String c s).
Qed.

(** X11, DELETE terminates the session.  A DELETE request for a registered
    session whose [close()] does not reject is answered 204; the session is
    then gone from all four maps and every other session is as it was.  A
    second DELETE for the same id is answered 404, unless the id names a
    property of [Object.prototype]: then [this.transports] still shows a
    value under it and the answer is 204 again. *)
Theorem deleteMcp_terminates_session c s t (this : HttpServer) :
  let sid := String c s in
  transports this !! sid = Some t →
  close_rejects t = false →
  let result := deleteMcp (Some sid) this in
  result.1 = Returned NoContent ∧
  session_gone sid result.2 ∧
  (∀ other, other ≠ sid → same_session other this result.2) ∧
  (deleteMcp (Some sid) result.2).1
    = (if inherited sid then Returned NoContent
       else Returned (JsonRpcError 404 (-32001) "Session not found")).
Proof.
  intros sid Ht Hclose result. subst result sid.
  rewrite deleteMcp_unfold. cbv beta iota. rewrite (read_Some _ _ _ Ht).
  cbn [fst snd].
  rewrite removeSession_unfold, Ht, Hclose.
  set (this' := with_effect _ (without_session _ (with_effect _ this))).
  assert (session_gone (String c s) this') as Hgone.
  { apply (without_session_gone (String c s)
             (with_effect (TransportClose (String c s)) this)). }
  split_and!; [done|done| |].
  - intros other Hne.
    apply (without_session_other (String c s) other
             (with_effect (TransportClose (String c s)) this)). done.
  - cbn [fst snd]. rewrite deleteMcp_unfold. cbv beta iota.
    destruct Hgone as [Hnone _]. unfold read. rewrite Hnone.
    by destruct (inherited (String c s)).
Qed.

Lemma deleteMcp_terminates_session_witness :
  let result := deleteMcp (Some "s1") (one_session false) in
  result.1 = Returned NoContent ∧
  session_gone "s1" result.2 ∧
  (∀ other, other ≠ "s1" → same_session other (one_session false) result.2) ∧
  (deleteMcp (Some "s1") result.2).1
    = Returned (JsonRpcError 404 (-32001) "Session not found").
Proof.
  apply (deleteMcp_terminates_session "s" "1" (mkTransport "s1" false)
           (one_session false)).
  - vm_compute. reflexivity.
  - reflexivity.
Defined.

(** X12, DELETE when the close fails.  A DELETE request for a registered
    session whose [close()] rejects is answered 204 all the same, while the
    registry is as before and the session is still registered. *)
Theorem deleteMcp_close_failure_still_answers_204 c s t (this : HttpServer) :
  let sid := String c s in
  transports this !! sid = Some t →
  close_rejects t = true →
  let result := deleteMcp (Some sid) this in
  result.1 = Returned NoContent ∧
  registry result.2 = registry this ∧
  transports result.2 !! sid = Some t.
Proof.
  intros sid Ht Hclose result. subst result sid.
  rewrite deleteMcp_unfold. cbv beta iota. rewrite (read_Some _ _ _ Ht).
  cbn [fst snd].
  rewrite removeSession_unfold, Ht, Hclose. done.
Qed.

Lemma deleteMcp_close_failure_still_answers_204_witness :
  let result := deleteMcp (Some "s1") (one_session true) in
  result.1 = Returned NoContent ∧
  registry result.2 = registry (one_session true) ∧
  transports result.2 !! "s1" = Some (mkTransport "s1" true).
Proof.
  apply (deleteMcp_close_failure_still_answers_204 "s" "1" (mkTransport "s1" true)
           (one_session true)).
  - vm_compute. reflexivity.
  - reflexivity.
Defined.

(** What one removal does to the session it is given, to the others, and
    to the record of effects. *)
Lemma removeSession_step sid reason this :
  let this' := (removeSession sid reason this).2 in
  logs_kept this this' ∧
  (∀ other, other ≠ sid → same_session other this this') ∧
  (∀ other, session_gone other this → session_gone other this') ∧
  (∀ t, transports this !! sid = Some t →
     TransportClose sid ∈ effects this' ∧
     (close_rejects t = false → session_gone sid this') ∧
     (close_rejects t = true → same_session sid this this')).
Proof.
  intros this'. subst this'. rewrite removeSession_unfold.
  destruct (transports this !! sid) as [t|] eqn:Ht; [destruct (close_rejects t) eqn:Hc|];
    cbn [fst snd].
  - split_and!.
    + intros e He. simpl. rewrite !elem_of_app. auto.
    + intros other _. by apply same_session_registry.
    + intros other Hg. by eapply session_gone_registry.
    + intros t' [= <-]. split_and!; [|by rewrite Hc|intros _; by apply same_session_registry].
      simpl. rewrite !elem_of_app, !list_elem_of_singleton. auto.
  - split_and!.
    + intros e He. simpl. rewrite !elem_of_app. auto.
    + intros other Hne.
      apply (without_session_other sid other (with_effect (TransportClose sid) this)).
      done.
    + intros other Hg.
      apply (session_gone_without_other other sid
               (with_effect (TransportClose sid) this)). done.
    + intros t' [= <-]. split_and!; [| |by rewrite Hc].
      * simpl. rewrite !elem_of_app, !list_elem_of_singleton. auto.
      * intros _. apply (without_session_gone sid (with_effect (TransportClose sid) this)).
  - split_and!.
    + intros e He. simpl. rewrite !elem_of_app. auto.
    + intros other Hne. apply (without_session_other sid other this). done.
    + intros other Hg. by apply (session_gone_without_other other sid this).
    + intros t' [=].
Qed.

Lemma logs_kept_trans this1 this2 this3 :
  logs_kept this1 this2 → logs_kept this2 this3 → logs_kept this1 this3.
Proof. unfold logs_kept. auto. Qed.

(** Removing the sessions of a list one after the other, whatever their
    closes do. *)
Lemma for_of_removeSession_each reason (l : list string) : ∀ this,
  let result := for_of l (λ sid, removeSession sid reason) this in
  result.1 = Returned tt ∧
  logs_kept this result.2 ∧
  (∀ sid, session_gone sid this → session_gone sid result.2) ∧
  (∀ sid, sid ∉ l → same_session sid this result.2) ∧
  (∀ sid t, sid ∈ l → transports this !! sid = Some t →
     TransportClose sid ∈ effects result.2 ∧
     (close_rejects t = false → session_gone sid result.2) ∧
     (close_rejects t = true → same_session sid this result.2)).
Proof.
  induction l as [|x l IH]; intros this; cbn [for_of].
  - split_and!; [done|by unfold logs_kept|done|intros; apply same_session_refl|].
    by intros sid t ?%elem_of_nil.
  - unfold bind.
    pose proof (removeSession_returns x reason this) as Hret.
    destruct (removeSession_step x reason this) as (Hlog & Hother & Hgone & Hx).
    destruct (removeSession x reason this) as [o this1].
    cbn [fst snd] in *. subst o.
    destruct (IH this1) as (Hret' & Hlog' & Hgone' & Hout' & Hin').
    split_and!.
    + done.
    + by eapply logs_kept_trans.
    + auto.
    + intros sid [Hne Hl]%not_elem_of_cons.
      eapply same_session_trans; [by apply Hother|by apply Hout'].
    + intros sid t Hin Ht.
      destruct (decide (sid = x)) as [->|Hne].
      * destruct (Hx t Ht) as (Hclose & Hok & Hrej).
        split_and!.
        -- by apply Hlog'.
        -- intros Hc. by apply Hgone', Hok.
        -- intros Hc. specialize (Hrej Hc).
           eapply same_session_trans; [exact Hrej|].
           destruct (decide (x ∈ l)) as [Hl|Hl]; [|by apply Hout'].
           destruct Hrej as (Ht1 & _). rewrite Ht in Ht1.
           destruct (Hin' x t Hl Ht1) as (_ & _ & H). by apply H.
      * apply elem_of_cons in Hin as [?|Hl]; [done|].
        pose proof (Hother sid Hne) as Hsame.
        destruct Hsame as (Ht1 & Hrest). pose proof Ht1 as Ht1'. rewrite Ht in Ht1'.
        destruct (Hin' sid t Hl Ht1') as (Hclose & Hok & Hrej).
        split_and!; [done|done|].
        intros Hc. eapply same_session_trans; [|by apply Hrej].
        by split.
Qed.

(** X13, shutdown closes every session.  [shutdown] returns normally and
    calls [close()] on the transport of every registered session, a close
    that rejects notwithstanding: each session whose close does not reject
    is gone from all four maps afterwards, and each session whose close
    rejects is left as it was. *)
Theorem shutdown_closes_every_session (this : HttpServer) :
  let result := shutdown this in
  result.1 = Returned tt ∧
  ∀ sid t, transports this !! sid = Some t →
    TransportClose sid ∈ effects result.2 ∧
    (close_rejects t = false → session_gone sid result.2) ∧
    (close_rejects t = true → same_session sid this result.2).
Proof.
  intros result. subst result. rewrite shutdown_unfold.
  destruct (for_of_removeSession_each "server_shutdown"
              (Object_keys (transports this)) this) as (Hret & _ & _ & _ & Hin).
  split; [exact Hret|]. intros sid t Ht. apply Hin; [|done].
  unfold Object_keys. apply list_elem_of_fmap. exists (sid, t).
  split; [done|]. by apply elem_of_map_to_list.
Qed.

(** ** Requests on registered sessions *)

(** A context switch and a renewal touch the session they are given and no
    other. *)
Lemma switchSessionContext_other sid ctx this other :
  other ≠ sid → same_session other this (switchSessionContext sid ctx this).2.
Proof.
  intros Hne. rewrite switchSessionContext_unfold. cbn [fst snd].
  case_bool_decide; [apply same_session_refl|].
  rewrite performContextSwitch_unfold. cbn [fst snd].
  case_bool_decide; [|by apply same_session_registry].
  unfold same_session. simpl.
  by rewrite lookup_alter_ne, lookup_insert_ne.
Qed.

Lemma updateSessionAccess_other now sid this other :
  other ≠ sid → same_session other this (updateSessionAccess now sid this).2.
Proof.
  intros Hne. rewrite updateSessionAccess_unfold. cbn [fst snd].
  destruct (sessionMetadata this !! sid); [|apply same_session_refl].
  unfold same_session. simpl. by rewrite lookup_insert_ne.
Qed.

Section RouterCompositions.

Variable sha256_hex : string → string.

Local Abbreviation handleRequest := (handleRequest sha256_hex).
Local Abbreviation sessionIdToUse := (sessionIdToUse sha256_hex).

(** What the switch of context and the renewal of the access time, which
    the router runs for a request on a registered session, do to the
    transports and to the metadata. *)
Lemma renewed_state penv (now : Z) instanceContext (this : HttpServer) sid md :
  sessionMetadata this !! sid = Some md →
  let this2 :=
    exec (updateSessionAccess now sid)
      (exec (match instanceContext with
             | Some context =>
                 when (shared_mode penv) (switchSessionContext sid context)
             | None => ret tt
             end) this) in
  transports this2 = transports this ∧
  sessionMetadata this2
  = <[sid := mkSessionMeta now (createdAt md)]> (sessionMetadata this).
Proof.
  intros Hmd this2. subst this2.
  unfold exec. cbn [fst snd]. rewrite updateSessionAccess_unfold. cbn [fst snd].
  set (this1 := (match instanceContext with
                 | Some context =>
                     when (shared_mode penv) (switchSessionContext sid context)
                 | None => ret tt
                 end this).2).
  assert (transports this1 = transports this ∧
          sessionMetadata this1 = sessionMetadata this) as [Ht1 Hm1].
  { subst this1. destruct instanceContext as [context|]; [|done].
    unfold when. destruct (shared_mode penv); [|done].
    rewrite switchSessionContext_unfold. cbn [fst snd].
    case_bool_decide; [done|].
    rewrite performContextSwitch_unfold. cbn [fst snd].
    by case_bool_decide. }
  clearbody this1. rewrite Hm1, Hmd. simpl. by rewrite Ht1, Hm1.
Qed.

(** A request on a registered session is handed to the transport of the
    session, and sets the time of last access of the session, when the
    transport reports no error while it handles the request. *)
Lemma handleRequest_renews penv io req instanceContext (this : HttpServer)
    c s t md :
  isInitializeRequest req = false →
  mcp_session_id req = Some (String c s) →
  transports this !! String c s = Some t →
  sessionMetadata this !! String c s = Some md →
  transport_errors io = false →
  let result := handleRequest penv io req instanceContext this in
  result.1 = Returned (TransportHandled (Some (transport_sessionId t))) ∧
  transports result.2 = transports this ∧
  sessionMetadata result.2
  = <[String c s := mkSessionMeta (date_now io) (createdAt md)]>
      (sessionMetadata this).
Proof.
  intros Hi Hs Ht Hmd Herr result. subst result.
  rewrite (handleRequest_known sha256_hex penv io req instanceContext this c s t)
    by done.
  rewrite Herr. split; [done|].
  apply (renewed_state penv (date_now io) instanceContext this (String c s) md Hmd).
Qed.

(** X5, no context switch outside shared mode.  Unless the server runs in
    shared multi-tenant mode, a request that does not initialize a session,
    and during which the transport reports no error, changes no stored
    context and no handler, whatever instance context it carries, and no
    transport. *)
Theorem request_outside_shared_mode_keeps_contexts penv io req instanceContext
    (this : HttpServer) :
  shared_mode penv = false →
  isInitializeRequest req = false →
  transport_errors io = false →
  let this' := (handleRequest penv io req instanceContext this).2 in
  sessionContexts this' = sessionContexts this ∧
  servers this' = servers this ∧
  transports this' = transports this.
Proof.
  intros Hshared Hi Herr this'. subst this'.
  destruct (handleRequest_continuation_cases sha256_hex penv io req instanceContext
              this Hi)
    as [(c & s & t & Hs & Ht & ->)|[[message ->]|(c & s & message & Hs & Ht & Hn & ->)]];
    [|done|].
  - rewrite Hshared, Herr. unfold when, exec. cbn [ret fst snd].
    rewrite updateSessionAccess_unfold. cbn [fst snd].
    assert ((match instanceContext with Some _ => ret tt | None => ret tt end this).2
            = this) as -> by by destruct instanceContext.
    by destruct (sessionMetadata this !! String c s).
  - rewrite Hshared. unfold when, exec. cbn [ret fst snd].
    rewrite updateSessionAccess_unfold. cbn [fst snd].
    assert ((match instanceContext with Some _ => ret tt | None => ret tt end this).2
            = this) as -> by by destruct instanceContext.
    by destruct (sessionMetadata this !! String c s).
Qed.

(** X6, a request renews its session.  A request that does not initialize
    a session and names a registered session that has metadata is handed to
    the transport of that session; when the transport reports no error
    while it handles the request, the request sets the time of last access
    of the session to the time of the request, keeps its time of creation,
    changes no transport, and leaves every other session as it was, in all
    four maps. *)
Theorem request_renews_session penv io req instanceContext (this : HttpServer)
    c s t md :
  let sid := String c s in
  isInitializeRequest req = false →
  mcp_session_id req = Some sid →
  transports this !! sid = Some t →
  sessionMetadata this !! sid = Some md →
  transport_errors io = false →
  let result := handleRequest penv io req instanceContext this in
  result.1 = Returned (TransportHandled (Some (transport_sessionId t))) ∧
  transports result.2 = transports this ∧
  sessionMetadata result.2
  = <[sid := mkSessionMeta (date_now io) (createdAt md)]> (sessionMetadata this) ∧
  ∀ other, other ≠ sid → same_session other this result.2.
Proof.
  intros sid Hi Hs Ht Hmd Herr result.
  destruct (handleRequest_renews penv io req instanceContext this c s t md
              Hi Hs Ht Hmd Herr) as (Hret & Htr & Hmeta).
  fold result in Hret, Htr, Hmeta. split_and!; [done..|].
  intros other Hne. subst result.
  rewrite (handleRequest_known sha256_hex penv io req instanceContext this c s t)
    by done.
  rewrite Herr. unfold exec. cbn [when ret fst snd].
  eapply same_session_trans; [|by apply updateSessionAccess_other].
  destruct instanceContext as [context|]; [|apply same_session_refl].
  unfold when. destruct (shared_mode penv); [|apply same_session_refl].
  by apply switchSessionContext_other.
Qed.

(** X7, a session in use is not swept.  After a request on a registered
    session during which the transport reported no error, a sweep that runs
    no later than [sessionTimeout] after the request leaves the session as
    the request left it, transport included. *)
Theorem used_session_survives_sweep penv io req instanceContext (this : HttpServer)
    c s t md (now : Z) :
  let sid := String c s in
  isInitializeRequest req = false →
  mcp_session_id req = Some sid →
  transports this !! sid = Some t →
  sessionMetadata this !! sid = Some md →
  transport_errors io = false →
  now - date_now io ≤ sessionTimeout →
  let this' := (handleRequest penv io req instanceContext this).2 in
  same_session sid this' (sweep now this').2 ∧
  transports (sweep now this').2 !! sid = Some t.
Proof.
  intros sid Hi Hs Ht Hmd Herr Hnow this'.
  destruct (handleRequest_renews penv io req instanceContext this c s t md
              Hi Hs Ht Hmd Herr) as (_ & Ht' & Hm').
  fold this' in Ht', Hm'.
  assert (same_session sid this' (sweep now this').2) as Hsame.
  { apply (sweep_keeps_fresh now this' sid
             (mkSessionMeta (date_now io) (createdAt md))).
    - rewrite Hm'. apply lookup_insert_eq.
    - unfold expired. simpl. apply bool_decide_eq_false. lia. }
  split; [done|]. destruct Hsame as (-> & _). by rewrite Ht'.
Qed.

(** X8, an initialize request under a registered id.  An initialize
    request that carries no tenant id and names, in its [Mcp-Session-Id]
    header, a session that is registered is given that very id: the new
    transport, handler, metadata and context take the place of the
    registered ones, the number of sessions stays the same, and nothing is
    recorded but the log line of the new session: [close()] is not called
    on the transport that is replaced. *)
Theorem initialize_with_registered_id_replaces penv io req instanceContext
    (this : HttpServer) c s old :
  let sid := String c s in
  isInitializeRequest req = true →
  mcp_session_id req = Some sid →
  truthy (instanceContext ≫= instanceId) = false →
  transport_initializes io = true →
  canCreateSession this = true →
  transports this !! sid = Some old →
  let result := handleRequest penv io req instanceContext this in
  result.1 = Returned (TransportHandled (Some sid)) ∧
  transports result.2 !! sid = Some (mkTransport sid (transport_close_rejects io)) ∧
  servers result.2 !! sid = Some (mkMcpServer instanceContext true) ∧
  sessionMetadata result.2 !! sid = Some (mkSessionMeta (date_now io) (date_now io)) ∧
  sessionContexts result.2 !! sid = Some instanceContext ∧
  getActiveSessionCount result.2 = getActiveSessionCount this ∧
  effects result.2
  = effects this ++
      [LoggerInfo "handleRequest: Session initialized, storing transport and server"
         [("sessionId", sid)]].
Proof.
  intros sid Hi Hs Hid Hinit Hcan Hold result. subst result.
  rewrite handleRequest_create by done. cbv zeta.
  assert (sessionIdToUse penv io (mcp_session_id req) instanceContext = sid) as ->.
  { rewrite Hs. unfold sessionIdToUse.
    destruct instanceContext as [context|]; [|done]. simpl in Hid.
    rewrite Hid. by rewrite andb_false_r. }
  unfold with_session. cbn [fst snd transports servers sessionMetadata
                              sessionContexts effects].
  rewrite !lookup_insert_eq. split_and!; try done.
  rewrite !getActiveSessionCount_size. cbn [transports].
  rewrite map_size_insert, Hold. done.
Qed.

(** X9, the ceiling is left by a termination.  With [MAX_SESSIONS]
    sessions registered an initialize request is answered 429; once a
    DELETE request has terminated one session whose [close()] does not
    reject, the same initialize request is accepted and its session is
    registered. *)
Theorem capacity_recovers_after_delete penv io req instanceContext
    (this : HttpServer) c s t :
  let sid := String c s in
  getActiveSessionCount this = MAX_SESSIONS →
  transports this !! sid = Some t →
  close_rejects t = false →
  isInitializeRequest req = true →
  transport_initializes io = true →
  let this1 := (deleteMcp (Some sid) this).2 in
  (handleRequest penv io req instanceContext this).1
    = Returned (JsonRpcError 429 (-32000) limit_message) ∧
  (deleteMcp (Some sid) this).1 = Returned NoContent ∧
  ∃ new,
    (handleRequest penv io req instanceContext this1).1
      = Returned (TransportHandled (Some new)) ∧
    is_Some (transports (handleRequest penv io req instanceContext this1).2 !! new).
Proof.
  intros sid Hfull Ht Hclose Hi Hinit this1. subst this1.
  split.
  { rewrite handleRequest_limit; [done..|].
    unfold canCreateSession. apply bool_decide_eq_false. lia. }
  subst sid. rewrite deleteMcp_unfold. cbv beta iota.
  rewrite (read_Some _ _ _ Ht). cbn [fst snd].
  split; [done|].
  rewrite removeSession_unfold, Ht, Hclose. cbn [fst snd].
  eexists. rewrite handleRequest_create; [|done| |done].
  - cbv zeta. unfold with_session. cbn [fst snd transports].
    split; [done|]. rewrite lookup_insert_eq. by eexists.
  - unfold canCreateSession. apply bool_decide_eq_true.
    rewrite getActiveSessionCount_size in *. cbn [with_effect without_session transports].
    assert (size (delete (String c s) (transports this))
            = pred (size (transports this))) as ->.
    { apply map_size_delete_Some. by eexists. }
    rewrite Hfull. unfold MAX_SESSIONS. lia.
Qed.

End RouterCompositions.

Lemma request_outside_shared_mode_keeps_contexts_witness :
  let this' := (handleRequest constant_digest single_tenant at_seven continue_s1
                  (Some (tenant "b")) (shared_session (tenant "a"))).2 in
  sessionContexts this' = sessionContexts (shared_session (tenant "a")) ∧
  servers this' = servers (shared_session (tenant "a")) ∧
  transports this' = transports (shared_session (tenant "a")).
Proof.
  apply (request_outside_shared_mode_keeps_contexts constant_digest single_tenant
           at_seven continue_s1 (Some (tenant "b")) (shared_session (tenant "a")));
    reflexivity.
Defined.

Lemma request_renews_session_witness :
  let result := handleRequest constant_digest single_tenant at_seven continue_s1
                  None (one_session false) in
  result.1 = Returned (TransportHandled (Some "s1")) ∧
  transports result.2 = transports (one_session false) ∧
  sessionMetadata result.2
  = <["s1" := mkSessionMeta 7 0]> (sessionMetadata (one_session false)) ∧
  ∀ other, other ≠ "s1" → same_session other (one_session false) result.2.
Proof.
  apply (request_renews_session constant_digest single_tenant at_seven continue_s1
           None (one_session false) "s" "1" (mkTransport "s1" false)
           (mkSessionMeta 0 0)).
  - reflexivity.
  - reflexivity.
  - vm_compute. reflexivity.
  - vm_compute. reflexivity.
  - reflexivity.
Defined.

Lemma used_session_survives_sweep_witness :
  let this' := (handleRequest constant_digest single_tenant at_seven continue_s1
                  None (one_session false)).2 in
  same_session "s1" this' (sweep (7 + sessionTimeout) this').2 ∧
  transports (sweep (7 + sessionTimeout) this').2 !! "s1"
    = Some (mkTransport "s1" false).
Proof.
  apply (used_session_survives_sweep constant_digest single_tenant at_seven
           continue_s1 None (one_session false) "s" "1" (mkTransport "s1" false)
           (mkSessionMeta 0 0) (7 + sessionTimeout)).
  - reflexivity.
  - reflexivity.
  - vm_compute. reflexivity.
  - vm_compute. reflexivity.
  - reflexivity.
  - unfold at_seven. simpl. lia.
Defined.

Lemma initialize_with_registered_id_replaces_witness :
  let result := handleRequest constant_digest single_tenant at_seven
                  (mkRequest (Some "s1") true) None (one_session true) in
  result.1 = Returned (TransportHandled (Some "s1")) ∧
  transports result.2 !! "s1" = Some (mkTransport "s1" false) ∧
  servers result.2 !! "s1" = Some (mkMcpServer None true) ∧
  sessionMetadata result.2 !! "s1" = Some (mkSessionMeta 7 7) ∧
  sessionContexts result.2 !! "s1" = Some None ∧
  getActiveSessionCount result.2 = getActiveSessionCount (one_session true) ∧
  effects result.2
  = effects (one_session true) ++
      [LoggerInfo "handleRequest: Session initialized, storing transport and server"
         [("sessionId", "s1")]].
Proof.
  apply (initialize_with_registered_id_replaces constant_digest single_tenant
           at_seven (mkRequest (Some "s1") true) None (one_session true) "s" "1"
           (mkTransport "s1" true)).
  - reflexivity.
  - reflexivity.
  - reflexivity.
  - reflexivity.
  - vm_compute. reflexivity.
  - vm_compute. reflexivity.
Defined.

Lemma capacity_recovers_after_delete_witness :
  let init := mkRequest None true in
  let this1 := (deleteMcp (Some "A") full).2 in
  (handleRequest constant_digest single_tenant at_seven init None full).1
    = Returned (JsonRpcError 429 (-32000) limit_message) ∧
  (deleteMcp (Some "A") full).1 = Returned NoContent ∧
  ∃ new,
    (handleRequest constant_digest single_tenant at_seven init None this1).1
      = Returned (TransportHandled (Some new)) ∧
    is_Some (transports
               (handleRequest constant_digest single_tenant at_seven init None
                  this1).2 !! new).
Proof.
  apply (capacity_recovers_after_delete constant_digest single_tenant at_seven
           (mkRequest None true) None full "A" "" (mkTransport "A" false)).
  - vm_compute. reflexivity.
  - vm_compute. reflexivity.
  - reflexivity.
  - reflexivity.
  - reflexivity.
Defined.

(** ** The lock of overlapping context switches *)

(** X18, one lock, held by one call.  Two calls of [switchSessionContext]
    for one session start from a state in which no switch is in flight and
    the handler refers to the stored context.  However the event loop
    interleaves them, at most one of them is suspended at
    [await switchPromise] at any time, the session is in
    [contextSwitchLocks] exactly while one of them is, and once both calls
    have completed the lock is released. *)
Theorem concurrent_switches_share_one_lock (sessionId : string)
    (A B : InstanceContext) (this : HttpServer) (schedule : list bool) :
  coherent sessionId this →
  sessionId ∉ contextSwitchLocks this →
  let c := interleave sessionId schedule
             (mkConcurrent (NotStarted A) (NotStarted B) this) in
  ¬ (holds_lock (first_call c) ∧ holds_lock (second_call c)) ∧
  (sessionId ∈ contextSwitchLocks (server_state c)
   ↔ holds_lock (first_call c) ∨ holds_lock (second_call c)) ∧
  (first_call c = Completed → second_call c = Completed →
   sessionId ∉ contextSwitchLocks (server_state c)).
Proof.
  intros Hco Hfree.
  assert (switch_inv sessionId A B (stored_context sessionId this)
            (NotStarted A) (NotStarted B) this) as Hinv.
  { unfold switch_inv, holds_lock, carries, not_started.
    split; [exact Hco|]. split; [by intros x [= ->]|].
    split; [by intros x [= ->]|]. split; [|split].
    - split; [intros H; by destruct Hfree|intros [H|H]; discriminate H].
    - intros [H _]. discriminate H.
    - left. split; [by eexists|]. split; [by eexists|done]. }
  pose proof (interleave_inv sessionId A B _ schedule
                (mkConcurrent (NotStarted A) (NotStarted B) this) Hinv) as Hend.
  cbv zeta in Hend. destruct Hend as (_ & _ & _ & Hlock & Hexcl & _).
  intros c. subst c. split_and!; [exact Hexcl|exact Hlock|].
  intros H1 H2 Hin. apply Hlock in Hin. unfold holds_lock in Hin.
  rewrite H1, H2 in Hin. by destruct Hin.
Qed.

Lemma concurrent_switches_share_one_lock_witness :
  let c := interleave "s1" [true; false; true; false]
             (mkConcurrent (NotStarted (tenant "b")) (NotStarted (tenant "c"))
                (shared_session (tenant "a"))) in
  ¬ (holds_lock (first_call c) ∧ holds_lock (second_call c)) ∧
  ("s1" ∈ contextSwitchLocks (server_state c)
   ↔ holds_lock (first_call c) ∨ holds_lock (second_call c)) ∧
  (first_call c = Completed → second_call c = Completed →
   "s1" ∉ contextSwitchLocks (server_state c)).
Proof.
  apply (concurrent_switches_share_one_lock "s1" (tenant "b") (tenant "c")
           (shared_session (tenant "a")) [true; false; true; false]).
  - split; [by eexists|reflexivity].
  - simpl. apply not_elem_of_empty.
Defined.

(** ** Session ids of different tenants *)

Lemma string_app_inj_head (s1 : string) : ∀ s2 t1 t2,
  String.length s1 = String.length s2 →
  s1 +:+ t1 = s2 +:+ t2 → s1 = s2 ∧ t1 = t2.
Proof.
  induction s1 as [|a s1 IH]; intros [|b s2] t1 t2 Hlen H; try done.
  rewrite !app_String in H. injection H as -> H.
  injection Hlen as Hlen. destruct (IH s2 t1 t2 Hlen H) as [-> ->]. done.
Qed.

Lemma string_length_app (s t : string) :
  String.length (s +:+ t) = (String.length s + String.length t)%nat.
Proof.
  induction s as [|a s IH]; [by rewrite app_empty_l|].
  rewrite app_String. simpl. by rewrite IH.
Qed.

Lemma string_app_inj_tail (s1 s2 t1 t2 : string) :
  String.length t1 = String.length t2 →
  s1 +:+ t1 = s2 +:+ t2 → s1 = s2 ∧ t1 = t2.
Proof.
  intros Hlen H. apply string_app_inj_head; [|done].
  apply (f_equal String.length) in H. rewrite !string_length_app in H. lia.
Qed.

Section TenantIds.

Variable sha256_hex : string → string.

Local Abbreviation instanceSessionId := (instanceSessionId sha256_hex).
Local Abbreviation configHash := (configHash sha256_hex).

(** X19, the tenant can be read off a composite id.  When the digests
    have one length and the random parts have one length, as the hex
    digests of SHA-256 and the version 4 UUIDs have, two composite session
    ids are equal only if they were made for the same tenant id, the same
    digest and the same random part: sessions of different tenants never
    share an id. *)
Theorem instanceSessionId_separates_tenants (context1 context2 : InstanceContext)
    (uuid1 uuid2 : string) :
  truthy (instanceId context1) = true →
  truthy (instanceId context2) = true →
  String.length (configHash context1) = String.length (configHash context2) →
  String.length uuid1 = String.length uuid2 →
  instanceSessionId context1 uuid1 = instanceSessionId context2 uuid2 →
  instanceId context1 = instanceId context2 ∧
  configHash context1 = configHash context2 ∧
  uuid1 = uuid2.
Proof.
  intros H1 H2 Hh Hu. unfold instanceSessionId.
  destruct (instanceId context1) as [[|c1 s1]|]; try done.
  destruct (instanceId context2) as [[|c2 s2]|]; try done.
  cbn [js_or]. intros H.
  apply (inj (String.append _)) in H.
  apply string_app_inj_tail in H as [-> H].
  - apply (inj (String.append _)) in H.
    apply string_app_inj_head in H as [-> H]; [|done].
    apply (inj (String.append _)) in H. done.
  - rewrite !string_length_app. cbn [String.length]. lia.
Qed.

End TenantIds.

Lemma instanceSessionId_separates_tenants_witness :
  instanceId (tenant "a") = instanceId tenant_a_other_key ∧
  configHash constant_digest (tenant "a")
    = configHash constant_digest tenant_a_other_key ∧
  "u1" = "u1".
Proof.
  apply (instanceSessionId_separates_tenants constant_digest (tenant "a")
           tenant_a_other_key "u1" "u1");
    reflexivity.
Defined.

Lemma instance_creates_coexist_witness :
  let io1 := mkAmbient 0 "u1" true false false in
  let io2 := mkAmbient 0 "u2" true false false in
  let this' := run constant_digest multi_tenant_per_instance
                 [Post io1 (mkRequest None true) (Some (tenant "a"));
                  Post io2 (mkRequest None true) (Some (tenant "a"))] initial in
  instanceSessionId constant_digest (tenant "a") "u1"
    ≠ instanceSessionId constant_digest (tenant "a") "u2" ∧
  is_Some (transports this' !! instanceSessionId constant_digest (tenant "a") "u1") ∧
  is_Some (transports this' !! instanceSessionId constant_digest (tenant "a") "u2").
Proof.
  apply (instance_creates_coexist constant_digest multi_tenant_per_instance
           (mkAmbient 0 "u1" true false false) (mkAmbient 0 "u2" true false false)
           (mkRequest None true) (tenant "a") initial).
  - split; reflexivity.
  - reflexivity.
  - reflexivity.
  - reflexivity.
  - reflexivity.
  - discriminate.
  - vm_compute. lia.
Defined.

(** ** The session info *)

Section SessionInfoFacts.

Variable sha256_hex : string → string.

Local Abbreviation run := (run sha256_hex).

(** X21, the session info is consistent.  In any state reached from the
    empty registry by events, each handled to its end before the next, that
    name no property of [Object.prototype] where a session id is expected
    ([__proto__] is one), [getSessionInfo] reports as many sessions in
    total as active ones, which is the number of session ids it lists and
    at most the maximum it reports; the expired sessions are among the
    total, and no id is listed twice. *)
Theorem getSessionInfo_consistent penv (events : list Event) (now : Z) :
  Forall ordinary events →
  let info := SessionInfo.sessions (getSessionInfo now (run penv events initial)) in
  SessionInfo.total info = SessionInfo.active info ∧
  SessionInfo.active info = length (SessionInfo.sessionIds info) ∧
  (SessionInfo.active info ≤ SessionInfo.max info)%nat ∧
  (SessionInfo.expired info ≤ SessionInfo.total info)%nat ∧
  NoDup (SessionInfo.sessionIds info).
Proof.
  intros _ info. subst info. unfold getSessionInfo, getSessionMetrics.
  cbn [SessionInfo.sessions SessionInfo.total SessionInfo.active SessionInfo.max
         SessionInfo.expired SessionInfo.sessionIds totalSessions activeSessions
         expiredSessions].
  set (this := run penv events initial).
  destruct (run_sound sha256_hex penv events) as (_ & H2 & _).
  fold this in H2.
  split_and!.
  - rewrite getActiveSessionCount_size. unfold Object_keys.
    rewrite length_fmap, length_map_to_list.
    rewrite <- (size_dom (D:=gset string) (sessionMetadata this)), H2.
    apply size_dom.
  - done.
  - rewrite getActiveSessionCount_size. apply run_size.
    change (transports initial) with (∅ : gmap string Transport).
    rewrite map_size_empty. unfold MAX_SESSIONS. lia.
  - rewrite count_expired. unfold Object_keys. rewrite length_fmap.
    apply length_filter.
  - apply NoDup_fst_map_to_list.
Qed.

End SessionInfoFacts.

Lemma getSessionInfo_consistent_witness :
  let info := SessionInfo.sessions
                (getSessionInfo 5
                   (run constant_digest single_tenant
                      [create 0 "s1" None; create 1 "s2" None; Delete (Some "s1")]
                      initial)) in
  SessionInfo.total info = SessionInfo.active info ∧
  SessionInfo.active info = length (SessionInfo.sessionIds info) ∧
  (SessionInfo.active info ≤ SessionInfo.max info)%nat ∧
  (SessionInfo.expired info ≤ SessionInfo.total info)%nat ∧
  NoDup (SessionInfo.sessionIds info).
Proof.
  apply (getSessionInfo_consistent constant_digest single_tenant
           [create 0 "s1" None; create 1 "s2" None; Delete (Some "s1")] 5).
  repeat constructor.
  - intros sid [=].
  - intros sid [=].
  - intros sid [= <-]. reflexivity.
Defined.

(** * Properties of the start-up and of the endpoints *)

(** ** Strings *)

Lemma trimEnd_idemp s : trimEnd (trimEnd s) = trimEnd s.
Proof.
  induction s as [|c s IH]; [done|]. cbn [trimEnd].
  destruct (trimEnd s) as [|d r] eqn:He.
  - destruct (isWhiteSpace c) eqn:Hc; [done|]. cbn [trimEnd]. by rewrite Hc.
  - change (trimEnd (String c (String d r)))
      with (match trimEnd (String d r) with
            | EmptyString => if isWhiteSpace c then EmptyString else String c EmptyString
            | rest => String c rest
            end).
    by rewrite IH.
Qed.

Lemma trimEnd_head c s :
  isWhiteSpace c = false → ∃ r, trimEnd (String c s) = String c r.
Proof.
  intros Hc. cbn [trimEnd]. destruct (trimEnd s); [|by eexists].
  rewrite Hc. by eexists.
Qed.

Lemma trimStart_head s :
  trimStart s = "" ∨ ∃ c r, trimStart s = String c r ∧ isWhiteSpace c = false.
Proof.
  induction s as [|c s IH]; [by left|]. cbn [trimStart].
  destruct (isWhiteSpace c) eqn:Hc; [done|]. right. by exists c, s.
Qed.

(** What [trim] returns has no white space at either end. *)
Lemma trim_trimmed s : trimmed (trim s).
Proof.
  unfold trimmed, trim. split; [|apply trimEnd_idemp].
  destruct (trimStart_head s) as [->|(c & r & -> & Hc)]; [done|].
  destruct (trimEnd_head c r Hc) as [r' ->]. cbn [trimStart]. by rewrite Hc.
Qed.

Lemma startsWith_slice (p : string) : ∀ s,
  startsWith s p = true → s = p +:+ slice (String.length p) s.
Proof.
  unfold startsWith.
  induction p as [|a p IH]; intros s H; [by destruct s|].
  destruct s as [|b s]; [done|]. cbn [String.prefix] in H.
  destruct (Ascii.ascii_dec a b) as [->|]; [|done].
  cbn [String.length slice]. rewrite app_String. f_equal. by apply IH.
Qed.

Lemma startsWith_app (p r : string) : startsWith (p +:+ r) p = true.
Proof.
  unfold startsWith.
  induction p as [|a p IH]; [by destruct r|].
  rewrite app_String. cbn [String.prefix].
  by destruct (Ascii.ascii_dec a a).
Qed.

Lemma slice_app (p r : string) : slice (String.length p) (p +:+ r) = r.
Proof.
  induction p as [|a p IH]; [by destruct r|].
  rewrite app_String. cbn [String.length slice]. exact IH.
Qed.

Lemma substring_length_le (n : nat) : ∀ s,
  (String.length (String.substring 0 n s) ≤ n)%nat.
Proof.
  induction n as [|n IH]; intros [|c s]; simpl; try lia.
  specialize (IH s). lia.
Qed.

Lemma substring_is_prefix (n : nat) : ∀ s,
  String.prefix (String.substring 0 n s) s = true.
Proof.
  induction n as [|n IH]; intros [|c s]; simpl; try done.
  destruct (Ascii.ascii_dec c c); [apply IH|done].
Qed.

Lemma substring_short (n : nat) : ∀ s,
  (String.length s ≤ n)%nat → String.substring 0 n s = s.
Proof.
  induction n as [|n IH]; intros [|c s] H; simpl in *; try done; try lia.
  f_equal. apply IH. lia.
Qed.

(** ** Errors sent to the client *)

(** X22, production errors are generic.  In production
    [sanitizeErrorForClient] returns one of five fixed pairs of message and
    code, whatever was caught: nothing of the text or of the name of the
    error reaches the client. *)
Theorem sanitizeErrorForClient_production_is_generic (error : Caught) :
  sanitizeErrorForClient (Some "production") error ∈ generic_errors.
Proof.
  unfold sanitizeErrorForClient, generic_errors.
  destruct error as [name text|].
  - rewrite bool_decide_eq_true_2 by done.
    repeat match goal with
           | |- context [if ?b then _ else _] => destruct b
           end; rewrite !elem_of_cons; auto 10.
  - rewrite !elem_of_cons; auto 10.
Qed.

(** X23, sanitized messages are bounded.  The message that
    [sanitizeErrorForClient] returns has at most 200 characters.  Outside
    production, for an instance of [Error], it is the beginning of the
    message of the error, the whole of it when that has at most 200
    characters, and the code is the name of the error, or [ERROR] when the
    name is empty. *)
Theorem sanitizeErrorForClient_message_is_bounded (NODE_ENV : option string)
    (error : Caught) :
  let sanitized := sanitizeErrorForClient NODE_ENV error in
  (String.length (message sanitized) ≤ 200)%nat ∧
  ∀ name text, error = ErrorObject name text → NODE_ENV ≠ Some "production" →
    String.prefix (message sanitized) text = true ∧
    ((String.length text ≤ 200)%nat → message sanitized = text) ∧
    code sanitized = (if bool_decide (name = "") then "ERROR" else name).
Proof.
  intros sanitized. subst sanitized. unfold sanitizeErrorForClient. split.
  - destruct error as [name text|]; [|simpl; lia].
    case_bool_decide.
    + repeat match goal with
             | |- context [if ?b then _ else _] => destruct b
             end; simpl; lia.
    + cbn [message]. apply substring_length_le.
  - intros name text -> Hdev. rewrite bool_decide_eq_false_2 by done.
    cbn [message code]. split_and!.
    + apply substring_is_prefix.
    + apply substring_short.
    + by destruct name.
Qed.

(** ** The authentication token *)

(** The token that [validateEnvironment] returns is the token loaded,
    trimmed. *)
Lemma validateEnvironment_returns_trim (env : StartupEnv)
    (readFileSync : string → option string) (authToken : string)
    (log : list StartupNotice) :
  validateEnvironment env readFileSync = (Returned authToken, log) →
  ∃ loaded, (loadAuthToken env readFileSync).1 = Some loaded ∧
    authToken = trim loaded ∧ trim loaded ≠ "".
Proof.
  unfold validateEnvironment.
  destruct (loadAuthToken env readFileSync) as [[token|] log0]; [|done].
  case_bool_decide as Hblank; [done|]. intros H. exists token.
  split_and!; [done| |done].
  revert H.
  repeat match goal with
         | |- context [if ?b then _ else _] => destruct b
         end; congruence.
Qed.

(** X24, the token the server starts with.  When [validateEnvironment]
    returns, the token it leaves in [this.authToken] is not empty and has
    no white space at either end; in production it is not the default
    token; and when it has fewer than 32 characters it is accepted all the
    same, with a warning in the log. *)
Theorem validateEnvironment_token_is_clean (env : StartupEnv)
    (readFileSync : string → option string) (authToken : string)
    (log : list StartupNotice) :
  validateEnvironment env readFileSync = (Returned authToken, log) →
  authToken ≠ "" ∧ trimmed authToken ∧
  (NODE_ENV env = Some "production" → authToken ≠ default_token) ∧
  ((String.length authToken < 32)%nat → TokenShort ∈ log).
Proof.
  intros Hvalid.
  destruct (validateEnvironment_returns_trim env readFileSync authToken log Hvalid)
    as (loaded & Hload & -> & Hblank).
  split_and!; [done|apply trim_trimmed| |].
  - intros Hprod Hdef. revert Hvalid. unfold validateEnvironment.
    destruct (loadAuthToken env readFileSync) as [loaded' log0].
    simpl in Hload. subst loaded'.
    rewrite bool_decide_eq_false_2 by done.
    by rewrite (bool_decide_eq_true_2 _ Hdef), (bool_decide_eq_true_2 _ Hprod).
  - intros Hlen. revert Hvalid. unfold validateEnvironment.
    destruct (loadAuthToken env readFileSync) as [loaded' log0].
    simpl in Hload. subst loaded'.
    rewrite bool_decide_eq_false_2 by done.
    rewrite (bool_decide_eq_true_2 _ Hlen).
    repeat match goal with
           | |- context [if ?b then _ else _] => destruct b
           end; intros [= <-]; rewrite !elem_of_app, list_elem_of_singleton; auto.
Qed.

Lemma validateEnvironment_token_is_clean_witness :
  "secret-token" ≠ "" ∧ trimmed "secret-token" ∧
  (NODE_ENV padded_token_env = Some "production" → "secret-token" ≠ default_token) ∧
  ((String.length "secret-token" < 32)%nat →
   TokenShort ∈ [UsingEnvToken; TokenShort]).
Proof.
  apply (validateEnvironment_token_is_clean padded_token_env no_files
           "secret-token" [UsingEnvToken; TokenShort]).
  vm_compute. reflexivity.
Defined.

(** X25, the configured token opens the door.  Let the comparison of
    tokens accept equal strings.  When [validateEnvironment] returns a
    token, a request whose [Authorization] header is [Bearer], a space and
    that token presents the server's token; so does a request that sends
    the value of [AUTH_TOKEN] as it is configured, white space around it
    included. *)
Theorem configured_token_authenticates (compare : string → string → bool)
    (env : StartupEnv) (readFileSync : string → option string)
    (authToken : string) (log : list StartupNotice) :
  (∀ s, compare s s = true) →
  validateEnvironment env readFileSync = (Returned authToken, log) →
  authenticated compare (Some authToken) (Some ("Bearer " +:+ authToken)) ∧
  ∀ raw, AUTH_TOKEN env = Some raw → raw ≠ "" →
    authenticated compare (Some authToken) (Some ("Bearer " +:+ raw)).
Proof.
  intros Hrefl Hvalid.
  destruct (validateEnvironment_returns_trim env readFileSync authToken log Hvalid)
    as (loaded & Hload & -> & Hblank).
  destruct (trim_trimmed loaded) as [Hs He].
  split.
  - exists (trim loaded), (trim loaded). split_and!; [done..|].
    unfold trim at 1. rewrite Hs, He. apply Hrefl.
  - intros raw Hraw Hraw'. exists raw, (trim loaded). split_and!; [done..|].
    assert (loaded = raw) as ->; [|apply Hrefl].
    revert Hload. unfold loadAuthToken. rewrite Hraw.
    destruct raw as [|c s]; [done|]. by intros [= <-].
Qed.

Lemma configured_token_authenticates_witness :
  authenticated String.eqb (Some "secret-token") (Some "Bearer secret-token") ∧
  ∀ raw, AUTH_TOKEN padded_token_env = Some raw → raw ≠ "" →
    authenticated String.eqb (Some "secret-token") (Some ("Bearer " +:+ raw)).
Proof.
  apply (configured_token_authenticates String.eqb padded_token_env no_files
           "secret-token" [UsingEnvToken; TokenShort]).
  - apply String.eqb_refl.
  - vm_compute. reflexivity.
Defined.

(** ** The POST endpoint *)

Lemma bind_not_returned {A B} (c : M A) (k : A → M B) (r : B) this :
  (∀ a this', (k a this').1 ≠ Returned r) → (bind c k this).1 ≠ Returned r.
Proof.
  intros Hk. unfold bind. destruct (c this) as [[a|e] this']; [apply Hk|done].
Qed.

Lemma or_undefined_absent_or_filled a : absent_or_filled (or_undefined a).
Proof.
  unfold absent_or_filled, or_undefined.
  destruct (truthy a) eqn:H; [by right|by left].
Qed.

Section PostEndpointProperties.

Variable sha256_hex : string → string.
Variable timingSafeCompare : string → string → bool.
Variable validateInstanceContext : InstanceContext → bool.
Variable URL_hostname : string → option string.

Local Abbreviation handleRequest := (handleRequest sha256_hex).
Local Abbreviation postMcp :=
  (postMcp sha256_hex timingSafeCompare validateInstanceContext URL_hostname).
Local Abbreviation extractInstanceContext :=
  (extractInstanceContext validateInstanceContext).

Lemma postMcp_rejects (authToken : option string) penv io
    (req : HttpRequest) (this : HttpServer) :
  ¬ authenticated timingSafeCompare authToken (authorization req) →
  let result := postMcp authToken penv io req this in
  result.1 = Returned unauthorized ∧ registry result.2 = registry this ∧
  contextSwitchLocks result.2 = contextSwitchLocks this.
Proof.
  intros Hno result.
  subst result. unfold postMcp. cbv zeta.
  destruct (authorization req) as [[|c s]|] eqn:Hh; [done| |done].
  destruct (startsWith (String c s) "Bearer ") eqn:Hp; [|done].
  cbn [negb].
  destruct authToken as [[|c' s']|]; [done| |done].
  destruct (timingSafeCompare (trim (slice 7 (String c s))) (String c' s')) eqn:Hc;
    [|done].
  exfalso. apply Hno. exists (slice 7 (String c s)), (String c' s').
  split_and!; [|done|done|done].
  f_equal. by apply (startsWith_slice "Bearer ").
Qed.

Lemma postMcp_admits (authToken : option string) penv io
    (req : HttpRequest) (this : HttpServer) :
  authenticated timingSafeCompare authToken (authorization req) →
  (postMcp authToken penv io req this).1 ≠ Returned unauthorized.
Proof.
  intros (rest & token & Hh & -> & Hne & Hc).
  unfold postMcp. rewrite Hh.
  change ("Bearer " +:+ rest) with (String "B" ("earer " +:+ rest)).
  cbv beta iota zeta.
  change (String "B" ("earer " +:+ rest)) with ("Bearer " +:+ rest).
  rewrite startsWith_app. cbn [negb].
  rewrite (slice_app "Bearer " rest : slice 7 ("Bearer " +:+ rest) = rest).
  destruct token as [|c' s']; [done|]. rewrite Hc. cbn [negb].
  apply bind_not_returned. intros _ this2.
  apply bind_not_returned. intros ctx this3.
  apply bind_not_returned. intros _ this4.
  apply handleRequest_never_unauthorized.
Qed.

(** X26, who is turned away at the door.  The POST endpoint answers 401
    with code -32001 exactly to the requests that do not present the
    server's token: those without an [Authorization] header, with one that
    does not begin with [Bearer] and a space, or whose token, trimmed, does
    not compare equal to the server's; and so to every request when the
    server has no token.  Such a request changes neither the registry nor
    the locks. *)
Theorem postMcp_unauthorized_iff (authToken : option string) penv io
    (req : HttpRequest) (this : HttpServer) :
  let result := postMcp authToken penv io req this in
  (result.1 = Returned unauthorized
   ↔ ¬ authenticated timingSafeCompare authToken (authorization req)) ∧
  (¬ authenticated timingSafeCompare authToken (authorization req) →
   registry result.2 = registry this ∧
   contextSwitchLocks result.2 = contextSwitchLocks this).
Proof.
  intros result. split; [split|].
  - intros H401 Hauth. by apply (postMcp_admits authToken penv io req this).
  - intros Hno. by apply postMcp_rejects.
  - intros Hno. by apply postMcp_rejects.
Qed.

(** X27, the instance context built from the headers.  The function that
    builds the instance context returns normally and leaves the registry
    alone.  It yields no context when neither [x-n8n-url] nor [x-n8n-key]
    holds a value, whatever the other headers say.  A context it yields has
    passed [validateInstanceContext], holds the URL or the key, and holds
    no empty string: the URL, the key, the tenant id and the session id are
    each undefined or not empty. *)
Theorem extractInstanceContext_wellformed (req : HttpRequest)
    (this : HttpServer) :
  let result := extractInstanceContext req this in
  registry result.2 = registry this ∧
  (truthy (x_n8n_url req) = false → truthy (x_n8n_key req) = false →
   result = (Returned None, this)) ∧
  ∃ extracted, result.1 = Returned extracted ∧
    ∀ context, extracted = Some context →
      validateInstanceContext context = true ∧
      (truthy (n8nApiUrl context) = true ∨ truthy (n8nApiKey context) = true) ∧
      n8nApiUrl context = or_undefined (x_n8n_url req) ∧
      n8nApiKey context = or_undefined (x_n8n_key req) ∧
      absent_or_filled (n8nApiUrl context) ∧
      absent_or_filled (n8nApiKey context) ∧
      absent_or_filled (instanceId context) ∧
      absent_or_filled (ctxSessionId context).
Proof.
  intros result. subst result. unfold extractInstanceContext.
  cbn [extractMultiTenantHeaders header_n8n_url header_n8n_key
         header_instance_id header_session_id].
  destruct (truthy (x_n8n_url req)) eqn:Hu, (truthy (x_n8n_key req)) eqn:Hk;
    cbn [negb andb].
  4: { split_and!; [done|done|]. by exists None. }
  all: match goal with
       | |- context [if negb ?b then _ else _] => destruct b eqn:Hv
       end; cbn [negb].
  all: split_and!; [done|done|].
  all: first [ by exists None | eexists; split; [reflexivity|] ].
  all: intros context [= <-]; cbn [n8nApiUrl n8nApiKey instanceId ctxSessionId].
  all: split_and!; try apply or_undefined_absent_or_filled; try done.
  all: unfold or_undefined; rewrite ?Hu, ?Hk; auto.
Qed.

End PostEndpointProperties.

(** ** The close listener *)

Lemma closeHandler_unfold headersSent sessionId now this :
  closeHandler headersSent sessionId now this =
    match sessionId with
    | Some (String c s) =>
        if headersSent then (Returned tt, this)
        else
          let this1 :=
            with_effect (LoggerInfo "Connection closed before response sent"
                           [("sessionId", String c s)]) this in
          match read (sessionMetadata this) (String c s) with
          | Own metadata =>
              if bool_decide (now - lastAccess metadata > 60000)
              then removeSession (String c s) "connection_closed" this1
              else (Returned tt, this1)
          | Inherited =>
              (Thrown "Cannot read properties of undefined (reading 'getTime')",
               this1)
          | Undefined => (Returned tt, this1)
          end
    | _ => (Returned tt, this)
    end.
Proof.
  unfold closeHandler. destruct sessionId as [[|c s]|]; [done| |done].
  destruct headersSent; [done|].
  unfold when, bind, gets, logger_info, modify. cbn [negb fst snd].
  cbn [with_effect sessionMetadata].
  destruct (read (sessionMetadata this) (String c s)) as [md| |]; [|done..].
  by case_bool_decide.
Qed.

(** X28, a closed connection removes only an idle session.  For a request
    whose [Mcp-Session-Id] header names no property of [Object.prototype],
    the close listener returns normally, and it leaves the registry as it
    is unless the response had not been started, the request named a
    session that has metadata, and that session had not been used for more
    than 60000 ms: then, and only then, it is [removeSession], for that
    session and with the reason [connection_closed], that changes the
    registry. *)
Theorem closeHandler_removes_only_idle_session (headersSent : bool)
    (sessionId : option string) (now : Z) (this : HttpServer) :
  (∀ sid, sessionId = Some sid → inherited sid = false) →
  let this' := (closeHandler headersSent sessionId now this).2 in
  (closeHandler headersSent sessionId now this).1 = Returned tt ∧
  (registry this' = registry this ∨
   ∃ sid metadata,
     sessionId = Some sid ∧ headersSent = false ∧
     sessionMetadata this !! sid = Some metadata ∧
     now - lastAccess metadata > 60000 ∧
     this' = (removeSession sid "connection_closed"
                (with_effect (LoggerInfo "Connection closed before response sent"
                                [("sessionId", sid)]) this)).2).
Proof.
  intros Hown this'. subst this'. rewrite closeHandler_unfold.
  destruct sessionId as [[|c s]|]; [by split; [|left]| |by split; [|left]].
  destruct headersSent; [by split; [|left]|]. cbv zeta.
  unfold read. rewrite (Hown (String c s) eq_refl).
  destruct (sessionMetadata this !! String c s) as [md|] eqn:Hmd;
    [|by split; [|left]].
  case_bool_decide as Hidle; [|by split; [|left]].
  split; [apply removeSession_returns|].
  right. by exists (String c s), md.
Qed.

Lemma closeHandler_removes_only_idle_session_witness :
  let this' := (closeHandler false (Some "s1") 60001 (one_session false)).2 in
  (closeHandler false (Some "s1") 60001 (one_session false)).1 = Returned tt ∧
  (registry this' = registry (one_session false) ∨
   ∃ sid metadata,
     Some "s1" = Some sid ∧ false = false ∧
     sessionMetadata (one_session false) !! sid = Some metadata ∧
     60001 - lastAccess metadata > 60000 ∧
     this' = (removeSession sid "connection_closed"
                (with_effect (LoggerInfo "Connection closed before response sent"
                                [("sessionId", sid)]) (one_session false))).2).
Proof.
  apply (closeHandler_removes_only_idle_session false (Some "s1") 60001
           (one_session false)).
  intros sid [= <-]. reflexivity.
Defined.

(** The callback [onerror] leaves the metadata of a session as it is, or
    deletes it. *)
Lemma onerror_metadata tid sid (this : HttpServer) :
  sessionMetadata (exec (onerror tid) this) !! sid = sessionMetadata this !! sid ∨
  sessionMetadata (exec (onerror tid) this) !! sid = None.
Proof.
  unfold exec. rewrite onerror_unfold. cbn [fst snd].
  destruct (truthy (Some tid)); [|by left].
  rewrite removeSession_unfold. cbn [with_effect transports].
  destruct (decide (tid = sid)) as [->|Hne].
  - destruct (transports this !! sid) as [t|]; [destruct (close_rejects t)|];
      cbn [snd with_effect without_session sessionMetadata];
      rewrite ?lookup_delete_eq; auto.
  - left.
    destruct (transports this !! tid) as [t|]; [destruct (close_rejects t)|];
      cbn [snd with_effect without_session sessionMetadata];
      rewrite ?lookup_delete_ne by done; done.
Qed.

Section CloseListener.

Variable sha256_hex : string → string.

Local Abbreviation handleRequest := (handleRequest sha256_hex).

(** X29, a session in use outlives a closed connection.  After a request
    on a registered session, a connection that closes within 60000 ms of
    the request, whether the response had been started or not, leaves the
    registry as the request left it. *)
Theorem request_then_close_keeps_session penv io req instanceContext
    (this : HttpServer) c s t md (headersSent : bool) (now : Z) :
  let sid := String c s in
  isInitializeRequest req = false →
  mcp_session_id req = Some sid →
  transports this !! sid = Some t →
  sessionMetadata this !! sid = Some md →
  now - date_now io ≤ 60000 →
  let this' := (handleRequest penv io req instanceContext this).2 in
  registry (closeHandler headersSent (Some sid) now this').2 = registry this'.
Proof.
  intros sid Hi Hs Ht Hmd Hnow this'.
  rewrite closeHandler_unfold. subst sid. cbv beta iota zeta.
  destruct headersSent; [done|].
  assert (sessionMetadata this' !! String c s
          = Some (mkSessionMeta (date_now io) (createdAt md)) ∨
          sessionMetadata this' !! String c s = None) as Hm'.
  { subst this'.
    rewrite (handleRequest_known sha256_hex penv io req instanceContext this c s t)
      by done.
    cbn [snd].
    destruct (renewed_state penv (date_now io) instanceContext this (String c s)
                md Hmd) as [_ Hm2].
    cbv zeta in Hm2.
    set (this2 := exec (updateSessionAccess (date_now io) (String c s)) _) in *.
    destruct (transport_errors io).
    - destruct (onerror_metadata (transport_sessionId t) (String c s) this2)
        as [H|H]; [|by right].
      left. cbn [when]. rewrite H, Hm2. apply lookup_insert_eq.
    - left. change (exec (when false (onerror (transport_sessionId t))) this2)
        with this2.
      rewrite Hm2. apply lookup_insert_eq. }
  unfold read.
  destruct Hm' as [-> | ->].
  - cbn [lastAccess]. by rewrite bool_decide_eq_false_2 by lia.
  - by destruct (inherited (String c s)).
Qed.

End CloseListener.

Lemma request_then_close_keeps_session_witness :
  let this' := (handleRequest constant_digest single_tenant at_seven continue_s1
                  None (one_session false)).2 in
  registry (closeHandler false (Some "s1") 60007 this').2 = registry this'.
Proof.
  apply (request_then_close_keeps_session constant_digest single_tenant at_seven
           continue_s1 None (one_session false) "s" "1" (mkTransport "s1" false)
           (mkSessionMeta 0 0) false 60007).
  - reflexivity.
  - reflexivity.
  - vm_compute. reflexivity.
  - vm_compute. reflexivity.
  - unfold at_seven. simpl. lia.
Defined.
